(** * docker-healthchecker: the probe, the inspector and the scheduler

    A shallow embedding of [docker_healthchecker.py].  The three coroutines
    [_inspect_containers], [_is_healthy] and [_check_containers] are written
    as executable functions over an explicit model of what lies outside the
    script: the container runtime (what [docker inspect] prints, how every
    [docker exec] process behaves) and the asyncio event loop (which tasks
    are done when [asyncio.wait] returns, where a task stands when it is
    cancelled).  Those are the fields of [world]; everything else is code.
    [main] comes last, over what [parse_args] and the standard input give
    it. *)

From Stdlib Require Import ZArith List String Ascii Bool Arith Lia Permutation.
Import ListNotations.
Open Scope string_scope.
Open Scope list_scope.

Set Warnings "-register-all".

(** ** Python values *)

(** What [json.loads] builds.  Objects are association lists looked up from
    the left.  JSON numbers are restricted to integers: the script never
    computes with a number taken from the inspection output. *)
Inductive json : Type :=
| JNull
| JBool (b : bool)
| JInt (z : Z)
| JStr (s : string)
| JList (l : list json)
| JDict (kvs : list (string * json)).

Inductive exn : Type :=
| KeyError (key : json)
| IndexError
| TypeError
| AttributeError
| ValueError
| NotImplementedError (hc_type : json)
| UnboundLocalError (var : string)
| ProcessLookupError
| CancelledError
| TimeoutError.

Definition exn_eqb_Cancelled (e : exn) : bool :=
  match e with CancelledError => true | _ => false end.
Definition exn_eqb_ProcessLookup (e : exn) : bool :=
  match e with ProcessLookupError => true | _ => false end.
Definition exn_eqb_Timeout (e : exn) : bool :=
  match e with TimeoutError => true | _ => false end.

(** [bool(v)] *)
Definition truthy (v : json) : bool :=
  match v with
  | JNull => false
  | JBool b => b
  | JInt z => negb (z =? 0)%Z
  | JStr s => negb (s =? "")
  | JList l => match l with [] => false | _ :: _ => true end
  | JDict kvs => match kvs with [] => false | _ :: _ => true end
  end.

Fixpoint assoc (k : string) (kvs : list (string * json)) : option json :=
  match kvs with
  | [] => None
  | (k', v) :: rest => if k =? k' then Some v else assoc k rest
  end.

(** [v == s] for a string literal [s] *)
Definition str_eq (v : json) (s : string) : bool :=
  match v with JStr s' => s' =? s | _ => false end.

Fixpoint chars (s : string) : list json :=
  match s with
  | EmptyString => []
  | String c rest => JStr (String c EmptyString) :: chars rest
  end.

(** ** Results of a coroutine *)

(** A coroutine returns, raises, or stays suspended for ever. *)
Inductive res (A : Type) : Type :=
| Ret (a : A)
| Raise (e : exn)
| Blocked.
Arguments Ret {A} a.
Arguments Raise {A} e.
Arguments Blocked {A}.

(** ** The probe: [_is_healthy] *)

Inductive stream : Type := stdout | stderr.

Definition stream_eqb (a b : stream) : bool :=
  match a, b with
  | stdout, stdout | stderr, stderr => true
  | _, _ => false
  end.

Inductive level : Type := DEBUG | INFO | WARNING.

Inductive message : Type :=
| Checking (name id : json)
| Output (name id : json) (from : stream) (line : string)
| TimeoutExceeded (name id : json)
| Returncode (name id : json) (returncode : Z) (healthy : bool)
| NoHealthCheck (name id : json).

(** What a coroutine does to the outside. *)
Inductive event : Type :=
| Log (lv : level) (m : message)
| Spawn (argv : list string)
| Kill
| Reaped.

(** How one [docker exec] process behaves.  [reads] are the [readline()]
    calls that complete, in the order the drain loop sees them; the empty
    line is end of file.  [returncode] is [None] for a process that never
    exits.  [gone] says that [kill()] finds no process any more. *)
Record proc : Type := mkProc {
  reads : list (stream * string);
  returncode : option Z;
  gone : bool
}.

(** A cancellation request reaches a started task after it has completed [k]
    suspension points; it is delivered at the next one. *)
Inductive cancellation : Type :=
| NoCancel
| CancelAfter (k : nat).

Record penv : Type := mkPenv {
  behaviour : proc;
  cancel : cancellation
}.

(** The frame of a running [_is_healthy]: whether the local [process] is
    bound, the suspension points completed, whether [CancelledError] has been
    thrown into the coroutine, and what it did so far. *)
Record frame : Type := mkFrame {
  process : bool;
  awaited : nat;
  delivered : bool;
  events : list event
}.

Definition frame0 : frame := mkFrame false 0 false [].

Definition M (A : Type) : Type := frame -> frame * res A.

Definition ret {A} (a : A) : M A := fun f => (f, Ret a).
Definition raise {A} (e : exn) : M A := fun f => (f, Raise e).
Definition block {A} : M A := fun f => (f, Blocked).

Definition bind {A B} (m : M A) (k : A -> M B) : M B :=
  fun f =>
    match m f with
    | (f', Ret a) => k a f'
    | (f', Raise e) => (f', Raise e)
    | (f', Blocked) => (f', Blocked)
    end.

Declare Scope py_scope.
Delimit Scope py_scope with py.
Notation "x <- m ;; k" := (bind m (fun x => k))
  (at level 61, m at next level, right associativity) : py_scope.
Notation "m ;; k" := (bind m (fun _ => k))
  (at level 61, right associativity) : py_scope.
Open Scope py_scope.

Definition lift {A} (r : exn + A) : M A :=
  match r with inr a => ret a | inl e => raise e end.

(** [try: body  except E: handler] for the exception classes [E] that
    [catches] accepts *)
Definition try_except {A} (body : M A) (catches : exn -> bool)
    (handler : M A) : M A :=
  fun f =>
    match body f with
    | (f', Raise e) => if catches e then handler f' else (f', Raise e)
    | other => other
    end.

Definition emit (e : event) : M unit :=
  fun f => (mkFrame (process f) (awaited f) (delivered f) (events f ++ [e]),
            Ret tt).

Definition log (lv : level) (m : message) : M unit := emit (Log lv m).

Definition set_process : M unit :=
  fun f => (mkFrame true (awaited f) (delivered f) (events f), Ret tt).

(** [v[k]] for a string key *)
Definition subscript (v : json) (k : string) : exn + json :=
  match v with
  | JDict kvs =>
      match assoc k kvs with
      | Some x => inr x
      | None => inl (KeyError (JStr k))
      end
  | _ => inl TypeError
  end.

(** [v.get(k)] *)
Definition dict_get (v : json) (k : string) : exn + json :=
  match v with
  | JDict kvs =>
      match assoc k kvs with Some x => inr x | None => inr JNull end
  | _ => inl AttributeError
  end.

(** [v[0]] *)
Definition index0 (v : json) : exn + json :=
  match v with
  | JList (x :: _) => inr x
  | JList [] => inl IndexError
  | JStr (String c _) => inr (JStr (String c EmptyString))
  | JStr EmptyString => inl IndexError
  | JDict _ => inl (KeyError (JInt 0))
  | _ => inl TypeError
  end.

(** [v[1:]] *)
Definition slice1 (v : json) : exn + json :=
  match v with
  | JList l => inr (JList (tl l))
  | JStr (String _ rest) => inr (JStr rest)
  | JStr EmptyString => inr (JStr EmptyString)
  | _ => inl TypeError
  end.

(** unpacking [v] into the arguments of a call *)
Definition unpack (v : json) : exn + list json :=
  match v with
  | JList l => inr l
  | JStr s => inr (chars s)
  | JDict kvs => inr (map (fun kv => JStr (fst kv)) kvs)
  | _ => inl TypeError
  end.

(** The program arguments of a subprocess must all be strings. *)
Fixpoint as_argv (args : list json) : exn + list string :=
  match args with
  | [] => inr []
  | JStr s :: rest =>
      match as_argv rest with inr l => inr (s :: l) | inl e => inl e end
  | _ :: _ => inl TypeError
  end.

Section Probe.

Variable env : penv.

(** A suspension point.  [ready] says whether the awaited thing ever
    completes.  A requested cancellation is thrown in once, at the first
    suspension point after the [k] completed ones, or earlier where the
    coroutine would otherwise wait for ever. *)
Definition suspend (ready : bool) : M unit :=
  fun f =>
    let resume :=
      if ready
      then (mkFrame (process f) (S (awaited f)) (delivered f) (events f),
            Ret tt)
      else (f, Blocked) in
    match cancel env with
    | NoCancel => resume
    | CancelAfter k =>
        if negb (delivered f) && ((k <=? awaited f)%nat || negb ready)
        then (mkFrame (process f) (awaited f) true (events f),
              Raise CancelledError)
        else resume
    end.

(** [asyncio.create_subprocess_exec]: the arguments are checked,
    the process is started, and the coroutine waits for its pipes.  When it
    is cancelled there asyncio closes the transport, which kills and reaps
    the child, and no process object is returned. *)
Definition create_subprocess_exec (args : list json) : M unit :=
  argv <- lift (as_argv args) ;;
  emit (Spawn argv) ;;
  try_except (suspend true) exn_eqb_Cancelled
    (emit Kill ;; emit Reaped ;; raise CancelledError).

Definition mem_stream (s : stream) (l : list stream) : bool :=
  existsb (stream_eqb s) l.

Definition remove_stream (s : stream) (l : list stream) : list stream :=
  filter (fun x => negb (stream_eqb s x)) l.

(** The loop of lines 46-62: one [readline()] task per stream; a task that
    returns a line is logged and replaced, one that returns the empty line is
    not.  A completed read of a stream that is no longer read is not seen. *)
Fixpoint drain (name id : json) (pending : list stream)
    (rs : list (stream * string)) {struct rs} : M unit :=
  match pending with
  | [] => ret tt
  | _ :: _ =>
      match rs with
      | [] => suspend false ;; block
      | (s, line) :: rs' =>
          if mem_stream s pending then
            suspend true ;;
            if negb (line =? "") then
              log DEBUG (Output name id s line) ;;
              drain name id pending rs'
            else drain name id (remove_stream s pending) rs'
          else drain name id pending rs'
      end
  end.

(** [await process.wait()] on the normal path *)
Definition process_wait : M Z :=
  match returncode (behaviour env) with
  | Some rc => suspend true ;; emit Reaped ;; ret rc
  | None => suspend false ;; block
  end.

(** [process.kill()] *)
Definition process_kill : M unit :=
  fun f =>
    if process f then
      if gone (behaviour env) then (f, Raise ProcessLookupError)
      else emit Kill f
    else (f, Raise (UnboundLocalError "process")).

(** [await process.wait()] in the handler: the process was killed or had
    exited already. *)
Definition process_wait_killed : M unit :=
  suspend true ;; emit Reaped.

Definition _is_healthy (inspect_data : json) : M (json * option bool) :=
  container_id <- lift (subscript inspect_data "Id") ;;
  container_name <- lift (subscript inspect_data "Name") ;;
  config <- lift (subscript inspect_data "Config") ;;
  healthcheck <- lift (dict_get config "Healthcheck") ;;
  if truthy healthcheck then
    log INFO (Checking container_name container_id) ;;
    test <- lift (subscript healthcheck "Test") ;;
    hc_type <- lift (index0 test) ;;
    hc_args <- lift (slice1 test) ;;
    rc <- try_except
      ((if str_eq hc_type "CMD-SHELL" then
          arg <- lift (index0 hc_args) ;;
          create_subprocess_exec
            [JStr "docker"; JStr "exec"; container_id;
             JStr "/bin/sh"; JStr "-c"; arg] ;;
          set_process
        else if str_eq hc_type "CMD" then
          args <- lift (unpack hc_args) ;;
          create_subprocess_exec
            (JStr "docker" :: JStr "exec" :: container_id :: args) ;;
          set_process
        else raise (NotImplementedError hc_type)) ;;
       drain container_name container_id [stdout; stderr]
         (reads (behaviour env)) ;;
       process_wait)
      exn_eqb_Cancelled
      (log WARNING (TimeoutExceeded container_name container_id) ;;
       try_except process_kill exn_eqb_ProcessLookup (ret tt) ;;
       process_wait_killed ;;
       raise CancelledError) ;;
    let healthy := (rc =? 0)%Z in
    log INFO (Returncode container_name container_id rc healthy) ;;
    ret (inspect_data, Some healthy)
  else
    log INFO (NoHealthCheck container_name container_id) ;;
    ret (inspect_data, None).

End Probe.

(** ** Reading a probe's trace *)

(** The argument vectors of the processes started in a trace. *)
Definition spawned (evs : list event) : list (list string) :=
  flat_map (fun e => match e with Spawn argv => [argv] | _ => [] end) evs.

Definition silent (e : event) : bool :=
  match e with Spawn _ => false | _ => true end.

(** The number of processes waited for in a trace. *)
Definition reaped (evs : list event) : nat :=
  List.length
    (filter (fun e => match e with Reaped => true | _ => false end) evs).

(** As many processes waited for as started. *)
Definition settled (evs : list event) : Prop :=
  List.length (spawned evs) = reaped evs.

(** A step that waits for no process to exit. *)
Definition calm {A} (m : M A) : Prop :=
  forall f f' r, m f = (f', r) -> reaped (events f') = reaped (events f).

(** The two exceptions that asyncio uses as signals between tasks. *)
Definition signal (e : exn) : bool :=
  exn_eqb_Cancelled e || exn_eqb_Timeout e.


(** A step that ends with the cancellation thrown in exactly when it raises
    [CancelledError], and never raises [TimeoutError]. *)
Definition honest {A} (m : M A) : Prop :=
  forall f f' r, m f = (f', r) -> delivered f = false ->
    (delivered f' = true <-> r = Raise CancelledError) /\
    (forall e, r = Raise e -> exn_eqb_Timeout e = false).

(** A step of a coroutine that starts no process, leaves the local
    [process] alone, raises nothing but [CancelledError], and is honest. *)
Record quiet {A} (m : M A) : Prop := mkQuiet {
  quiet_spawned : forall f f' r, m f = (f', r) ->
    spawned (events f') = spawned (events f);
  quiet_process : forall f f' r, m f = (f', r) ->
    process f' = process f;
  quiet_raises : forall f f' e, m f = (f', Raise e) -> e = CancelledError;
  quiet_honest : honest m
}.

(** Suspension points are only ever added. *)
Definition monotone {A} (m : M A) : Prop :=
  forall f f' r, m f = (f', r) -> awaited f <= awaited f'.

(** A step that a requested cancellation always gets out of a wait. *)
Definition responsive (env : penv) {A} (m : M A) : Prop :=
  forall f f', delivered f = false -> m f <> (f', Blocked).

(** The blocks of [_is_healthy] under the names the proofs use: the
    [if]/[elif]/[else] on the kind of check (lines 31-45), the body of the
    [try] (lines 31-63), the handler (lines 64-72) and the lines after the
    [try] statement (lines 73-79). *)
Definition dispatch (env : penv) (container_id hc_type hc_args : json)
    : M unit :=
  if str_eq hc_type "CMD-SHELL" then
    arg <- lift (index0 hc_args) ;;
    create_subprocess_exec env
      [JStr "docker"; JStr "exec"; container_id;
       JStr "/bin/sh"; JStr "-c"; arg] ;;
    set_process
  else if str_eq hc_type "CMD" then
    args <- lift (unpack hc_args) ;;
    create_subprocess_exec env
      (JStr "docker" :: JStr "exec" :: container_id :: args) ;;
    set_process
  else raise (NotImplementedError hc_type).

Definition drain_and_wait (env : penv) (container_name container_id : json)
    : M Z :=
  drain env container_name container_id [stdout; stderr]
    (reads (behaviour env)) ;;
  process_wait env.

Definition try_body (env : penv)
    (container_name container_id hc_type hc_args : json) : M Z :=
  dispatch env container_id hc_type hc_args ;;
  drain_and_wait env container_name container_id.

Definition on_cancelled (env : penv) (container_name container_id : json)
    : M Z :=
  log WARNING (TimeoutExceeded container_name container_id) ;;
  try_except (process_kill env) exn_eqb_ProcessLookup (ret tt) ;;
  process_wait_killed env ;;
  raise CancelledError.

Definition report (inspect_data container_name container_id : json) (rc : Z)
    : M (json * option bool) :=
  log INFO (Returncode container_name container_id rc (rc =? 0)%Z) ;;
  ret (inspect_data, Some (rc =? 0)%Z).

Definition try_statement (env : penv)
    (inspect_data container_name container_id : json) (body : M Z)
    : M (json * option bool) :=
  rc <- try_except body exn_eqb_Cancelled
          (on_cancelled env container_name container_id) ;;
  report inspect_data container_name container_id rc.

Definition checking (container_name container_id : json) (f : frame)
    : frame :=
  mkFrame (process f) (awaited f) (delivered f)
    (events f ++ [Log INFO (Checking container_name container_id)]).

(** The frame in which the process of a probe has just been started. *)
Definition launched (container_name container_id : json)
    (argv : list string) : frame :=
  mkFrame true 1 false
    [Log INFO (Checking container_name container_id); Spawn argv].

(** What the handler leaves in the trace after the warning. *)
Definition cleanup (p : proc) : list event :=
  if gone p then [Reaped] else [Kill; Reaped].

(** A record on which the probe gets as far as starting a process:
    the lines 23-29 succeed and the dispatch calls
    [create_subprocess_exec] with the strings [argv]. *)
Inductive launchable (inspect_data container_name container_id : json)
    (argv : list string) : Prop :=
| Launches (hc_type hc_args : json) (exec : list json)
    (l_configured : forall env f,
       _is_healthy env inspect_data f =
         try_statement env inspect_data container_name container_id
           (try_body env container_name container_id hc_type hc_args)
           (checking container_name container_id f))
    (l_dispatch : forall env f,
       dispatch env container_id hc_type hc_args f =
         (create_subprocess_exec env exec ;; set_process) f)
    (l_argv : as_argv exec = inr argv).

(** The two shapes of [Test] the probe can run. *)
Inductive runnable (container_id : string) : json -> list string -> Prop :=
| runnable_shell cmd rest :
    runnable container_id (JList (JStr "CMD-SHELL" :: JStr cmd :: rest))
      ["docker"; "exec"; container_id; "/bin/sh"; "-c"; cmd]
| runnable_exec args :
    runnable container_id (JList (JStr "CMD" :: map JStr args))
      ("docker" :: "exec" :: container_id :: args).

(** A record on which the probe ends in its first step, whatever the
    process behaviour and the cancellation: it returns [None] or raises
    before any suspension point, and starts no process. *)
Definition immediate (inspect_data : json) : Prop :=
  forall env f, exists evs r,
    _is_healthy env inspect_data f =
      (mkFrame (process f) (awaited f) (delivered f) (events f ++ evs), r) /\
    spawned evs = [] /\ reaped evs = 0 /\
    (r = Ret (inspect_data, None) \/ exists e, r = Raise e /\ signal e = false).

(** ** The world outside the script *)

(** One run of [docker inspect]: its exit status, and what
    [json.loads(stdout.decode().strip())] makes of its output, a value, or
    [None] where the decoder raises its [ValueError]. *)
Record inspection : Type := mkInspection {
  inspect_returncode : Z;
  inspect_output : option json
}.

(** [docker_inspect] answers the inspection of a list of identifiers.
    [docker_exec n] is the behaviour of the process that task [n] starts.
    [ready n] lists the tasks that the [n]-th call of [asyncio.wait] finds
    done, in the order in which the returned set is iterated.
    [progress n] is the number of suspension points task [n] has completed
    when a cancellation request reaches it. *)
Record world : Type := mkWorld {
  docker_inspect : list string -> inspection;
  docker_exec : nat -> proc;
  ready : nat -> list nat;
  progress : nat -> nat
}.

(** ** The inspector: [_inspect_containers] *)

Definition _inspect_containers (w : world) (container_ids : list string)
    : list event * res json :=
  let process := docker_inspect w container_ids in
  ([Spawn ("docker" :: "inspect" :: container_ids); Reaped],
   match inspect_output process with
   | Some v => Ret v
   | None => Raise ValueError
   end).

(** ** The scheduler: [_check_containers] *)

(** The two coroutines that become tasks.  [slot] is the position of the
    record in the inspection output; it is carried along for the proofs and
    read by no step. *)
Inductive coroutine : Type :=
| Timeout (timeout : Z)
| IsHealthy (slot : nat) (inspect_data : json).

(** Tasks are numbered in the order of their creation. *)
Record task : Type := mkTask {
  tid : nat;
  coro : coroutine
}.

Inductive outcome : Type :=
| Returned
| Raised (e : exn).

Inductive origin : Type :=
| Main
| Task (id : nat).

(** The state of [_check_containers].  [pending] holds the tasks in flight:
    the Python list of the same name, less the tasks that the cancellation
    loop has already awaited.  [started] is the number of tasks that had
    been created when the scheduler last gave control to the event loop;
    tasks numbered from [started] on have not run yet.  [reports] and
    [cancelled] record, for the proofs, the verdicts taken from done probes
    and the tasks cancelled and awaited. *)
Record session : Type := mkSession {
  pending : list task;
  timedout : bool;
  next_id : nat;
  waits : nat;
  started : nat;
  reports : list (nat * option bool);
  cancelled : list nat;
  trace : list (origin * event)
}.

(** Where the control is: at the test of the [while] (line 100), in the
    [for] over [done] (lines 106-114), in the cancellation loop (lines
    116-121), or out of the function. *)
Inductive pc : Type :=
| AtWhile
| InFor (done : list task)
| InCancel
| Halted (o : outcome).

Definition config : Type := pc * session.

(** [if timeout:] *)
Definition truthy_timeout (timeout : option Z) : bool :=
  match timeout with
  | Some z => negb (z =? 0)%Z
  | None => false
  end.

Definition tagged (id : nat) (evs : list event) : list (origin * event) :=
  map (fun e => (Task id, e)) evs.

Definition probe (w : world) (id : nat) (inspect_data : json)
    (c : cancellation) : frame * res (json * option bool) :=
  _is_healthy (mkPenv (docker_exec w id) c) inspect_data frame0.

(** [f.result()] for a task that is done, with what the task did. *)
Definition result (w : world) (t : task)
    : list event * res (json * option bool) :=
  match coro t with
  | Timeout _ => ([], Raise TimeoutError)
  | IsHealthy _ inspect_data =>
      let (f, r) := probe w (tid t) inspect_data NoCancel in (events f, r)
  end.

Definition mem_nat (n : nat) (l : list nat) : bool := existsb (Nat.eqb n) l.

(** Whether a task is done when the [n]-th [asyncio.wait] returns: the
    timer when the event loop says so; a probe when it ends in its first
    step, or when the event loop says so and the probe does come to an
    end. *)
Definition finished (w : world) (n : nat) (t : task) : bool :=
  match coro t with
  | Timeout _ => mem_nat (tid t) (ready w n)
  | IsHealthy _ inspect_data =>
      let (f, r) := probe w (tid t) inspect_data NoCancel in
      match r with
      | Blocked => false
      | _ => (awaited f =? 0)%nat || mem_nat (tid t) (ready w n)
      end
  end.

(** The two sets that [asyncio.wait] returns.  [done] is iterated in the
    order of [ready], then in the order of creation. *)
Definition done_of (w : world) (n : nat) (pending : list task) : list task :=
  flat_map
    (fun i => filter (fun t => (tid t =? i)%nat && finished w n t) pending)
    (nodup Nat.eq_dec (ready w n ++ map tid pending)).

Definition pending_of (w : world) (n : nat) (pending : list task)
    : list task :=
  filter (fun t => negb (finished w n t)) pending.

(** [p.cancel(); await p]: what the task did since, and how it ended.  A
    task that has not run yet never runs; a sleeping timer is cancelled; a
    probe gets the cancellation where the event loop finds it. *)
Definition cancel_await (w : world) (started : nat) (t : task)
    : list event * res (json * option bool) :=
  match coro t with
  | Timeout _ => ([], Raise CancelledError)
  | IsHealthy _ inspect_data =>
      if (started <=? tid t)%nat then ([], Raise CancelledError)
      else
        let (f, r) :=
          probe w (tid t) inspect_data (CancelAfter (progress w (tid t))) in
        (events f, r)
  end.

Definition slot_of (t : task) : nat :=
  match coro t with
  | Timeout _ => 0
  | IsHealthy slot _ => slot
  end.

Section Scheduler.

Variable w : world.
Variable timeout : option Z.

(** One step of [_check_containers]; [None] when [asyncio.wait], or the
    wait for a cancelled task, never returns. *)
Definition step (c : config) : option config :=
  let (p, s) := c in
  match p with
  | AtWhile =>
      match pending s with
      | [] => Some (Halted Returned, s)
      | _ :: _ =>
          if truthy_timeout timeout && (List.length (pending s) =? 1)%nat
          then Some (Halted Returned, s)
          else
            match done_of w (waits s) (pending s) with
            | [] => None
            | f :: done =>
                Some (InFor (f :: done),
                      mkSession (pending_of w (waits s) (pending s))
                        (timedout s) (next_id s) (S (waits s)) (next_id s)
                        (reports s) (cancelled s) (trace s))
            end
      end
  | InFor (f :: done) =>
      let (evs, r) := result w f in
      let tr := trace s ++ tagged (tid f) evs in
      match r with
      | Raise e =>
          if exn_eqb_Timeout e
          then Some (InFor done,
                     mkSession (pending s) true (next_id s) (waits s)
                       (started s) (reports s) (cancelled s) tr)
          else Some (Halted (Raised e),
                     mkSession (pending s) (timedout s) (next_id s) (waits s)
                       (started s) (reports s) (cancelled s) tr)
      | Ret (inspect_data, verdict) =>
          let rs := reports s ++ [(slot_of f, verdict)] in
          match verdict with
          | Some false =>
              Some (InFor done,
                    mkSession
                      (pending s ++
                       [mkTask (next_id s)
                          (IsHealthy (slot_of f) inspect_data)])
                      (timedout s) (S (next_id s)) (waits s) (started s)
                      rs (cancelled s) tr)
          | _ =>
              Some (InFor done,
                    mkSession (pending s) (timedout s) (next_id s) (waits s)
                      (started s) rs (cancelled s) tr)
          end
      | Blocked => None
      end
  | InFor [] =>
      match pending s with
      | _ :: _ => if timedout s then Some (InCancel, s) else Some (AtWhile, s)
      | [] => Some (AtWhile, s)
      end
  | InCancel =>
      match pending s with
      | [] => Some (Halted (Raised TimeoutError), s)
      | p :: rest =>
          let (evs, r) := cancel_await w (started s) p in
          let s' :=
            mkSession rest (timedout s) (next_id s) (waits s) (next_id s)
              (reports s) (cancelled s ++ [tid p])
              (trace s ++ tagged (tid p) evs) in
          match r with
          | Ret _ => Some (InCancel, s')
          | Raise e =>
              if exn_eqb_Cancelled e then Some (InCancel, s')
              else Some (Halted (Raised e), s')
          | Blocked => None
          end
      end
  | Halted o => Some (Halted o, s)
  end.

Fixpoint run (fuel : nat) (c : config) : option (outcome * session) :=
  match fst c with
  | Halted o => Some (o, snd c)
  | _ =>
      match fuel with
      | O => None
      | S fuel' =>
          match step c with
          | Some c' => run fuel' c'
          | None => None
          end
      end
  end.

End Scheduler.

(** What a [for] statement iterates over. *)
Definition iterate (v : json) : exn + list json :=
  match v with
  | JList l => inr l
  | JStr s => inr (chars s)
  | JDict kvs => inr (map (fun kv => JStr (fst kv)) kvs)
  | _ => inl TypeError
  end.

(** One probe task for each record, numbered from [n]. *)
Fixpoint probes (n : nat) (records : list json) : list task :=
  match records with
  | [] => []
  | container :: rest => mkTask n (IsHealthy n container) :: probes (S n) rest
  end.

(** The tasks that exist when the loop is entered (lines 91-97). *)
Definition first_tasks (timeout : option Z) (records : list json)
    : list task :=
  probes 0 records ++
  match timeout with
  | Some z => if truthy_timeout timeout
              then [mkTask (List.length records) (Timeout z)] else []
  | None => []
  end.

Definition start (timeout : option Z) (records : list json)
    (tr : list (origin * event)) : config :=
  (AtWhile,
   mkSession (first_tasks timeout records) false
     (List.length (first_tasks timeout records)) 0 0 [] [] tr).

Definition halt (o : outcome) (tr : list (origin * event))
    : outcome * session :=
  (o, mkSession [] false 0 0 0 [] [] tr).

(** [_check_containers(containers, timeout)], run for at most [fuel] steps;
    [None] when it has not come to an end by then. *)
Definition _check_containers (w : world) (containers : list string)
    (timeout : option Z) (fuel : nat) : option (outcome * session) :=
  let (evs, r) := _inspect_containers w containers in
  let tr := map (fun e => (Main, e)) evs in
  match r with
  | Ret v =>
      match iterate v with
      | inr records => run w timeout fuel (start timeout records tr)
      | inl e => Some (halt (Raised e) tr)
      end
  | Raise e => Some (halt (Raised e) tr)
  | Blocked => None
  end.

(** The exit status that [main] and the interpreter make of it. *)
Definition exit_status (o : outcome) : Z :=
  match o with
  | Returned => 0
  | Raised _ => 1
  end.

(** ** Reading a run of the scheduler *)

(** [n] steps from a configuration. *)
Fixpoint steps (w : world) (timeout : option Z) (n : nat) (c : config)
    : option config :=
  match n with
  | O => Some c
  | S n' =>
      match step w timeout c with
      | Some c' => steps w timeout n' c'
      | None => None
      end
  end.

Definition is_probe (t : task) : bool :=
  match coro t with
  | IsHealthy _ _ => true
  | Timeout _ => false
  end.

(** The containers, as positions in the inspection output, that the probe
    tasks of a list are for. *)
Definition slots (l : list task) : list nat :=
  flat_map
    (fun t => match coro t with
              | IsHealthy slot _ => [slot]
              | Timeout _ => []
              end)
    l.

(** The tasks that exist and whose result has not been taken. *)
Definition live (c : config) : list task :=
  match fst c with
  | InFor done => pending (snd c) ++ done
  | _ => pending (snd c)
  end.

(** A container is resolved when the last verdict taken from a probe of it
    is healthy or not applicable. *)
Definition resolved (rs : list (nat * option bool)) (slot : nat) : bool :=
  match find (fun r => (fst r =? slot)%nat) (rev rs) with
  | Some (_, Some false) => false
  | Some (_, _) => true
  | None => false
  end.

Definition main_events (tr : list (origin * event)) : list event :=
  flat_map (fun oe => match fst oe with Main => [snd oe] | Task _ => [] end) tr.

Definition record_of (records : list json) (t : task) : Prop :=
  match coro t with
  | IsHealthy slot inspect_data => nth_error records slot = Some inspect_data
  | Timeout _ => True
  end.

Definition launchable_task (t : task) : Prop :=
  match coro t with
  | IsHealthy _ inspect_data =>
      exists name id argv, launchable inspect_data name id argv
  | Timeout _ => True
  end.

Section Invariant.

Variable w : world.
Variable timeout : option Z.
Variable records : list json.
Variable tr0 : list (origin * event).

Definition all_resolved (rs : list (nat * option bool)) : Prop :=
  forall slot, slot < List.length records -> resolved rs slot = true.

Definition some_unresolved (rs : list (nat * option bool)) : Prop :=
  exists slot, slot < List.length records /\ resolved rs slot = false.

(** The unresolved containers are those with a live probe task. *)
Definition open (c : config) : Prop :=
  forall slot, slot < List.length records ->
    (resolved (reports (snd c)) slot = false <-> In slot (slots (live c))).

Definition timer_armed (c : config) : Prop :=
  truthy_timeout timeout = true -> timedout (snd c) = false ->
  Exists (fun t => is_probe t = false) (live c).

(** What holds of the live tasks of a run that was entered with one probe
    task for each of [records]: tasks are told apart by their numbers, a
    probe task carries the record of its container, no container has two
    probe tasks, a timer is there only while the timeout has not fired, and
    the main coroutine has done nothing since the inspection. *)
Record core (l : list task) (s : session) : Prop := mkCore {
  core_ids : NoDup (map tid l);
  core_next : Forall (fun t => tid t < next_id s) l;
  core_record : Forall (record_of records) l;
  core_slots : NoDup (slots l);
  core_timer :
    Forall (fun t => is_probe t = false ->
              tid t = List.length records /\ timedout s = false /\
              truthy_timeout timeout = true) l;
  core_main : main_events (trace s) = main_events tr0
}.

(** What holds at each place of the control. *)
Definition stage (c : config) : Prop :=
  match fst c with
  | AtWhile =>
      open c /\ timer_armed c /\
      (timedout (snd c) = true -> pending (snd c) = [])
  | InFor _ =>
      open c /\ timer_armed c /\
      Forall launchable_task (pending (snd c))
  | InCancel =>
      timedout (snd c) = true /\ some_unresolved (reports (snd c)) /\
      Forall launchable_task (pending (snd c))
  | Halted Returned =>
      all_resolved (reports (snd c)) /\ slots (pending (snd c)) = []
  | Halted (Raised _) => some_unresolved (reports (snd c))
  end.

Definition inv (c : config) : Prop := core (live c) (snd c) /\ stage c.

End Invariant.

(** A configuration without a timer, in which no timeout has fired. *)
Definition timerless (c : config) : Prop :=
  Forall (fun t => is_probe t = true) (live c) /\
  timedout (snd c) = false /\
  match fst c with
  | InCancel => False
  | Halted (Raised e) => exn_eqb_Timeout e = false
  | _ => True
  end.

(** Whether a run, if it has come to an end, has not ended with
    [TimeoutError]. *)
Definition no_timeout_failure (r : option (outcome * session)) : bool :=
  match r with
  | Some (Raised e, _) => negb (exn_eqb_Timeout e)
  | _ => true
  end.

(** The same world, but for the exit status of [docker inspect]. *)
Definition with_exit_status (rc : Z) (w : world) : world :=
  mkWorld
    (fun ids => mkInspection rc (inspect_output (docker_inspect w ids)))
    (docker_exec w) (ready w) (progress w).

(** The identifiers of the containers that the probe tasks of a list are
    for, as the probe reads them. *)
Definition identifiers (l : list task) : list (exn + json) :=
  flat_map
    (fun t => match coro t with
              | IsHealthy _ inspect_data => [subscript inspect_data "Id"]
              | Timeout _ => []
              end)
    l.

(** ** The command line: [main] *)

(** What [parse_args] returns.  Without positional arguments
    [args.container] is the default, the empty string, which adds nothing
    to the set of identifiers; it is the empty list here.  [args.timeout]
    is [None] without [-t], and the integer that [int] reads otherwise. *)
Record namespace : Type := mkNamespace {
  args_container : list string;
  args_quiet : bool;
  args_verbose : bool;
  args_timeout : option Z
}.

(** The standard input, whether it is a terminal and what
    [sys.stdin.read().splitlines()] returns, and the order in which a set
    of strings with the given elements is iterated. *)
Record terminal : Type := mkTerminal {
  isatty : bool;
  stdin_lines : list string;
  iteration : list string -> list string
}.

(** How [main] ends: with [sys.exit], or by falling off its end, which is
    status 0, or with an exception that nothing catches. *)
Inductive termination : Type :=
| Exit (status : Z)
| Uncaught (e : exn).


(** The set [containers] of lines 139-142, each element once. *)
Definition collected (t : terminal) (args : namespace) : list string :=
  nodup string_dec
    ((if isatty t then [] else stdin_lines t) ++ args_container args).

Definition no_session : session := mkSession [] false 0 0 0 [] [] [].

(** [main], for at most [fuel] steps of the scheduler, with the session in
    which [_check_containers] ended.  [parser.error] exits with status 2. *)
Definition main (t : terminal) (w : world) (args : namespace) (fuel : nat)
    : option (termination * session) :=
  match collected t args with
  | [] => Some (Exit 2, no_session)
  | _ :: _ =>
      match _check_containers w (iteration t (collected t args))
              (args_timeout args) fuel with
      | Some (Returned, s) => Some (Exit 0, s)
      | Some (Raised e, s) =>
          Some (if exn_eqb_Timeout e then Exit 1 else Uncaught e, s)
      | None => None
      end
  end.

(** ** What is printed *)

Inductive sink : Type := sys_stdout | sys_stderr.

Definition levelno (lv : level) : nat :=
  match lv with
  | DEBUG => 10
  | INFO => 20
  | WARNING => 30
  end.

(** Where the lines of the logger go, and from which level on: to the
    handler that [logging.basicConfig] installs (lines 148-152), or, with
    [--quiet], where none is installed, to the handler of last resort of
    [logging], which writes warnings to the standard error. *)
Definition handler (args : namespace) : sink * level :=
  if args_quiet args then (sys_stderr, WARNING)
  else (sys_stdout, if args_verbose args then DEBUG else INFO).

Definition printed (args : namespace) (evs : list event)
    : list (sink * message) :=
  flat_map
    (fun e => match e with
              | Log lv m =>
                  if (levelno (snd (handler args)) <=? levelno lv)%nat
                  then [(fst (handler args), m)]
                  else []
              | _ => []
              end)
    evs.

(** ** Reading the events of a probe *)

(** A step all of whose events satisfy [P]. *)
Definition emits (P : event -> bool) {A} (m : M A) : Prop :=
  forall f f' r, m f = (f', r) ->
    exists evs, events f' = events f ++ evs /\ forallb P evs = true.

(** A step that does not end with [CancelledError]. *)
Definition placid {A} (m : M A) : Prop :=
  forall f f' r, m f = (f', r) -> r <> Raise CancelledError.

(** An event that is neither the killing of a process nor a warning. *)
Definition peaceful (e : event) : bool :=
  match e with
  | Kill => false
  | Log WARNING _ => false
  | _ => true
  end.

(** The level at which the script logs each of its lines. *)
Definition level_of (m : message) : level :=
  match m with
  | Output _ _ _ _ => DEBUG
  | TimeoutExceeded _ _ => WARNING
  | Checking _ _ | Returncode _ _ _ _ | NoHealthCheck _ _ => INFO
  end.

Definition leveled (e : event) : bool :=
  match e with
  | Log lv m => (levelno lv =? levelno (level_of m))%nat
  | _ => true
  end.




(** ** Reading the reports of a run *)




Definition timers (l : list task) : list task :=
  filter (fun t => negb (is_probe t)) l.

(** A session in which no task has been cancelled, no process killed and
    no warning logged. *)
Definition undisturbed (s : session) : Prop :=
  cancelled s = [] /\ forallb peaceful (map snd (trace s)) = true.

(** What holds of a run up to its first cancellation: nothing is killed
    and no warning logged before a task is cancelled; no task is cancelled,
    and the function is not left with [TimeoutError], before the timeout
    has fired; and the cancellation loop is entered with the timeout fired
    only. *)
Definition orderly (c : config) : Prop :=
  (cancelled (snd c) = [] ->
   forallb peaceful (map snd (trace (snd c))) = true) /\
  (timedout (snd c) = false ->
   cancelled (snd c) = [] /\ fst c <> InCancel /\
   fst c <> Halted (Raised TimeoutError)) /\
  match fst c with
  | InCancel => timedout (snd c) = true
  | Halted (Raised _) => True
  | _ => cancelled (snd c) = []
  end.

(** A list that holds the timer task of a run over [n] records and nothing
    else, or nothing at all. *)
Definition only_timer (n : nat) (armed : bool) (l : list task) : Prop :=
  if armed then exists z, l = [mkTask n (Timeout z)] else l = [].

(** Whether the timer of a session is in flight. *)
Definition armed (timeout : option Z) (s : session) : bool :=
  truthy_timeout timeout && negb (timedout s).


(** ** Reading what is printed *)



(** What the main coroutine does before the loop: the one inspection. *)
Definition inspection_events (container_ids : list string)
    : list (origin * event) :=
  [(Main, Spawn ("docker" :: "inspect" :: container_ids)); (Main, Reaped)].

(** ** Sample containers, processes and schedules *)

Definition with_check (id name : string) (test : list json) : json :=
  JDict [("Id", JStr id); ("Name", JStr name);
         ("Config",
          JDict [("Image", JStr "nginx");
                 ("Healthcheck", JDict [("Test", JList test)])])].

(** A container without a health check. *)
Definition web_plain : json :=
  JDict [("Id", JStr "4f2a"); ("Name", JStr "/web");
         ("Config", JDict [("Image", JStr "nginx")])].

(** The scenario of the shell check [exit 3]. *)
Definition web_exit3 : json :=
  with_check "4f2a" "/web" [JStr "CMD-SHELL"; JStr "exit 3"].

(** A check given as an argument vector. *)
Definition db_ready : json :=
  with_check "9c1e" "/db" [JStr "CMD"; JStr "pg_isready"; JStr "-q"].

(** A check disabled with the kind [NONE]. *)
Definition cache_none : json :=
  with_check "77b0" "/cache" [JStr "NONE"].

(** A process that prints nothing, closes both streams and exits. *)
Definition exits (rc : Z) : proc :=
  mkProc [(stdout, ""); (stderr, "")] (Some rc) false.

(** A process that prints a line and then neither closes nor exits. *)
Definition hangs : proc :=
  mkProc [(stdout, "waiting")] None false.

Definition inspected (records : list json) : inspection :=
  mkInspection 0 (Some (JList records)).

(** [docker inspect] of a name that no container has: it prints the empty
    list and exits with 1. *)
Definition no_such_container : world :=
  mkWorld (fun _ => mkInspection 1 (Some (JList [])))
    (fun _ => exits 0) (fun _ => []) (fun _ => 1).

(** Container A has no check; the check of B exits 1, then 0.  Task 0 is
    the probe of A, task 1 the first probe of B, task 2 the second. *)
Definition second_try : world :=
  mkWorld (fun _ => inspected [web_plain; db_ready])
    (fun n => if (n =? 1)%nat then exits 1 else exits 0)
    (fun n => match n with 1 => [1] | 2 => [2] | _ => [] end)
    (fun _ => 1).

(** One container whose check exits 0, and a timer (task 1) that fires in
    the wait cycle in which the probe (task 0) is done. *)
Definition photo_finish : world :=
  mkWorld (fun _ => inspected [web_exit3])
    (fun _ => exits 0)
    (fun n => match n with 0 => [0; 1] | _ => [] end)
    (fun _ => 1).


(** One container whose check never exits 0; the timer (task 1) fires in
    the third wait cycle, while the second probe (task 2) is running. *)
Definition never_healthy : world :=
  mkWorld (fun _ => inspected [web_exit3])
    (fun _ => exits 1)
    (fun n => match n with 0 => [0] | 1 => [1] | _ => [] end)
    (fun _ => 1).

(** The same, but the second probe is still creating its process when the
    cancellation reaches it. *)
Definition caught_spawning : world :=
  mkWorld (fun _ => inspected [web_exit3])
    (fun _ => exits 1)
    (fun n => match n with 0 => [0] | 1 => [1] | _ => [] end)
    (fun _ => 0).

(** A container with a check of the kind [NONE] beside a healthy one. *)
Definition unsupported_kind : world :=
  mkWorld (fun _ => inspected [db_ready; cache_none])
    (fun _ => exits 0)
    (fun n => match n with 1 => [0] | _ => [] end)
    (fun _ => 1).

Definition nowhere : config := (AtWhile, mkSession [] false 0 0 0 [] [] []).

(** The configuration of a run after [n] steps. *)
Definition after (w : world) (timeout : option Z) (records : list json)
    (n : nat) : config :=
  match steps w timeout n (start timeout records []) with
  | Some c => c
  | None => nowhere
  end.

(** The session in which a run ends. *)
Definition at_end (w : world) (timeout : option Z) (records : list json)
    (fuel : nat) : session :=
  match run w timeout fuel (start timeout records []) with
  | Some (_, s) => s
  | None => snd nowhere
  end.

Definition second_try_end : session :=
  Eval vm_compute in at_end second_try None [web_plain; db_ready] 12.



Definition photo_finish_start : session :=
  Eval vm_compute in snd (start (Some 5%Z) [web_exit3] []).

(** A check that has an interval but no [Test]. *)
Definition interval_only : json :=
  JDict [("Id", JStr "c0de"); ("Name", JStr "/job");
         ("Config",
          JDict [("Healthcheck", JDict [("Interval", JInt 5000000000)])])].

(** A shell check without a command. *)
Definition shell_without_command : json :=
  with_check "c0de" "/job" [JStr "CMD-SHELL"].

(** A check with a number among its arguments. *)
Definition number_argument : json :=
  with_check "c0de" "/job" [JStr "CMD"; JStr "sleep"; JInt 1].

(** A record without a name. *)
Definition nameless : json :=
  JDict [("Id", JStr "c0de"); ("Config", JDict [])].


(** A process that exits while its standard output stays open, as when a
    child of it has inherited the pipe. *)
Definition lingers : proc :=
  mkProc [(stdout, "started"); (stderr, "")] (Some 0%Z) false.

(** One container whose check exits 0 before the timer fires. *)
Definition healthy_in_time : world :=
  mkWorld (fun _ => inspected [web_exit3])
    (fun _ => exits 0)
    (fun n => match n with 0 => [0] | _ => [] end)
    (fun _ => 1).

Definition healthy_in_time_end : session :=
  Eval vm_compute in at_end healthy_in_time (Some 5%Z) [web_exit3] 12.

(** The run of [never_healthy] when it comes back to the [while] for the
    first time. *)
Definition never_healthy_early : config :=
  Eval vm_compute in after never_healthy (Some 1%Z) [web_exit3] 3.

(** A record without a name beside a container whose check takes its
    time. *)
Definition nameless_beside : world :=
  mkWorld (fun _ => inspected [db_ready; nameless])
    (fun _ => exits 0) (fun _ => []) (fun _ => 1).

(** A terminal at which nothing is piped in. *)
Definition desk : terminal := mkTerminal true ["ignored"] (fun l => l).

(** Identifiers piped in, one of them twice and one of them also given as
    an argument; the set is iterated from its last element. *)
Definition piped : terminal :=
  mkTerminal false ["web"; "db"; "web"] (fun l => rev l).

Definition plainly (containers : list string) (timeout : option Z)
    : namespace :=
  mkNamespace containers false false timeout.

Definition quietly (containers : list string) (timeout : option Z)
    : namespace :=
  mkNamespace containers true false timeout.

(** How [main] ended, for a run that did. *)
Definition ended (r : option (termination * session))
    : termination * session :=
  match r with
  | Some xs => xs
  | None => (Exit 2, no_session)
  end.


Definition piped_main : termination * session :=
  Eval vm_compute in ended (main piped second_try (plainly ["db"] None) 12).

Definition never_healthy_quietly : termination * session :=
  Eval vm_compute in
    ended (main desk never_healthy (quietly ["web"] (Some 1%Z)) 12).

(** The run of [caught_spawning] when it enters the cancellation loop. *)
Definition caught_spawning_cancel : config :=
  Eval vm_compute in after caught_spawning (Some 1%Z) [web_exit3] 6.

(** Two containers without a health check, and a timer that does not
    fire. *)
Definition unchecked : world :=
  mkWorld (fun _ => inspected [web_plain; web_plain])
    (fun _ => hangs) (fun _ => []) (fun _ => 1).
(** * Properties *)

(** ** Steps of the probe *)

Ltac run_lift H := unfold bind at 1; rewrite H; cbn [lift ret raise].
Ltac run_emit :=
  unfold bind at 1; try unfold log at 1; unfold emit at 1;
  cbn [process awaited delivered events].

Lemma frame_eta f :
  mkFrame (process f) (awaited f) (delivered f) (events f) = f.
Proof. now destruct f. Qed.

(** A probe that raises [e] in its first step, having done nothing. *)
Ltac immediate_raise e :=
  right; intros env f; exists [], (Raise e);
  rewrite app_nil_r, frame_eta.


(** Evaluation of the scheduler on a session given by its fields. *)
Ltac go :=
  cbn [run fst snd step pending timedout next_id waits started reports
       cancelled trace app tagged map exn_eqb_Timeout exn_eqb_Cancelled
       List.length].

(** The end of a run that was evaluated with [go]. *)
Ltac ends :=
  eexists; split; [reflexivity | ]; go; rewrite !app_nil_r; now repeat split.


Lemma spawned_app evs evs' :
  spawned (evs ++ evs') = spawned evs ++ spawned evs'.
Proof. unfold spawned. now rewrite flat_map_app. Qed.

Lemma spawned_silent evs e :
  silent e = true -> spawned (evs ++ [e]) = spawned evs.
Proof.
  intros H. rewrite spawned_app. destruct e; try discriminate; simpl.
  all: now rewrite app_nil_r.
Qed.

Lemma signal_cancelled e : signal e = false -> exn_eqb_Cancelled e = false.
Proof. unfold signal. now intros [H _]%orb_false_iff. Qed.

Lemma signal_timeout e : signal e = false -> exn_eqb_Timeout e = false.
Proof. unfold signal. now intros [_ H]%orb_false_iff. Qed.

Lemma honest_stay A (r : res A) :
  r <> Raise CancelledError ->
  (forall e, r = Raise e -> exn_eqb_Timeout e = false) ->
  forall f, delivered f = false ->
    (delivered f = true <-> r = Raise CancelledError) /\
    (forall e, r = Raise e -> exn_eqb_Timeout e = false).
Proof.
  intros Hr Ht f Hf. split; [ | exact Ht]. rewrite Hf. split; [discriminate | ].
  intros E. now destruct Hr.
Qed.

Lemma honest_ret A (a : A) : honest (ret a).
Proof.
  intros f f' r [= <- <-]. apply honest_stay; discriminate.
Qed.

Lemma honest_block A : honest (@block A).
Proof.
  intros f f' r [= <- <-]. apply honest_stay; discriminate.
Qed.

Lemma honest_raise A e : signal e = false -> honest (@raise A e).
Proof.
  intros He f f' r [= <- <-]. apply honest_stay.
  - intros [= ->]. discriminate.
  - intros e' [= <-]. now apply signal_timeout.
Qed.

Lemma honest_emit e : honest (emit e).
Proof.
  intros f f' r [= <- <-] Hf. cbn [delivered].
  now apply (honest_stay unit (Ret tt)).
Qed.

Lemma honest_set_process : honest set_process.
Proof.
  intros f f' r [= <- <-] Hf. cbn [delivered].
  now apply (honest_stay unit (Ret tt)).
Qed.

Lemma honest_undelivered A (m : M A) f f' r :
  honest m -> m f = (f', r) -> delivered f = false ->
  r <> Raise CancelledError -> delivered f' = false.
Proof.
  intros Hm E Hf Hr. destruct (delivered f') eqn:D; [ | reflexivity].
  destruct Hr. now apply (Hm _ _ _ E Hf).
Qed.

Lemma honest_bind A B (m : M A) (k : A -> M B) :
  honest m -> (forall a, honest (k a)) -> honest (bind m k).
Proof.
  intros Hm Hk f f' r. unfold bind.
  destruct (m f) as [f1 [a | e | ]] eqn:E.
  - intros H Hf. apply (Hk a _ _ _ H).
    apply (honest_undelivered _ _ _ _ _ Hm E Hf). discriminate.
  - intros [= <- <-] Hf. destruct (Hm _ _ _ E Hf) as [Hc Ht]. split.
    + rewrite Hc. split; [intros [= ->] | intros [= ->]]; reflexivity.
    + intros e' [= <-]. now apply Ht.
  - intros [= <- <-] Hf. destruct (Hm _ _ _ E Hf) as [Hc Ht]. split.
    + rewrite Hc. split; discriminate.
    + discriminate.
Qed.

Lemma honest_lift A (r : exn + A) :
  (forall e, r = inl e -> signal e = false) -> honest (lift r).
Proof.
  intros Hr. destruct r as [e | a]; cbn [lift].
  - apply honest_raise. now apply Hr.
  - apply honest_ret.
Qed.

Lemma suspend_cases env ready f :
  suspend env ready f =
    (mkFrame (process f) (awaited f) true (events f), Raise CancelledError) \/
  ready = true /\
  suspend env ready f =
    (mkFrame (process f) (S (awaited f)) (delivered f) (events f), Ret tt) \/
  ready = false /\ suspend env ready f = (f, Blocked).
Proof.
  unfold suspend. destruct (cancel env) as [ | k].
  - destruct ready; [right; left | right; right]; now split.
  - destruct (negb (delivered f) && _); [now left | ].
    destruct ready; [right; left | right; right]; now split.
Qed.

Lemma honest_suspend env ready : honest (suspend env ready).
Proof.
  intros f f' r H Hf.
  destruct (suspend_cases env ready f) as [E | [[_ E] | [_ E]]];
    rewrite E in H; injection H as <- <-; cbn [delivered].
  - split; [split; reflexivity | intros e [= <-]; reflexivity].
  - now apply (honest_stay unit (Ret tt)).
  - now apply (honest_stay unit Blocked).
Qed.

Lemma quiet_ret A (a : A) : quiet (ret a).
Proof.
  split; [ | | | apply honest_ret]; unfold ret; intros f f' r;
    intros [= <-]; try reflexivity.
Qed.

Lemma quiet_block A : quiet (@block A).
Proof.
  split; [ | | | apply honest_block]; unfold block; intros f f' r;
    intros [= <-]; try reflexivity.
Qed.

Lemma quiet_emit e : silent e = true -> quiet (emit e).
Proof.
  intros He.
  split; [ | | | apply honest_emit]; unfold emit; intros f f' r;
    intros [= <-]; cbn [events process]; try reflexivity.
  now apply spawned_silent.
Qed.

Lemma quiet_suspend env ready : quiet (suspend env ready).
Proof.
  split; [ | | | apply honest_suspend]; unfold suspend; intros f f' r;
    destruct (cancel env) as [ | k];
    try destruct (negb (delivered f) && _);
    destruct ready; intros [= <-]; subst; reflexivity.
Qed.

Lemma quiet_bind A B (m : M A) (k : A -> M B) :
  quiet m -> (forall a, quiet (k a)) -> quiet (bind m k).
Proof.
  intros [ms mp mr mh] Hk.
  split; [ | | | apply honest_bind; [exact mh | intros; apply Hk]];
    unfold bind; intros f f' r; destruct (m f) as [f1 [a | e | ]] eqn:Hm.
  - intros H. rewrite (quiet_spawned _ (Hk a) _ _ _ H). eauto.
  - intros [= <- <-]. eauto.
  - intros [= <- <-]. eauto.
  - intros H. rewrite (quiet_process _ (Hk a) _ _ _ H). eauto.
  - intros [= <- <-]. eauto.
  - intros [= <- <-]. eauto.
  - intros H. apply (quiet_raises _ (Hk a) _ _ _ H).
  - intros [= <- <-]. eauto.
  - discriminate.
Qed.

Lemma quiet_drain env name id rs : forall pending,
  quiet (drain env name id pending rs).
Proof.
  induction rs as [ | [s line] rs IH]; intros [ | p pending]; cbn [drain].
  - apply quiet_ret.
  - apply quiet_bind; [apply quiet_suspend | intros; apply quiet_block].
  - apply quiet_ret.
  - destruct (mem_stream s (p :: pending)); [ | apply IH].
    apply quiet_bind; [apply quiet_suspend | intros _].
    destruct (negb (line =? "")); [ | apply IH].
    apply quiet_bind; [now apply quiet_emit | intros; apply IH].
Qed.

Lemma quiet_process_wait env : quiet (process_wait env).
Proof.
  unfold process_wait. destruct (returncode (behaviour env)).
  - apply quiet_bind; [apply quiet_suspend | intros _].
    apply quiet_bind; [now apply quiet_emit | intros; apply quiet_ret].
  - apply quiet_bind; [apply quiet_suspend | intros; apply quiet_block].
Qed.

Lemma quiet_drain_and_wait env name id : quiet (drain_and_wait env name id).
Proof.
  apply quiet_bind; [apply quiet_drain | intros; apply quiet_process_wait].
Qed.



(** ** Requested cancellations are always delivered *)

Section Responsive.

Variable env : penv.
Variable k : nat.
Hypothesis requested : cancel env = CancelAfter k.

Lemma responsive_suspend ready : responsive env (suspend env ready).
Proof.
  intros f f' Hf. unfold suspend. rewrite requested, Hf. cbn [negb andb].
  destruct ready; cbn [negb]; [ | rewrite orb_true_r; discriminate].
  destruct (_ || _); discriminate.
Qed.

Lemma responsive_ret A (a : A) : responsive env (ret a).
Proof. intros f f' _. discriminate. Qed.

Lemma responsive_emit e : responsive env (emit e).
Proof. intros f f' _. discriminate. Qed.

Lemma responsive_bind A B (m : M A) (c : A -> M B) :
  honest m -> responsive env m -> (forall a, responsive env (c a)) ->
  responsive env (bind m c).
Proof.
  intros Hh Hm Hc f f' Hf. unfold bind.
  destruct (m f) as [f1 [a | e | ]] eqn:E.
  - apply Hc. apply (honest_undelivered _ _ _ _ _ Hh E Hf). discriminate.
  - discriminate.
  - destruct (Hm _ _ Hf E).
Qed.

Lemma responsive_drain name id rs : forall pending,
  responsive env (drain env name id pending rs).
Proof.
  induction rs as [ | [s line] rs IH]; intros [ | p pending]; cbn [drain].
  - apply responsive_ret.
  - intros f f' Hf. unfold bind.
    destruct (suspend env false f) as [f1 [[] | e | ]] eqn:E; try discriminate.
    + unfold suspend in E. rewrite requested, Hf in E.
      cbn [negb andb] in E. rewrite orb_true_r in E. discriminate.
    + destruct (responsive_suspend false _ _ Hf E).
  - apply responsive_ret.
  - destruct (mem_stream s (p :: pending)); [ | apply IH].
    apply responsive_bind;
      [apply honest_suspend | apply responsive_suspend | intros _].
    destruct (negb (line =? "")); [ | apply IH].
    apply responsive_bind;
      [apply honest_emit | apply responsive_emit | intros; apply IH].
Qed.

Lemma responsive_process_wait : responsive env (process_wait env).
Proof.
  unfold process_wait. destruct (returncode (behaviour env)).
  - apply responsive_bind;
      [apply honest_suspend | apply responsive_suspend | intros _].
    apply responsive_bind;
      [apply honest_emit | apply responsive_emit | intros].
    apply responsive_ret.
  - intros f f' Hf. unfold bind.
    destruct (suspend env false f) as [f1 [[] | e | ]] eqn:E; try discriminate.
    + unfold suspend in E. rewrite requested, Hf in E.
      cbn [negb andb] in E. rewrite orb_true_r in E. discriminate.
    + destruct (responsive_suspend false _ _ Hf E).
Qed.

Lemma responsive_drain_and_wait name id :
  responsive env (drain_and_wait env name id).
Proof.
  apply responsive_bind.
  - apply quiet_honest, quiet_drain.
  - apply responsive_drain.
  - intros _. apply responsive_process_wait.
Qed.

End Responsive.

(** ** The probe, block by block *)

Lemma subscript_no_signal v k e : subscript v k = inl e -> signal e = false.
Proof.
  destruct v; cbn; try (intros [= <-]; reflexivity).
  destruct (assoc k kvs); intros [= <-]; reflexivity.
Qed.

Lemma dict_get_no_signal v k e : dict_get v k = inl e -> signal e = false.
Proof.
  destruct v; cbn; try (intros [= <-]; reflexivity).
  destruct (assoc k kvs); intros [= <-].
Qed.

Lemma index0_no_signal v e : index0 v = inl e -> signal e = false.
Proof.
  destruct v as [ | | | [ | ] | [ | ] | ]; cbn; intros [= <-]; reflexivity.
Qed.

Lemma slice1_no_signal v e : slice1 v = inl e -> signal e = false.
Proof.
  destruct v as [ | | | [ | ] | | ]; cbn; intros [= <-]; reflexivity.
Qed.

Lemma unpack_no_signal v e : unpack v = inl e -> signal e = false.
Proof. destruct v; cbn; intros [= <-]; reflexivity. Qed.

Lemma as_argv_TypeError args e : as_argv args = inl e -> e = TypeError.
Proof.
  induction args as [ | a args IH]; cbn; [discriminate | ].
  destruct a; try (intros [= <-]; reflexivity).
  destruct (as_argv args); [ | discriminate].
  intros [= <-]. now apply IH.
Qed.

Lemma as_argv_strings (l : list string) : as_argv (map JStr l) = inr l.
Proof. induction l as [ | s l IH]; simpl; [ | rewrite IH]; reflexivity. Qed.

Lemma no_healthcheck_result
    env inspect_data container_id container_name config healthcheck f :
  subscript inspect_data "Id" = inr container_id ->
  subscript inspect_data "Name" = inr container_name ->
  subscript inspect_data "Config" = inr config ->
  dict_get config "Healthcheck" = inr healthcheck ->
  truthy healthcheck = false ->
  _is_healthy env inspect_data f =
    (mkFrame (process f) (awaited f) (delivered f)
       (events f ++ [Log INFO (NoHealthCheck container_name container_id)]),
     Ret (inspect_data, None)).
Proof.
  intros HId HName HConfig HGet HFalsy. unfold _is_healthy.
  run_lift HId. run_lift HName. run_lift HConfig. run_lift HGet.
  rewrite HFalsy. run_emit. reflexivity.
Qed.

(** With a health check configured and a non-empty [Test], the probe is
    its [try] statement followed by the report. *)
Lemma is_healthy_configured
    env inspect_data container_id container_name config healthcheck test
    hc_type hc_args f :
  subscript inspect_data "Id" = inr container_id ->
  subscript inspect_data "Name" = inr container_name ->
  subscript inspect_data "Config" = inr config ->
  dict_get config "Healthcheck" = inr healthcheck ->
  truthy healthcheck = true ->
  subscript healthcheck "Test" = inr test ->
  index0 test = inr hc_type ->
  slice1 test = inr hc_args ->
  _is_healthy env inspect_data f =
    try_statement env inspect_data container_name container_id
      (try_body env container_name container_id hc_type hc_args)
      (checking container_name container_id f).
Proof.
  intros HId HName HConfig HGet HTruthy HTest HType HArgs.
  unfold _is_healthy.
  run_lift HId. run_lift HName. run_lift HConfig. run_lift HGet.
  rewrite HTruthy. run_emit. run_lift HTest. run_lift HType. run_lift HArgs.
  reflexivity.
Qed.

(** Starting a process: the arguments are rejected, or the process is
    started and the coroutine either resumes or is cancelled with the child
    killed and reaped. *)
Lemma create_subprocess_exec_cases env args f :
  (exists e, as_argv args = inl e /\
     create_subprocess_exec env args f = (f, Raise TypeError)) \/
  (exists argv, as_argv args = inr argv /\
     (create_subprocess_exec env args f =
        (mkFrame (process f) (S (awaited f)) (delivered f)
           (events f ++ [Spawn argv]), Ret tt) \/
      delivered f = false /\
      create_subprocess_exec env args f =
        (mkFrame (process f) (awaited f) true
           (((events f ++ [Spawn argv]) ++ [Kill]) ++ [Reaped]),
         Raise CancelledError))).
Proof.
  unfold create_subprocess_exec.
  destruct (as_argv args) as [e | argv] eqn:E.
  - left. exists e. split; [reflexivity | ].
    rewrite (as_argv_TypeError _ _ E). reflexivity.
  - right. exists argv. split; [reflexivity | ].
    unfold bind, try_except, suspend, emit, lift, ret, raise.
    cbn [process awaited delivered events exn_eqb_Cancelled].
    destruct (cancel env) as [ | k]; [now left | ].
    destruct (delivered f) eqn:D; cbn [negb andb orb].
    + left. reflexivity.
    + destruct (k <=? awaited f)%nat;
        cbn [orb exn_eqb_Cancelled process awaited delivered events].
      * right. split; reflexivity.
      * left. reflexivity.
Qed.

(** Where the cancellation request decides between the two. *)
Lemma create_subprocess_exec_resumes env args argv f :
  as_argv args = inr argv ->
  delivered f = false ->
  match cancel env with
  | NoCancel => True
  | CancelAfter k => (awaited f < k)%nat
  end ->
  create_subprocess_exec env args f =
    (mkFrame (process f) (S (awaited f)) false (events f ++ [Spawn argv]),
     Ret tt).
Proof.
  intros Hargs Hf Hk. unfold create_subprocess_exec.
  run_lift Hargs. run_emit. unfold try_except, suspend.
  cbn [process awaited delivered events]. rewrite Hf.
  destruct (cancel env) as [ | k]; [reflexivity | ].
  apply Nat.leb_gt in Hk. rewrite Hk. reflexivity.
Qed.

Lemma create_subprocess_exec_cancelled env args argv k f :
  as_argv args = inr argv ->
  delivered f = false ->
  cancel env = CancelAfter k -> (k <= awaited f)%nat ->
  create_subprocess_exec env args f =
    (mkFrame (process f) (awaited f) true
       (((events f ++ [Spawn argv]) ++ [Kill]) ++ [Reaped]),
     Raise CancelledError).
Proof.
  intros Hargs Hf Hc Hk. unfold create_subprocess_exec.
  run_lift Hargs. run_emit. unfold try_except, suspend.
  cbn [process awaited delivered events]. rewrite Hf, Hc.
  apply Nat.leb_le in Hk. rewrite Hk. reflexivity.
Qed.

Lemma honest_create_subprocess_exec env args :
  honest (create_subprocess_exec env args).
Proof.
  intros f f' r H Hf.
  destruct (create_subprocess_exec_cases env args f)
    as [(e & _ & E) | (argv & _ & [E | [_ E]])];
    rewrite E in H; injection H as <- <-; cbn [delivered].
  - apply honest_stay; [discriminate | | exact Hf].
    intros e' [= <-]. reflexivity.
  - now apply (honest_stay unit (Ret tt)).
  - split; [split; reflexivity | intros e [= <-]; reflexivity].
Qed.

Lemma honest_dispatch env container_id hc_type hc_args :
  honest (dispatch env container_id hc_type hc_args).
Proof.
  unfold dispatch.
  destruct (str_eq hc_type "CMD-SHELL"); [ | destruct (str_eq hc_type "CMD")].
  - apply honest_bind; [apply honest_lift, index0_no_signal | intros arg].
    apply honest_bind; [apply honest_create_subprocess_exec | intros _].
    apply honest_set_process.
  - apply honest_bind; [apply honest_lift, unpack_no_signal | intros args].
    apply honest_bind; [apply honest_create_subprocess_exec | intros _].
    apply honest_set_process.
  - apply honest_raise. reflexivity.
Qed.

Lemma honest_try_body env name id hc_type hc_args :
  honest (try_body env name id hc_type hc_args).
Proof.
  unfold try_body.
  apply honest_bind; [apply honest_dispatch | intros _].
  apply quiet_honest, quiet_drain_and_wait.
Qed.

(** The handler of the [try]: with the process bound it kills it unless it
    is gone, waits for it and raises [CancelledError] again; with [process]
    unbound the call of [kill] fails. *)
Lemma on_cancelled_run env name id f :
  delivered f = true ->
  on_cancelled env name id f =
    if process f then
      (mkFrame true (S (awaited f)) true
         ((events f ++ [Log WARNING (TimeoutExceeded name id)])
            ++ cleanup (behaviour env)),
       Raise CancelledError)
    else
      (mkFrame false (awaited f) true
         (events f ++ [Log WARNING (TimeoutExceeded name id)]),
       Raise (UnboundLocalError "process")).
Proof.
  intros Hd. unfold on_cancelled. run_emit.
  unfold bind at 1, try_except, process_kill, cleanup.
  cbn [process awaited delivered events].
  destruct (process f) eqn:P.
  - destruct (gone (behaviour env)); cbn [exn_eqb_ProcessLookup ret emit];
      unfold process_wait_killed, bind, suspend, emit, raise;
      cbn [process awaited delivered events]; rewrite Hd;
      destruct (cancel env); cbn [negb andb process awaited delivered events];
      try reflexivity; rewrite <- app_assoc; reflexivity.
  - cbn [exn_eqb_ProcessLookup]. rewrite Hd. reflexivity.
Qed.

(** The [try] statement around a body that is honest: the handler runs
    exactly when the cancellation was thrown into the body. *)
Lemma try_statement_cases env inspect_data name id (body : M Z) f :
  honest body -> delivered f = false ->
  let f2 := fst (body f) in
  match snd (body f) with
  | Ret rc =>
      delivered f2 = false /\
      try_statement env inspect_data name id body f =
        (mkFrame (process f2) (awaited f2) false
           (events f2 ++ [Log INFO (Returncode name id rc (rc =? 0)%Z)]),
         Ret (inspect_data, Some (rc =? 0)%Z))
  | Raise e =>
      if delivered f2 then
        e = CancelledError /\
        try_statement env inspect_data name id body f =
          (fst (on_cancelled env name id f2),
           match snd (on_cancelled env name id f2) with
           | Raise e' => Raise e'
           | _ => Blocked
           end)
      else
        signal e = false /\
        try_statement env inspect_data name id body f = (f2, Raise e)
  | Blocked =>
      delivered f2 = false /\
      try_statement env inspect_data name id body f = (f2, Blocked)
  end.
Proof.
  intros Hb Hf. unfold try_statement, bind, try_except.
  destruct (body f) as [f2 r] eqn:E. cbn [fst snd].
  destruct (Hb _ _ _ E Hf) as [Hc Ht].
  destruct r as [rc | e | ].
  - assert (D : delivered f2 = false).
    { destruct (delivered f2); [ | reflexivity].
      now destruct Hc as [Hc _]; specialize (Hc eq_refl). }
    split; [exact D | ]. unfold report. run_emit. rewrite D. reflexivity.
  - destruct (delivered f2) eqn:D.
    + destruct Hc as [Hc _]. specialize (Hc eq_refl). injection Hc as ->.
      split; [reflexivity | ]. cbn [exn_eqb_Cancelled].
      rewrite (on_cancelled_run env name id f2 D).
      destruct (process f2); reflexivity.
    + assert (N : exn_eqb_Cancelled e = false).
      { destruct e; try reflexivity.
        destruct Hc as [_ Hc]. now specialize (Hc eq_refl). }
      rewrite N. split; [ | reflexivity].
      unfold signal. rewrite N. cbn [orb]. now apply Ht.
  - assert (D : delivered f2 = false).
    { destruct (delivered f2); [ | reflexivity].
      now destruct Hc as [Hc _]; specialize (Hc eq_refl). }
    split; [exact D | reflexivity].
Qed.

(** Every record either lets the probe start a process or ends it in its
    first step. *)
Lemma is_healthy_shape inspect_data :
  (exists name id argv, launchable inspect_data name id argv) \/
  immediate inspect_data.
Proof.
  destruct (subscript inspect_data "Id") as [e | container_id] eqn:HId.
  { immediate_raise e.
    split; [ | split; [reflexivity | split; [reflexivity | right; exists e]]].
    - unfold _is_healthy. run_lift HId. reflexivity.
    - split; [reflexivity | ]. now apply subscript_no_signal in HId. }
  destruct (subscript inspect_data "Name") as [e | container_name] eqn:HName.
  { immediate_raise e.
    split; [ | split; [reflexivity | split; [reflexivity | right; exists e]]].
    - unfold _is_healthy. run_lift HId. run_lift HName. reflexivity.
    - split; [reflexivity | ]. now apply subscript_no_signal in HName. }
  destruct (subscript inspect_data "Config") as [e | config] eqn:HConfig.
  { immediate_raise e.
    split; [ | split; [reflexivity | split; [reflexivity | right; exists e]]].
    - unfold _is_healthy. run_lift HId. run_lift HName. run_lift HConfig.
      reflexivity.
    - split; [reflexivity | ]. now apply subscript_no_signal in HConfig. }
  destruct (dict_get config "Healthcheck") as [e | healthcheck] eqn:HGet.
  { immediate_raise e.
    split; [ | split; [reflexivity | split; [reflexivity | right; exists e]]].
    - unfold _is_healthy. run_lift HId. run_lift HName. run_lift HConfig.
      run_lift HGet. reflexivity.
    - split; [reflexivity | ]. now apply dict_get_no_signal in HGet. }
  destruct (truthy healthcheck) eqn:HTruthy.
  2:{ right. intros env f.
      exists [Log INFO (NoHealthCheck container_name container_id)],
        (Ret (inspect_data, None)).
      split; [ | split; [reflexivity | split; [reflexivity | now left]]].
      now apply (no_healthcheck_result env inspect_data container_id
                   container_name config healthcheck f). }
  set (hello := Log INFO (Checking container_name container_id)).
  destruct (subscript healthcheck "Test") as [e | test] eqn:HTest.
  { right. intros env f. exists [hello], (Raise e).
    split; [ | split; [reflexivity | split; [reflexivity | right; exists e]]].
    - unfold _is_healthy. run_lift HId. run_lift HName. run_lift HConfig.
      run_lift HGet. rewrite HTruthy. run_emit. run_lift HTest. reflexivity.
    - split; [reflexivity | ]. now apply subscript_no_signal in HTest. }
  destruct (index0 test) as [e | hc_type] eqn:HType.
  { right. intros env f. exists [hello], (Raise e).
    split; [ | split; [reflexivity | split; [reflexivity | right; exists e]]].
    - unfold _is_healthy. run_lift HId. run_lift HName. run_lift HConfig.
      run_lift HGet. rewrite HTruthy. run_emit. run_lift HTest.
      run_lift HType. reflexivity.
    - split; [reflexivity | ]. now apply index0_no_signal in HType. }
  destruct (slice1 test) as [e | hc_args] eqn:HArgs.
  { right. intros env f. exists [hello], (Raise e).
    split; [ | split; [reflexivity | split; [reflexivity | right; exists e]]].
    - unfold _is_healthy. run_lift HId. run_lift HName. run_lift HConfig.
      run_lift HGet. rewrite HTruthy. run_emit. run_lift HTest.
      run_lift HType. run_lift HArgs. reflexivity.
    - split; [reflexivity | ]. now apply slice1_no_signal in HArgs. }
  pose proof (fun env f => is_healthy_configured env inspect_data container_id
    container_name config healthcheck test hc_type hc_args f
    HId HName HConfig HGet HTruthy HTest HType HArgs) as Hconf.
  assert (Hfail : forall e, signal e = false ->
    (forall env f,
       dispatch env container_id hc_type hc_args f = (f, Raise e)) ->
    immediate inspect_data).
  { intros e He Hd env f. exists [hello], (Raise e).
    split; [ | split; [reflexivity | split; [reflexivity | right]]];
      [ | exists e; now split].
    rewrite Hconf. unfold try_statement, try_body, try_except.
    unfold bind at 1. unfold bind at 1. rewrite Hd.
    rewrite (signal_cancelled _ He). reflexivity. }
  assert (Hexec : forall exec,
    (forall env f, dispatch env container_id hc_type hc_args f =
       (create_subprocess_exec env exec ;; set_process) f) ->
    (exists name id argv, launchable inspect_data name id argv) \/
    immediate inspect_data).
  { intros exec Hd. destruct (as_argv exec) as [e | argv] eqn:Hargv.
    - right. apply (Hfail TypeError eq_refl). intros env f. rewrite Hd.
      unfold bind at 1.
      destruct (create_subprocess_exec_cases env exec f)
        as [(e' & _ & E) | (argv & E & _)]; [now rewrite E | congruence].
    - left. exists container_name, container_id, argv.
      now apply (Launches _ _ _ _ hc_type hc_args exec). }
  unfold dispatch in Hfail, Hexec.
  destruct (str_eq hc_type "CMD-SHELL");
    [ | destruct (str_eq hc_type "CMD")].
  - destruct (index0 hc_args) as [e | arg] eqn:HArg.
    + right. apply (Hfail e); [now apply index0_no_signal in HArg | ].
      reflexivity.
    + apply (Hexec [JStr "docker"; JStr "exec"; container_id;
                    JStr "/bin/sh"; JStr "-c"; arg]). reflexivity.
  - destruct (unpack hc_args) as [e | args] eqn:HUn.
    + right. apply (Hfail e); [now apply unpack_no_signal in HUn | ].
      reflexivity.
    + apply (Hexec (JStr "docker" :: JStr "exec" :: container_id :: args)).
      reflexivity.
  - right. apply (Hfail (NotImplementedError hc_type)); reflexivity.
Qed.

(** ** A probe that starts its process *)

Lemma runnable_launchable
    inspect_data container_id container_name config healthcheck test argv :
  subscript inspect_data "Id" = inr (JStr container_id) ->
  subscript inspect_data "Name" = inr container_name ->
  subscript inspect_data "Config" = inr config ->
  dict_get config "Healthcheck" = inr healthcheck ->
  truthy healthcheck = true ->
  subscript healthcheck "Test" = inr test ->
  runnable container_id test argv ->
  launchable inspect_data container_name (JStr container_id) argv.
Proof.
  intros HId HName HConfig HGet HTruthy HTest HRun.
  destruct HRun as [cmd rest | args].
  - apply (Launches _ _ _ _ (JStr "CMD-SHELL") (JList (JStr cmd :: rest))
             [JStr "docker"; JStr "exec"; JStr container_id;
              JStr "/bin/sh"; JStr "-c"; JStr cmd]).
    + intros env f.
      eapply is_healthy_configured;
        [exact HId | exact HName | exact HConfig | exact HGet | exact HTruthy
        | exact HTest | reflexivity | reflexivity].
    + reflexivity.
    + reflexivity.
  - apply (Launches _ _ _ _ (JStr "CMD") (JList (map JStr args))
             (JStr "docker" :: JStr "exec" :: JStr container_id
                :: map JStr args)).
    + intros env f.
      eapply is_healthy_configured;
        [exact HId | exact HName | exact HConfig | exact HGet | exact HTruthy
        | exact HTest | reflexivity | reflexivity].
    + reflexivity.
    + cbn [as_argv]. now rewrite as_argv_strings.
Qed.

(** Unless the cancellation arrives while the process is being created, the
    probe goes on from [launched] with the rest of its [try] body. *)
Lemma launch_resumes env inspect_data name id argv :
  launchable inspect_data name id argv ->
  match cancel env with
  | NoCancel => True
  | CancelAfter k => (0 < k)%nat
  end ->
  _is_healthy env inspect_data frame0 =
    try_statement env inspect_data name id (drain_and_wait env name id)
      (launched name id argv).
Proof.
  intros [hc_type hc_args exec Hconf Hdisp Hargv] Hk.
  rewrite Hconf. unfold try_statement, try_body.
  unfold bind at 1. unfold try_except at 1. unfold bind at 1.
  rewrite Hdisp. unfold bind at 1.
  rewrite (create_subprocess_exec_resumes env exec argv
             (checking name id frame0) Hargv eq_refl Hk).
  reflexivity.
Qed.

(** A cancellation that arrives while the process is being created: asyncio
    kills and reaps the child, and the handler of the probe, which finds
    [process] unbound, fails. *)
Lemma launch_cancelled env inspect_data name id argv :
  launchable inspect_data name id argv ->
  cancel env = CancelAfter 0 ->
  _is_healthy env inspect_data frame0 =
    (mkFrame false 0 true
       [Log INFO (Checking name id); Spawn argv; Kill; Reaped;
        Log WARNING (TimeoutExceeded name id)],
     Raise (UnboundLocalError "process")).
Proof.
  intros [hc_type hc_args exec Hconf Hdisp Hargv] Hc.
  rewrite Hconf. unfold try_statement, try_body.
  unfold bind at 1. unfold try_except at 1. unfold bind at 1.
  rewrite Hdisp. unfold bind at 1.
  rewrite (create_subprocess_exec_cancelled env exec argv 0
             (checking name id frame0) Hargv eq_refl Hc (Nat.le_0_l _)).
  cbn [exn_eqb_Cancelled]. rewrite on_cancelled_run by reflexivity.
  reflexivity.
Qed.

Lemma drain_and_wait_returncode env name id f f' rc :
  drain_and_wait env name id f = (f', Ret rc) ->
  returncode (behaviour env) = Some rc.
Proof.
  unfold drain_and_wait, bind.
  destruct (drain env name id _ _ f) as [f1 [[] | e | ]]; try discriminate.
  unfold process_wait. destruct (returncode (behaviour env)) as [rc0 | ].
  - unfold bind. destruct (suspend env true f1) as [f2 [[] | e | ]];
      try discriminate.
    unfold emit, ret. now intros [= _ ->].
  - unfold bind. destruct (suspend env false f1) as [f2 [[] | e | ]];
      discriminate.
Qed.

(** What becomes of a probe whose process runs. *)
Lemma launched_outcome env inspect_data name id argv :
  let R := try_statement env inspect_data name id (drain_and_wait env name id)
             (launched name id argv) in
  process (fst R) = true /\
  spawned (events (fst R)) = [argv] /\
  match snd R with
  | Ret (d, h) =>
      d = inspect_data /\ delivered (fst R) = false /\
      exists rc, returncode (behaviour env) = Some rc /\ h = Some (rc =? 0)%Z
  | Raise e =>
      e = CancelledError /\ delivered (fst R) = true /\
      exists pre, events (fst R) =
        pre ++ Log WARNING (TimeoutExceeded name id) :: cleanup (behaviour env)
  | Blocked => cancel env = NoCancel /\ delivered (fst R) = false
  end.
Proof.
  intros R.
  pose proof (try_statement_cases env inspect_data name id
                (drain_and_wait env name id) (launched name id argv)
                (quiet_honest _ (quiet_drain_and_wait env name id)) eq_refl)
    as H.
  cbv zeta in H.
  destruct (drain_and_wait env name id (launched name id argv))
    as [f3 r3] eqn:E.
  pose proof (quiet_process _ (quiet_drain_and_wait env name id) _ _ _ E) as P.
  pose proof (quiet_spawned _ (quiet_drain_and_wait env name id) _ _ _ E) as S.
  cbn [fst snd process events launched] in H, P, S.
  destruct r3 as [rc | e | ].
  - destruct H as [D H]. subst R. rewrite H.
    cbn [fst snd process events delivered].
    split; [exact P | ]. split.
    + rewrite spawned_silent by reflexivity. exact S.
    + split; [reflexivity | ]. split; [reflexivity | ]. exists rc.
      split; [ | reflexivity].
      now apply (drain_and_wait_returncode _ _ _ _ _ _ E).
  - pose proof (quiet_raises _ (quiet_drain_and_wait env name id) _ _ _ E)
      as ->.
    destruct (delivered f3) eqn:D.
    + destruct H as [_ H]. subst R. rewrite H.
      rewrite (on_cancelled_run env name id f3 D), P.
      cbn [fst snd process events delivered].
      split; [reflexivity | ]. split.
      * rewrite spawned_app, spawned_silent by reflexivity. rewrite S.
        unfold cleanup. now destruct (gone (behaviour env)).
      * split; [reflexivity | ]. split; [reflexivity | ].
        exists (events f3). now rewrite <- app_assoc.
    + destruct H as [H _]. discriminate.
  - destruct H as [D H]. subst R. rewrite H. cbn [fst snd].
    split; [exact P | ]. split; [exact S | ]. split; [ | exact D].
    destruct (cancel env) as [ | k] eqn:C; [reflexivity | ].
    destruct (responsive_drain_and_wait env k C name id
                (launched name id argv) f3 eq_refl E).
Qed.

Lemma launchable_spawned env inspect_data name id argv :
  launchable inspect_data name id argv ->
  spawned (events (fst (_is_healthy env inspect_data frame0))) = [argv].
Proof.
  intros L. destruct (cancel env) as [ | [ | k]] eqn:C.
  - rewrite (launch_resumes env _ _ _ _ L) by now rewrite C.
    apply launched_outcome.
  - now rewrite (launch_cancelled env _ _ _ _ L C).
  - rewrite (launch_resumes env _ _ _ _ L) by (rewrite C; lia).
    apply launched_outcome.
Qed.

Lemma immediate_frame env inspect_data f :
  immediate inspect_data ->
  let R := _is_healthy env inspect_data f in
  process (fst R) = process f /\ awaited (fst R) = awaited f /\
  delivered (fst R) = delivered f /\
  spawned (events (fst R)) = spawned (events f) /\
  (snd R = Ret (inspect_data, None) \/
   exists e, snd R = Raise e /\ signal e = false).
Proof.
  intros I R. subst R. destruct (I env f) as (evs & r & E & S & _ & Hr).
  rewrite E. cbn [fst snd process awaited delivered events].
  rewrite spawned_app, S, app_nil_r. auto.
Qed.

Lemma monotone_bind A B (m : M A) (k : A -> M B) :
  monotone m -> (forall a, monotone (k a)) -> monotone (bind m k).
Proof.
  intros Hm Hk f f' r. unfold bind.
  destruct (m f) as [f1 [a | e | ]] eqn:E.
  - intros H. specialize (Hm _ _ _ E). specialize (Hk a _ _ _ H). lia.
  - intros [= <- <-]. now apply (Hm _ _ _ E).
  - intros [= <- <-]. now apply (Hm _ _ _ E).
Qed.

Lemma monotone_suspend env ready : monotone (suspend env ready).
Proof.
  intros f f' r H.
  destruct (suspend_cases env ready f) as [E | [[_ E] | [_ E]]];
    rewrite E in H; injection H as <- <-; cbn [awaited]; lia.
Qed.

Lemma monotone_emit e : monotone (emit e).
Proof. intros f f' r [= <- <-]. cbn [awaited]. lia. Qed.

Lemma monotone_ret A (a : A) : monotone (ret a).
Proof. intros f f' r [= <- <-]. lia. Qed.

Lemma monotone_block A : monotone (@block A).
Proof. intros f f' r [= <- <-]. lia. Qed.

Lemma monotone_drain env name id rs : forall pending,
  monotone (drain env name id pending rs).
Proof.
  induction rs as [ | [s line] rs IH]; intros [ | p pending]; cbn [drain].
  - apply monotone_ret.
  - apply monotone_bind; [apply monotone_suspend | intros].
    apply monotone_block.
  - apply monotone_ret.
  - destruct (mem_stream s (p :: pending)); [ | apply IH].
    apply monotone_bind; [apply monotone_suspend | intros _].
    destruct (negb (line =? "")); [ | apply IH].
    apply monotone_bind; [apply monotone_emit | intros; apply IH].
Qed.

Lemma drain_and_wait_awaited env name id f f' r :
  drain_and_wait env name id f = (f', r) -> awaited f <= awaited f'.
Proof.
  apply monotone_bind; [apply monotone_drain | intros _].
  unfold process_wait. destruct (returncode (behaviour env)).
  - apply monotone_bind; [apply monotone_suspend | intros _].
    apply monotone_bind; [apply monotone_emit | intros; apply monotone_ret].
  - apply monotone_bind; [apply monotone_suspend | intros].
    apply monotone_block.
Qed.

(** Without a cancellation request nothing is thrown in. *)
Lemma uncancelled_never_cancelled env name id f f' :
  cancel env = NoCancel ->
  (drain env name id [stdout; stderr] (reads (behaviour env)) ;;
   process_wait env) f <> (f', Raise CancelledError).
Proof.
  intros C.
  assert (Hs : forall ready g g',
            suspend env ready g <> (g', Raise CancelledError)).
  { intros ready g g'. unfold suspend. rewrite C.
    destruct ready; discriminate. }
  assert (Hd : forall rs pending g g',
            drain env name id pending rs g <> (g', Raise CancelledError)).
  { induction rs as [ | [s line] rs IH]; intros [ | p pending] g g';
      cbn [drain]; try discriminate.
    - unfold bind. destruct (suspend env false g) as [g1 [[] | e | ]] eqn:E;
        try discriminate.
      intros [= <- ->]. now apply Hs in E.
    - destruct (mem_stream s (p :: pending)); [ | apply IH].
      unfold bind at 1.
      destruct (suspend env true g) as [g1 [[] | e | ]] eqn:E;
        try discriminate.
      + destruct (negb (line =? "")); [ | apply IH].
        unfold bind at 1, log, emit. apply IH.
      + intros [= <- ->]. now apply Hs in E. }
  unfold bind at 1.
  destruct (drain env name id _ _ f) as [f1 [[] | e | ]] eqn:E;
    try discriminate.
  - unfold process_wait. destruct (returncode (behaviour env)).
    + unfold bind at 1.
      destruct (suspend env true f1) as [g1 [[] | e | ]] eqn:E1;
        try discriminate.
      intros [= <- ->]. now apply Hs in E1.
    + unfold bind at 1.
      destruct (suspend env false f1) as [g1 [[] | e | ]] eqn:E1;
        try discriminate.
      intros [= <- ->]. now apply Hs in E1.
  - intros [= <- ->]. now apply Hd in E.
Qed.

(** ** Every process started is waited for *)

Lemma reaped_app evs evs' : reaped (evs ++ evs') = reaped evs + reaped evs'.
Proof. unfold reaped. now rewrite filter_app, length_app. Qed.

Lemma calm_ret A (a : A) : calm (ret a).
Proof. now intros f f' r [= <- <-]. Qed.

Lemma calm_block A : calm (@block A).
Proof. now intros f f' r [= <- <-]. Qed.

Lemma calm_suspend env ready : calm (suspend env ready).
Proof.
  intros f f' r H.
  destruct (suspend_cases env ready f) as [E | [[_ E] | [_ E]]];
    rewrite E in H; now injection H as <- <-.
Qed.

Lemma calm_log lv m : calm (log lv m).
Proof.
  intros f f' r [= <- <-]. cbn [events]. rewrite reaped_app. cbn. lia.
Qed.

Lemma calm_bind A B (m : M A) (k : A -> M B) :
  calm m -> (forall a, calm (k a)) -> calm (bind m k).
Proof.
  intros Hm Hk f f' r. unfold bind.
  destruct (m f) as [f1 [a | e | ]] eqn:E.
  - intros H. rewrite (Hk a _ _ _ H). now apply (Hm _ _ _ E).
  - intros [= <- <-]. now apply (Hm _ _ _ E).
  - intros [= <- <-]. now apply (Hm _ _ _ E).
Qed.

Lemma calm_drain env name id rs : forall pending,
  calm (drain env name id pending rs).
Proof.
  induction rs as [ | [s line] rs IH]; intros [ | p pending]; cbn [drain].
  - apply calm_ret.
  - apply calm_bind; [apply calm_suspend | intros; apply calm_block].
  - apply calm_ret.
  - destruct (mem_stream s (p :: pending)); [ | apply IH].
    apply calm_bind; [apply calm_suspend | intros _].
    destruct (negb (line =? "")); [ | apply IH].
    apply calm_bind; [apply calm_log | intros; apply IH].
Qed.

(** The wait for the process is the one place where it is reaped. *)
Lemma drain_and_wait_reaped env name id f f' r :
  drain_and_wait env name id f = (f', r) ->
  reaped (events f') =
    reaped (events f) + match r with Ret _ => 1 | _ => 0 end.
Proof.
  unfold drain_and_wait, bind.
  destruct (drain env name id _ _ f) as [f1 [[] | e | ]] eqn:D;
    pose proof (calm_drain env name id _ _ _ _ _ D) as C1.
  - unfold process_wait. destruct (returncode (behaviour env)) as [rc | ].
    + unfold bind.
      destruct (suspend env true f1) as [f2 [[] | e | ]] eqn:S;
        pose proof (calm_suspend env true _ _ _ S) as C2;
        intros [= <- <-]; cbn [events emit fst]; rewrite ?reaped_app;
        cbn; lia.
    + unfold bind.
      destruct (suspend env false f1) as [f2 [[] | e | ]] eqn:S;
        pose proof (calm_suspend env false _ _ _ S) as C2;
        intros [= <- <-]; lia.
  - intros [= <- <-]. lia.
  - intros [= <- <-]. lia.
Qed.

Lemma launched_settled env inspect_data name id argv :
  let R := try_statement env inspect_data name id (drain_and_wait env name id)
             (launched name id argv) in
  snd R <> Blocked -> settled (events (fst R)).
Proof.
  intros R NB. unfold settled.
  pose proof (launched_outcome env inspect_data name id argv) as (_ & S & _).
  fold R in S. rewrite S. cbn [List.length]. subst R.
  pose proof (try_statement_cases env inspect_data name id
                (drain_and_wait env name id) (launched name id argv)
                (quiet_honest _ (quiet_drain_and_wait env name id)) eq_refl)
    as T.
  cbv zeta in T.
  destruct (drain_and_wait env name id (launched name id argv))
    as [f3 r3] eqn:E.
  pose proof (drain_and_wait_reaped env name id _ _ _ E) as Re.
  pose proof (quiet_process _ (quiet_drain_and_wait env name id) _ _ _ E) as P.
  cbn [fst snd events launched process] in *.
  change (reaped [Log INFO (Checking name id); Spawn argv]) with 0 in Re.
  destruct r3 as [rc | e | ].
  - destruct T as [_ T]. rewrite T. cbn [fst events].
    rewrite reaped_app. cbn. lia.
  - destruct (delivered f3) eqn:D.
    + destruct T as [_ T]. rewrite T.
      rewrite (on_cancelled_run env name id f3 D), P. cbn [fst events].
      rewrite !reaped_app. unfold cleanup.
      destruct (gone (behaviour env)); cbn; lia.
    + pose proof (quiet_raises _ (quiet_drain_and_wait env name id) _ _ _ E)
        as ->.
      destruct (quiet_honest _ (quiet_drain_and_wait env name id) _ _ _ E
                  eq_refl) as [[_ H] _].
      specialize (H eq_refl). congruence.
  - destruct T as [_ T]. rewrite T in NB. now destruct NB.
Qed.

(** A probe that has come to an end has waited for the process it
    started, if it started one. *)
Lemma is_healthy_settled env inspect_data :
  snd (_is_healthy env inspect_data frame0) <> Blocked ->
  settled (events (fst (_is_healthy env inspect_data frame0))).
Proof.
  destruct (is_healthy_shape inspect_data) as [(n & i & a & L) | I].
  - destruct (cancel env) as [ | [ | k]] eqn:C.
    + rewrite (launch_resumes env _ _ _ _ L) by now rewrite C.
      apply launched_settled.
    + rewrite (launch_cancelled env _ _ _ _ L C). intros _. reflexivity.
    + rewrite (launch_resumes env _ _ _ _ L) by (rewrite C; lia).
      apply launched_settled.
  - destruct (I env frame0) as (evs & r & E & S & Re & _). rewrite E.
    intros _. unfold settled. cbn [fst events frame0 app].
    now rewrite S, Re.
Qed.

(** ** What the scheduler sees of a probe *)

(** The outcomes of a probe, whatever the record, the process and the
    cancellation. *)
Lemma is_healthy_outcome env inspect_data :
  let R := _is_healthy env inspect_data frame0 in
  match snd R with
  | Ret (d, v) =>
      d = inspect_data /\
      match v with
      | Some _ => exists name id argv, launchable inspect_data name id argv
      | None => immediate inspect_data
      end
  | Raise e =>
      exn_eqb_Timeout e = false /\
      (exn_eqb_Cancelled e = true ->
       cancel env <> NoCancel /\ delivered (fst R) = true)
  | Blocked =>
      cancel env = NoCancel /\ awaited (fst R) <> 0 /\
      exists name id argv, launchable inspect_data name id argv
  end.
Proof.
  intros R. subst R.
  destruct (is_healthy_shape inspect_data) as [(n & i & a & L) | I].
  - assert (Hrun : forall E : _is_healthy env inspect_data frame0 =
                     try_statement env inspect_data n i
                       (drain_and_wait env n i) (launched n i a),
              match snd (_is_healthy env inspect_data frame0) with
              | Ret (d, v) =>
                  d = inspect_data /\
                  match v with
                  | Some _ => exists name id argv,
                                launchable inspect_data name id argv
                  | None => immediate inspect_data
                  end
              | Raise e =>
                  exn_eqb_Timeout e = false /\
                  (exn_eqb_Cancelled e = true ->
                   cancel env <> NoCancel /\
                   delivered (fst (_is_healthy env inspect_data frame0)) = true)
              | Blocked =>
                  cancel env = NoCancel /\
                  awaited (fst (_is_healthy env inspect_data frame0)) <> 0 /\
                  exists name id argv, launchable inspect_data name id argv
              end).
    { intros E. rewrite E.
      pose proof (launched_outcome env inspect_data n i a) as (_ & _ & O).
      cbv zeta in O.
      pose proof (try_statement_cases env inspect_data n i
                    (drain_and_wait env n i) (launched n i a)
                    (quiet_honest _ (quiet_drain_and_wait env n i)) eq_refl)
        as T.
      cbv zeta in T.
      destruct (snd (try_statement env inspect_data n i _ _))
        as [[d v] | e | ] eqn:S.
      - destruct O as (-> & _ & rc & _ & ->). split; [reflexivity | eauto].
      - destruct O as (-> & D & _). split; [reflexivity | ]. intros _.
        split; [ | exact D]. intros C.
        destruct (drain_and_wait env n i (launched n i a)) as [f3 r3] eqn:E3.
        cbn [fst snd] in T.
        pose proof (quiet_honest _ (quiet_drain_and_wait env n i) _ _ _
                      E3 eq_refl) as [Hd _].
        destruct r3 as [rc | e | ].
        + destruct T as [_ T]. rewrite T in S. discriminate.
        + pose proof (quiet_raises _ (quiet_drain_and_wait env n i) _ _ _ E3)
            as ->.
          unfold drain_and_wait in E3.
          now apply uncancelled_never_cancelled in E3.
        + destruct T as [_ T]. rewrite T in S. discriminate.
      - destruct O as (C & _). split; [exact C | ]. split; [ | eauto].
        destruct (drain_and_wait env n i (launched n i a)) as [f3 r3] eqn:E3.
        cbn [fst snd] in T.
        destruct r3 as [rc | e | ].
        + destruct T as [_ T]. rewrite T in S. discriminate.
        + destruct (delivered f3) eqn:D; destruct T as [_ T]; rewrite T in S;
            try discriminate.
          rewrite (on_cancelled_run env n i f3 D) in S.
          destruct (process f3); discriminate.
        + destruct T as [_ T]. rewrite T. cbn [fst].
          pose proof (drain_and_wait_awaited env n i _ _ _ E3) as A.
          cbn [awaited launched] in A. lia. }
    destruct (cancel env) as [ | [ | k]] eqn:C.
    + apply Hrun. apply (launch_resumes env _ _ _ _ L). now rewrite C.
    + rewrite (launch_cancelled env _ _ _ _ L C). cbn [snd].
      split; [reflexivity | discriminate].
    + apply Hrun. apply (launch_resumes env _ _ _ _ L). rewrite C. lia.
  - pose proof (immediate_frame env inspect_data frame0 I)
      as (_ & _ & _ & _ & H).
    cbv zeta in H. destruct H as [-> | (e & -> & He)].
    + split; [reflexivity | exact I].
    + split; [now apply signal_timeout | ].
      rewrite (signal_cancelled _ He). discriminate.
Qed.

(** [f.result()] of a done task. *)
Lemma result_cases w t :
  match snd (result w t) with
  | Ret (d, v) =>
      coro t = IsHealthy (slot_of t) d /\
      match v with
      | Some _ => launchable_task t
      | None => True
      end
  | Raise e =>
      if exn_eqb_Timeout e then is_probe t = false
      else is_probe t = true /\ exn_eqb_Cancelled e = false
  | Blocked => is_probe t = true
  end.
Proof.
  unfold result, slot_of, is_probe, launchable_task.
  destruct (coro t) as [z | slot d]; [reflexivity | ].
  unfold probe.
  pose proof (is_healthy_outcome (mkPenv (docker_exec w (tid t)) NoCancel) d)
    as O.
  cbv zeta in O.
  destruct (_is_healthy _ d frame0) as [f [[d' v] | e | ]]; cbn [fst snd] in *.
  - destruct O as [-> O]. split; [reflexivity | ]. now destruct v.
  - destruct O as [-> O]. split; [reflexivity | ].
    destruct (exn_eqb_Cancelled e); [ | reflexivity].
    now destruct (O eq_refl) as [O' _].
  - reflexivity.
Qed.

(** A probe that is still pending after a wait has started a process. *)
Lemma unfinished_launchable w n t :
  finished w n t = false -> launchable_task t.
Proof.
  unfold finished, launchable_task, probe.
  destruct (coro t) as [z | slot d]; [trivial | ].
  destruct (is_healthy_shape d) as [L | I]; [now intros _ | ].
  pose proof (immediate_frame (mkPenv (docker_exec w (tid t)) NoCancel) d
                frame0 I) as (_ & A & _ & _ & R).
  cbv zeta in A, R.
  destruct (_is_healthy _ d frame0) as [f r]. cbn [fst snd] in *.
  rewrite A. cbn [awaited frame0 Nat.eqb orb].
  destruct R as [-> | (e & -> & _)]; discriminate.
Qed.


(** ** The two sets of [asyncio.wait] *)

Lemma filter_split {A} (f : A -> bool) (l : list A) :
  Permutation (filter (fun x => negb (f x)) l ++ filter f l) l.
Proof.
  induction l as [ | a l IH]; cbn; [constructor | ].
  destruct (f a); cbn.
  - rewrite <- Permutation_middle. now constructor.
  - now constructor.
Qed.

Lemma NoDup_tid_tasks (l : list task) : NoDup (map tid l) -> NoDup l.
Proof. apply NoDup_map_inv. Qed.

Lemma done_of_In w n l t :
  In t (done_of w n l) <-> In t l /\ finished w n t = true.
Proof.
  unfold done_of. rewrite in_flat_map. split.
  - intros (i & _ & [Hl [_ Hf]%andb_prop]%filter_In). now split.
  - intros [Hl Hf]. exists (tid t). split.
    + apply nodup_In, in_or_app. right. now apply in_map.
    + apply filter_In. split; [exact Hl | ].
      now rewrite Nat.eqb_refl, Hf.
Qed.

Lemma done_of_NoDup w n l : NoDup (map tid l) -> NoDup (done_of w n l).
Proof.
  intros Hl. unfold done_of.
  generalize (NoDup_nodup Nat.eq_dec (ready w n ++ map tid l)).
  generalize (nodup Nat.eq_dec (ready w n ++ map tid l)) as ids.
  induction ids as [ | i ids IH]; intros Hids; cbn [flat_map];
    [constructor | ].
  inversion_clear Hids as [ | ? ? Hi Hids'].
  apply NoDup_app.
  - apply NoDup_filter. now apply NoDup_tid_tasks.
  - now apply IH.
  - intros t [_ [Ht _]%andb_prop]%filter_In
             (j & Hj & [_ [Htj _]%andb_prop]%filter_In)%in_flat_map.
    apply Nat.eqb_eq in Ht, Htj. subst. contradiction.
Qed.

Lemma wait_partition w n l :
  NoDup (map tid l) ->
  Permutation (pending_of w n l ++ done_of w n l) l.
Proof.
  intros Hl. rewrite <- (filter_split (finished w n) l) at 3.
  apply Permutation_app_head. apply NoDup_Permutation.
  - now apply done_of_NoDup.
  - apply NoDup_filter. now apply NoDup_tid_tasks.
  - intros t. now rewrite done_of_In, filter_In.
Qed.

Lemma pending_of_In w n l t :
  In t (pending_of w n l) <-> In t l /\ finished w n t = false.
Proof.
  unfold pending_of. rewrite filter_In. now rewrite negb_true_iff.
Qed.

(** ** Verdicts *)

Lemma resolved_last rs slot k v :
  resolved (rs ++ [(k, v)]) slot =
    if (k =? slot)%nat
    then match v with Some false => false | _ => true end
    else resolved rs slot.
Proof.
  unfold resolved. rewrite rev_app_distr. cbn [rev app find fst].
  destruct (k =? slot)%nat; [ | reflexivity]. now destruct v as [[ | ] | ].
Qed.

Lemma slots_app l l' : slots (l ++ l') = slots l ++ slots l'.
Proof. unfold slots. apply flat_map_app. Qed.

Lemma slots_In l slot :
  In slot (slots l) <-> exists t d, In t l /\ coro t = IsHealthy slot d.
Proof.
  unfold slots. rewrite in_flat_map. split.
  - intros (t & Ht & H). destruct (coro t) as [z | s d] eqn:C;
      [destruct H | ].
    destruct H as [<- | []]. eauto.
  - intros (t & d & Ht & C). exists t. split; [exact Ht | ].
    rewrite C. now left.
Qed.

Lemma slots_probe t :
  is_probe t = true -> slots [t] = [slot_of t].
Proof.
  unfold is_probe, slots, slot_of. cbn. destruct (coro t); [discriminate | ].
  reflexivity.
Qed.

Lemma slots_timer t : is_probe t = false -> slots [t] = [].
Proof.
  unfold is_probe, slots. cbn. destruct (coro t); [ | discriminate].
  reflexivity.
Qed.

Lemma main_events_tagged tr id evs :
  main_events (tr ++ tagged id evs) = main_events tr.
Proof.
  unfold main_events, tagged. rewrite flat_map_app.
  induction evs as [ | e evs IH]; cbn; [now rewrite app_nil_r | exact IH].
Qed.

(** ** Processes started and waited for in a run *)



Lemma result_settled w t :
  snd (result w t) <> Blocked -> settled (fst (result w t)).
Proof.
  unfold result, probe. destruct (coro t) as [z | slot d]; [reflexivity | ].
  pose proof (is_healthy_settled (mkPenv (docker_exec w (tid t)) NoCancel) d)
    as H.
  now destruct (_is_healthy _ d frame0) as [f r].
Qed.




(** ** The invariant of a run *)

Section InvariantProofs.

Variable w : world.
Variable timeout : option Z.
Variable records : list json.
Variable tr0 : list (origin * event).

#[local] Abbreviation Core := (core timeout records tr0).
#[local] Abbreviation Inv := (inv timeout records tr0).
#[local] Abbreviation Open := (open records).
#[local] Abbreviation Armed := (timer_armed timeout).
#[local] Abbreviation AllResolved := (all_resolved records).
#[local] Abbreviation SomeUnresolved := (some_unresolved records).

Lemma record_slot t slot d :
  record_of records t -> coro t = IsHealthy slot d ->
  slot < List.length records.
Proof.
  unfold record_of. intros H C. rewrite C in H.
  apply nth_error_Some. congruence.
Qed.

(** The tasks, permuted, under an unchanged session. *)
Lemma core_permuted l l' s s' :
  Permutation l' l ->
  next_id s' = next_id s -> timedout s' = timedout s -> trace s' = trace s ->
  Core l s -> Core l' s'.
Proof.
  intros P Hn Ht Htr [I N R S T M].
  split.
  - eapply Permutation_NoDup; [ | exact I].
    apply Permutation_map, Permutation_sym, P.
  - rewrite Hn. eapply Permutation_Forall; [ | exact N].
    now apply Permutation_sym.
  - eapply Permutation_Forall; [ | exact R]. now apply Permutation_sym.
  - eapply Permutation_NoDup; [ | exact S].
    unfold slots. apply Permutation_flat_map, Permutation_sym, P.
  - rewrite Ht. eapply Permutation_Forall; [ | exact T].
    now apply Permutation_sym.
  - now rewrite Htr.
Qed.

(** Some tasks less. *)
Lemma core_fewer l l' s s' :
  incl l' l -> NoDup (map tid l') -> NoDup (slots l') ->
  next_id s' = next_id s ->
  (timedout s' = timedout s \/ Forall (fun t => is_probe t = true) l') ->
  main_events (trace s') = main_events (trace s) ->
  Core l s -> Core l' s'.
Proof.
  intros Hi I' S' Hn Ht Htr [I N R S T M].
  split; try assumption.
  - rewrite Hn. eapply incl_Forall; eassumption.
  - eapply incl_Forall; eassumption.
  - destruct Ht as [Ht | Hp].
    + rewrite Ht. eapply incl_Forall; eassumption.
    + apply Forall_forall. intros t Ht Hf.
      rewrite Forall_forall in Hp. rewrite (Hp t Ht) in Hf. discriminate.
  - now rewrite Htr.
Qed.

Lemma open_same_slots c c' :
  (forall slot, In slot (slots (live c')) <-> In slot (slots (live c))) ->
  reports (snd c') = reports (snd c) ->
  Open c -> Open c'.
Proof.
  intros Hs Hr O slot Hslot. rewrite Hr, Hs. now apply O.
Qed.

Lemma slots_permuted l l' :
  Permutation l' l -> forall slot, In slot (slots l') <-> In slot (slots l).
Proof.
  intros P slot. unfold slots.
  split; apply Permutation_in; apply Permutation_flat_map;
    [exact P | now apply Permutation_sym].
Qed.

Lemma all_resolved_of_open c :
  Open c -> slots (live c) = [] -> AllResolved (reports (snd c)).
Proof.
  intros O E slot Hslot. specialize (O slot Hslot). rewrite E in O.
  destruct (resolved _ slot); [reflexivity | ]. now destruct (proj1 O eq_refl).
Qed.

Lemma unresolved_of_live c t :
  Open c -> Forall (record_of records) (live c) ->
  In t (live c) -> is_probe t = true ->
  SomeUnresolved (reports (snd c)).
Proof.
  intros O R Ht Hp. unfold is_probe in Hp.
  destruct (coro t) as [z | slot d] eqn:C; [discriminate | ].
  rewrite Forall_forall in R.
  pose proof (record_slot t slot d (R t Ht) C) as Hslot.
  exists slot. split; [exact Hslot | ].
  apply (O slot Hslot), slots_In. eauto.
Qed.


(** The test of the [while] and the call of [asyncio.wait]. *)
Lemma inv_while s c' :
  Inv (AtWhile, s) -> step w timeout (AtWhile, s) = Some c' -> Inv c'.
Proof.
  intros [C (O & A & Z)]. unfold step.
  destruct (pending s) as [ | t rest] eqn:P.
  - intros [= <-]. split; [exact C | ].
    cbn [stage fst snd]. split; [ | now rewrite P].
    apply (all_resolved_of_open (AtWhile, s) O). cbn [live fst snd].
    now rewrite P.
  - destruct (truthy_timeout timeout && _) eqn:G.
    + intros [= <-]. split; [exact C | ].
      apply andb_prop in G as [G1 G2]. apply Nat.eqb_eq in G2.
      destruct rest; [ | discriminate].
      assert (T : is_probe t = false).
      { destruct (timedout s) eqn:D.
        - specialize (Z D). cbn [snd] in Z. congruence.
        - specialize (A G1 D). cbn [live fst snd] in A. rewrite P in A.
          apply Exists_cons in A as [A | A]; [exact A | inversion A]. }
      assert (E : slots (pending s) = []) by (rewrite P; now apply slots_timer).
      split; [ | exact E].
      now apply (all_resolved_of_open (AtWhile, s) O).
    + rewrite <- P.
      destruct (done_of w (waits s) (pending s)) as [ | f done] eqn:D;
        [discriminate | ].
      intros [= <-]. rewrite <- D.
      pose proof (wait_partition w (waits s) (pending s)
                    (core_ids _ _ _ _ _ C)) as W.
      split.
      * now apply (core_permuted _ _ s _ W).
      * split; [ | split].
        -- apply (open_same_slots (AtWhile, s)); [ | reflexivity | exact O].
           now apply slots_permuted.
        -- intros G1 G2. specialize (A G1 G2). cbn [live fst snd] in *.
           apply Exists_exists in A as (x & Hx & Tx). apply Exists_exists.
           exists x. split; [ | exact Tx].
           eapply Permutation_in; [apply Permutation_sym, W | exact Hx].
        -- apply Forall_forall. intros x [_ Hx]%pending_of_In.
           now apply (unfinished_launchable w (waits s)).
Qed.

(** After the [for]: back to the test, or into the cancellation loop. *)
Lemma inv_for_end s c' :
  Inv (InFor [], s) -> step w timeout (InFor [], s) = Some c' -> Inv c'.
Proof.
  intros [C (O & A & L)]. cbn [live fst snd] in C. rewrite app_nil_r in C.
  assert (OW : Open (AtWhile, s)).
  { apply (open_same_slots (InFor [], s)); [ | reflexivity | exact O].
    intros slot. cbn [live fst snd]. now rewrite app_nil_r. }
  assert (AW : Armed (AtWhile, s)).
  { intros G1 G2. specialize (A G1 G2). cbn [live fst snd] in *.
    now rewrite app_nil_r in A. }
  unfold step. destruct (pending s) as [ | p rest] eqn:P.
  - intros [= <-]. split; [cbn [live fst snd]; now rewrite P | ].
    split; [exact OW | ]. split; [exact AW | ]. intros _. exact P.
  - destruct (timedout s) eqn:D.
    + intros [= <-]. split; [cbn [live fst snd]; now rewrite P | ].
      split; [exact D | ]. split; [ | exact L].
      apply (unresolved_of_live (AtWhile, s) p OW).
      * cbn [live fst snd]. rewrite P. apply (core_record _ _ _ _ _ C).
      * cbn [live fst snd]. rewrite P. now left.
      * pose proof (core_timer _ _ _ _ _ C) as T.
        apply Forall_inv in T. destruct (is_probe p); [reflexivity | ].
        destruct (T eq_refl) as (_ & T' & _). congruence.
    + intros [= <-]. split; [cbn [live fst snd]; now rewrite P | ].
      split; [exact OW | ]. split; [exact AW | ]. cbn [snd]. congruence.
Qed.

Lemma ids_without (l1 l2 : list task) f :
  NoDup (map tid (l1 ++ f :: l2)) ->
  NoDup (map tid (l1 ++ l2)) /\ ~ In (tid f) (map tid (l1 ++ l2)).
Proof.
  rewrite !map_app. cbn [map]. intros H. split.
  - now apply NoDup_remove_1 in H.
  - now apply NoDup_remove_2 in H.
Qed.

Lemma slots_middle l1 l2 f :
  slots (l1 ++ f :: l2) = slots l1 ++ slots [f] ++ slots l2.
Proof.
  rewrite slots_app. f_equal. change (f :: l2) with ([f] ++ l2).
  now rewrite slots_app.
Qed.

Lemma incl_without (l1 l2 : list task) f : incl (l1 ++ l2) (l1 ++ f :: l2).
Proof.
  intros x [H | H]%in_app_or; apply in_or_app; [now left | right; now right].
Qed.

(** A done probe whose verdict is healthy or not applicable. *)
Lemma inv_for_resolved s f done evs slot d v :
  Inv (InFor (f :: done), s) ->
  coro f = IsHealthy slot d -> v <> Some false ->
  Inv (InFor done,
       mkSession (pending s) (timedout s) (next_id s) (waits s) (started s)
         (reports s ++ [(slot, v)]) (cancelled s)
         (trace s ++ tagged (tid f) evs)).
Proof.
  intros [C (O & A & L)] Cf Hv. cbn [live fst snd] in *.
  assert (Pf : is_probe f = true) by (unfold is_probe; now rewrite Cf).
  assert (Sf : slots [f] = [slot]).
  { rewrite (slots_probe f Pf). unfold slot_of. now rewrite Cf. }
  pose proof (core_slots _ _ _ _ _ C) as S.
  rewrite slots_middle, Sf in S. cbn [app] in S.
  split; [ | split; [ | split]]; cbn [live fst snd pending].
  - apply (core_fewer (pending s ++ f :: done) _ s);
      cbn [next_id timedout trace]; try reflexivity.
    + apply incl_without.
    + apply (ids_without _ _ f), (core_ids _ _ _ _ _ C).
    + rewrite slots_app. now apply NoDup_remove_1 in S.
    + now left.
    + apply main_events_tagged.
    + exact C.
  - intros slot' Hslot'. cbn [live fst snd reports pending].
    rewrite resolved_last, slots_app.
    specialize (O slot' Hslot'). cbn [live fst snd] in O.
    rewrite slots_middle, Sf in O. cbn [app] in O.
    destruct (slot =? slot')%nat eqn:E.
    + apply Nat.eqb_eq in E. subst slot'.
      apply NoDup_remove_2 in S.
      destruct v as [[ | ] | ]; try (split; [discriminate | contradiction]).
      now destruct Hv.
    + apply Nat.eqb_neq in E. rewrite O. rewrite !in_app_iff. cbn [In].
      tauto.
  - intros G1 G2. specialize (A G1 G2). cbn [live fst snd timedout] in *.
    apply Exists_exists in A as (x & Hx & Tx). apply Exists_exists.
    exists x. split; [ | exact Tx].
    apply in_app_or in Hx as [Hx | [<- | Hx]]; apply in_or_app;
      [now left | congruence | now right].
  - exact L.
Qed.

(** A done probe whose verdict is unhealthy: a new task for the same
    record joins the pending ones. *)
Lemma inv_for_retry s f done evs slot d :
  Inv (InFor (f :: done), s) ->
  coro f = IsHealthy slot d -> launchable_task f ->
  Inv (InFor done,
       mkSession (pending s ++ [mkTask (next_id s) (IsHealthy slot d)])
         (timedout s) (S (next_id s)) (waits s) (started s)
         (reports s ++ [(slot, Some false)]) (cancelled s)
         (trace s ++ tagged (tid f) evs)).
Proof.
  intros [C (O & A & L)] Cf Lf. cbn [live fst snd] in *.
  set (new := mkTask (next_id s) (IsHealthy slot d)).
  assert (Pf : is_probe f = true) by (unfold is_probe; now rewrite Cf).
  assert (Sf : slots [f] = [slot]).
  { rewrite (slots_probe f Pf). unfold slot_of. now rewrite Cf. }
  assert (Sn : slots [new] = [slot]) by reflexivity.
  assert (Hslots : slots ((pending s ++ [new]) ++ done) =
                   slots (pending s ++ f :: done)).
  { rewrite <- app_assoc. cbn [app]. now rewrite !slots_middle, Sf, Sn. }
  destruct C as [I N R S T M].
  destruct (ids_without _ _ f I) as [I' _].
  assert (Hin : forall x, In x ((pending s ++ [new]) ++ done) ->
                  x = new \/ In x (pending s ++ f :: done)).
  { intros x. rewrite <- app_assoc. cbn [app]. rewrite !in_app_iff.
    cbn [In]. intuition. }
  split; [split | split; [ | split]]; cbn [live fst snd pending next_id
                                            timedout trace reports].
  - rewrite <- app_assoc. cbn [app].
    eapply Permutation_NoDup;
      [rewrite map_app; cbn [map]; apply Permutation_middle | ].
    rewrite <- map_app. constructor; [ | exact I'].
    cbn [tid new]. intros H. apply in_map_iff in H as (x & Hx & Hin').
    rewrite Forall_forall in N.
    specialize (N x (incl_without _ _ f x Hin')). lia.
  - apply Forall_forall. intros x [-> | Hx]%Hin; [cbn; lia | ].
    rewrite Forall_forall in N. specialize (N x Hx). lia.
  - apply Forall_forall. intros x [-> | Hx]%Hin.
    + unfold record_of. cbn [coro new]. rewrite Forall_forall in R.
      specialize (R f (in_elt f _ _)). unfold record_of in R.
      now rewrite Cf in R.
    + rewrite Forall_forall in R. now apply R.
  - now rewrite Hslots.
  - apply Forall_forall. intros x [-> | Hx]%Hin; [discriminate | ].
    rewrite Forall_forall in T. now apply T.
  - rewrite main_events_tagged. exact M.
  - intros slot' Hslot'. cbn [live fst snd reports pending].
    rewrite resolved_last, Hslots. specialize (O slot' Hslot').
    cbn [live fst snd] in O.
    destruct (slot =? slot')%nat eqn:E; [ | exact O].
    apply Nat.eqb_eq in E. subst slot'. split; [intros _ | reflexivity].
    rewrite slots_middle, Sf. apply in_or_app. right. now left.
  - intros G1 G2. specialize (A G1 G2). cbn [live fst snd timedout] in *.
    apply Exists_exists in A as (x & Hx & Tx). apply Exists_exists.
    exists x. split; [ | exact Tx].
    cbn [live fst snd pending]. rewrite <- app_assoc. cbn [app].
    apply in_app_or in Hx as [Hx | [<- | Hx]]; apply in_or_app;
      [now left | congruence | right; now right].
  - apply Forall_app. split; [exact L | ]. constructor; [ | constructor].
    unfold launchable_task in *. cbn [coro new]. now rewrite Cf in Lf.
Qed.

(** The timer, done. *)
Lemma inv_for_timer s f done evs :
  Inv (InFor (f :: done), s) -> is_probe f = false ->
  Inv (InFor done,
       mkSession (pending s) true (next_id s) (waits s) (started s)
         (reports s) (cancelled s) (trace s ++ tagged (tid f) evs)).
Proof.
  intros [C (O & A & L)] Pf. cbn [live fst snd] in *.
  assert (Sf : slots [f] = []) by now apply slots_timer.
  assert (Hslots : slots (pending s ++ done) = slots (pending s ++ f :: done)).
  { now rewrite slots_middle, Sf, slots_app. }
  destruct (ids_without _ _ f (core_ids _ _ _ _ _ C)) as [I' F'].
  split; [ | split; [ | split]]; cbn [live fst snd pending timedout].
  - apply (core_fewer (pending s ++ f :: done) _ s);
      cbn [next_id timedout trace]; try reflexivity.
    + apply incl_without.
    + exact I'.
    + rewrite Hslots. apply (core_slots _ _ _ _ _ C).
    + right. apply Forall_forall. intros x Hx.
      destruct (is_probe x) eqn:Px; [reflexivity | ].
      pose proof (core_timer _ _ _ _ _ C) as T. rewrite Forall_forall in T.
      destruct (T x (incl_without _ _ f x Hx) Px) as (Tx & _).
      destruct (T f (in_elt f _ _) Pf) as (Tf & _).
      destruct F'. apply in_map_iff. exists x. split; [congruence | exact Hx].
    + apply main_events_tagged.
    + exact C.
  - apply (open_same_slots (InFor (f :: done), s)); [ | reflexivity | exact O].
    intros slot. cbn [live fst snd pending]. now rewrite Hslots.
  - intros _ G2. discriminate.
  - exact L.
Qed.

(** A done probe that raised. *)
Lemma inv_for_raised s f done evs e :
  Inv (InFor (f :: done), s) -> is_probe f = true ->
  Inv (Halted (Raised e),
       mkSession (pending s) (timedout s) (next_id s) (waits s) (started s)
         (reports s) (cancelled s) (trace s ++ tagged (tid f) evs)).
Proof.
  intros [C (O & A & L)] Pf. cbn [live fst snd] in *.
  split; cbn [live fst snd pending stage reports].
  - apply (core_fewer (pending s ++ f :: done) _ s);
      cbn [next_id timedout trace]; try reflexivity.
    + now apply incl_appl.
    + pose proof (core_ids _ _ _ _ _ C) as I. rewrite map_app in I.
      now apply NoDup_app_remove_r in I.
    + pose proof (core_slots _ _ _ _ _ C) as S. rewrite slots_app in S.
      now apply NoDup_app_remove_r in S.
    + now left.
    + apply main_events_tagged.
    + exact C.
  - apply (unresolved_of_live (InFor (f :: done), s) f O).
    + apply (core_record _ _ _ _ _ C).
    + cbn [live fst snd]. apply in_elt.
    + exact Pf.
Qed.

(** One turn of the [for] over [done]. *)
Lemma inv_for_step s f done c' :
  Inv (InFor (f :: done), s) ->
  step w timeout (InFor (f :: done), s) = Some c' -> Inv c'.
Proof.
  intros I. unfold step.
  pose proof (result_cases w f) as R.
  destruct (result w f) as [evs [[d v] | e | ]]; cbn [snd] in R.
  - destruct R as [Cf Lf]. destruct v as [[ | ] | ]; intros [= <-].
    + now apply (inv_for_resolved _ _ _ _ _ d).
    + now apply inv_for_retry.
    + now apply (inv_for_resolved _ _ _ _ _ d).
  - destruct (exn_eqb_Timeout e); intros [= <-].
    + exact (inv_for_timer s f done evs I R).
    + exact (inv_for_raised s f done evs e I (proj1 R)).
  - discriminate.
Qed.

(** One turn of the cancellation loop. *)
Lemma inv_cancel s c' :
  Inv (InCancel, s) -> step w timeout (InCancel, s) = Some c' -> Inv c'.
Proof.
  intros [C (D & U & L)]. cbn [live fst snd] in *. unfold step.
  destruct (pending s) as [ | p rest] eqn:P.
  - intros [= <-]. split; [cbn [live fst snd]; now rewrite P | exact U].
  - destruct (cancel_await w (started s) p) as [evs r].
    set (s' := mkSession rest (timedout s) (next_id s) (waits s) (next_id s)
                 (reports s) (cancelled s ++ [tid p])
                 (trace s ++ tagged (tid p) evs)).
    assert (C' : Core rest s').
    { apply (core_fewer (p :: rest) _ s); cbn [next_id timedout trace s'];
        try reflexivity.
      - now apply incl_tl.
      - pose proof (core_ids _ _ _ _ _ C) as I. now inversion I.
      - pose proof (core_slots _ _ _ _ _ C) as S.
        change (p :: rest) with ([p] ++ rest) in S. rewrite slots_app in S.
        now apply NoDup_app_remove_l in S.
      - now left.
      - apply main_events_tagged.
      - exact C. }
    assert (I' : Inv (InCancel, s')).
    { split; [exact C' | ]. split; [exact D | ]. split; [exact U | ].
      now apply Forall_inv_tail in L. }
    assert (H' : forall e, Inv (Halted (Raised e), s')).
    { intros e. split; [exact C' | exact U]. }
    destruct r as [v | e | ].
    + now intros [= <-].
    + destruct (exn_eqb_Cancelled e); now intros [= <-].
    + discriminate.
Qed.

(** The invariant is kept by every step. *)
Theorem inv_step c c' : Inv c -> step w timeout c = Some c' -> Inv c'.
Proof.
  destruct c as [[ | [ | f done] | | o] s].
  - apply inv_while.
  - apply inv_for_end.
  - apply inv_for_step.
  - apply inv_cancel.
  - now intros I [= <-].
Qed.

Lemma inv_steps n : forall c c',
  Inv c -> steps w timeout n c = Some c' -> Inv c'.
Proof.
  induction n as [ | n IH]; intros c c' I; cbn [steps].
  - now intros [= <-].
  - destruct (step w timeout c) as [c1 | ] eqn:E; [ | discriminate].
    apply IH. now apply (inv_step c).
Qed.

Lemma inv_run fuel : forall c o s,
  Inv c -> run w timeout fuel c = Some (o, s) -> Inv (Halted o, s).
Proof.
  induction fuel as [ | fuel IH]; intros [p s0] o s I; cbn [run fst snd].
  - destruct p; try discriminate. now intros [= <- <-].
  - destruct p; try (now intros [= <- <-]);
      (destruct (step w timeout _) as [c1 | ] eqn:E; [ | discriminate];
       apply IH; now apply (inv_step _ _ I)).
Qed.

Lemma probes_tid l : forall k, map tid (probes k l) = seq k (List.length l).
Proof.
  induction l as [ | d l IH]; intros k; cbn; [reflexivity | ].
  now rewrite IH.
Qed.

Lemma probes_slots l : forall k, slots (probes k l) = seq k (List.length l).
Proof.
  induction l as [ | d l IH]; intros k; cbn; [reflexivity | ].
  f_equal. apply IH.
Qed.

Lemma probes_In l t : forall k,
  In t (probes k l) ->
  exists i d, nth_error l i = Some d /\
              t = mkTask (k + i) (IsHealthy (k + i) d).
Proof.
  induction l as [ | d l IH]; intros k; cbn; [intros [] | ].
  intros [<- | H].
  - exists 0, d. now rewrite Nat.add_0_r.
  - destruct (IH _ H) as (i & d' & Hi & ->). exists (S i), d'.
    split; [exact Hi | ]. now rewrite Nat.add_succ_r.
Qed.

Lemma probes_are_probes l : forall k,
  Forall (fun t => is_probe t = true) (probes k l).
Proof.
  induction l as [ | d l IH]; intros k; cbn; constructor; [reflexivity | ].
  apply IH.
Qed.

(** The tasks the loop is entered with: one probe for each record, and the
    timer when the timeout is truthy. *)
Lemma first_tasks_cases :
  (truthy_timeout timeout = false /\
   first_tasks timeout records = probes 0 records) \/
  (truthy_timeout timeout = true /\
   exists z, first_tasks timeout records =
               probes 0 records ++ [mkTask (List.length records) (Timeout z)]).
Proof.
  unfold first_tasks. destruct timeout as [z | ]; cbn [truthy_timeout].
  - destruct (negb (z =? 0)%Z); [right | left]; split; try reflexivity.
    + now exists z.
    + apply app_nil_r.
  - left. split; [reflexivity | apply app_nil_r].
Qed.

(** The invariant holds when the loop is entered. *)
Theorem inv_start : Inv (start timeout records tr0).
Proof.
  unfold start. set (n := List.length records).
  assert (Hp : Core (probes 0 records)
                 (mkSession (first_tasks timeout records) false
                    (List.length (first_tasks timeout records)) 0 0 [] [] tr0)).
  { split; cbn [next_id timedout trace].
    - rewrite probes_tid. apply seq_NoDup.
    - apply Forall_forall. intros t Ht. apply (in_map tid) in Ht.
      rewrite probes_tid in Ht. apply in_seq in Ht.
      destruct first_tasks_cases as [[_ ->] | [_ [z ->]]];
        rewrite ?length_app, <- (length_map tid), probes_tid, length_seq;
        cbn; lia.
    - apply Forall_forall. intros t (i & d & Hi & ->)%probes_In.
      exact Hi.
    - rewrite probes_slots. apply seq_NoDup.
    - apply Forall_forall. intros t Ht Hf.
      pose proof (probes_are_probes records 0) as P.
      rewrite Forall_forall in P. rewrite (P t Ht) in Hf. discriminate.
    - reflexivity. }
  assert (Hs : slots (first_tasks timeout records) = seq 0 n).
  { destruct first_tasks_cases as [[_ ->] | [_ [z ->]]];
      rewrite ?slots_app, probes_slots; [reflexivity | apply app_nil_r]. }
  split; [ | split; [ | split]]; cbn [live fst snd pending timedout reports].
  - destruct first_tasks_cases as [[_ E] | [G [z E]]].
    + rewrite E in *. exact Hp.
    + destruct Hp as [I N R S T M]. rewrite E in *.
      split; cbn [next_id timedout trace] in *.
      * rewrite map_app, probes_tid. cbn [map tid].
        change (seq 0 n ++ [n]) with (seq 0 n ++ [0 + n]).
        rewrite <- seq_S. apply seq_NoDup.
      * apply Forall_app. split; [exact N | ]. constructor; [ | constructor].
        rewrite length_app, <- (length_map tid), probes_tid, length_seq.
        cbn. lia.
      * apply Forall_app. split; [exact R | ]. now repeat constructor.
      * rewrite slots_app, probes_slots, app_nil_r. apply seq_NoDup.
      * apply Forall_app. split; [exact T | ]. constructor; [ | constructor].
        intros _. now repeat split.
      * reflexivity.
  - intros slot Hslot. cbn [live fst snd pending reports]. rewrite Hs.
    split; [intros _; apply in_seq; lia | reflexivity].
  - intros G _. cbn [live fst snd pending].
    destruct first_tasks_cases as [[G' _] | [_ [z ->]]]; [congruence | ].
    apply Exists_app. right. now constructor.
  - discriminate.
Qed.

End InvariantProofs.

(** ** The probe on a container record *)

(** C8.  A record whose configuration holds no health check, or a falsy
    one, is answered at once: the probe returns the record with [None],
    passes no suspension point, and its only effect is the log line, so no
    process is started.  This holds under any process behaviour and any
    cancellation request. *)
Theorem no_healthcheck_not_applicable
    env inspect_data container_id container_name config healthcheck f :
  subscript inspect_data "Id" = inr container_id ->
  subscript inspect_data "Name" = inr container_name ->
  subscript inspect_data "Config" = inr config ->
  dict_get config "Healthcheck" = inr healthcheck ->
  truthy healthcheck = false ->
  _is_healthy env inspect_data f =
    (mkFrame (process f) (awaited f) (delivered f)
       (events f ++ [Log INFO (NoHealthCheck container_name container_id)]),
     Ret (inspect_data, None)) /\
  spawned (events (fst (_is_healthy env inspect_data f))) = spawned (events f).
Proof.
  intros HId HName HConfig HGet HFalsy.
  pose proof (no_healthcheck_result env inspect_data container_id
                container_name config healthcheck f
                HId HName HConfig HGet HFalsy) as E.
  split; [exact E | ].
  rewrite E. cbn [fst events]. now apply spawned_silent.
Qed.

Lemma no_healthcheck_not_applicable_witness :
  _is_healthy (mkPenv hangs (CancelAfter 0)) web_plain frame0 =
    (mkFrame false 0 false
       [Log INFO (NoHealthCheck (JStr "/web") (JStr "4f2a"))],
     Ret (web_plain, None)) /\
  spawned (events (fst (_is_healthy (mkPenv hangs (CancelAfter 0))
                          web_plain frame0))) = [].
Proof.
  apply (no_healthcheck_not_applicable
           (mkPenv hangs (CancelAfter 0)) web_plain
           (JStr "4f2a") (JStr "/web") (JDict [("Image", JStr "nginx")])
           JNull frame0); reflexivity.
Defined.



(** The scenario of the specification, evaluated. *)
Example exit_3_unhealthy :
  snd (_is_healthy (mkPenv (exits 3) NoCancel) web_exit3 frame0) =
    Ret (web_exit3, Some false).
Proof. reflexivity. Qed.

(** A probe that returns a verdict has seen its process exit, and the
    verdict is the test of the exit code against zero. *)
Lemma verdict_is_exit_code env inspect_data f' d healthy :
  _is_healthy env inspect_data frame0 = (f', Ret (d, Some healthy)) ->
  exists rc, returncode (behaviour env) = Some rc /\ healthy = (rc =? 0)%Z.
Proof.
  intros E. destruct (is_healthy_shape inspect_data) as [(n & i & a & L) | I].
  - destruct (cancel env) as [ | [ | k]] eqn:C.
    + rewrite (launch_resumes env _ _ _ _ L) in E by now rewrite C.
      pose proof (launched_outcome env inspect_data n i a) as (_ & _ & H).
      rewrite E in H. cbn [snd] in H.
      destruct H as (_ & _ & rc & Hrc & [= ->]). eauto.
    + rewrite (launch_cancelled env _ _ _ _ L C) in E. discriminate.
    + rewrite (launch_resumes env _ _ _ _ L) in E by (rewrite C; lia).
      pose proof (launched_outcome env inspect_data n i a) as (_ & _ & H).
      rewrite E in H. cbn [snd] in H.
      destruct H as (_ & _ & rc & Hrc & [= ->]). eauto.
  - pose proof (immediate_frame env inspect_data frame0 I)
      as (_ & _ & _ & _ & H).
    rewrite E in H. cbn [snd] in H.
    destruct H as [[=] | (e & [=] & _)].
Qed.



(** The tolerated case, evaluated: the process is gone when [kill] is
    called, nothing is raised for it, and the cancellation goes on. *)
Example cancelled_probe_process_gone :
  _is_healthy (mkPenv (mkProc [] (Some 0%Z) true) (CancelAfter 1))
    web_exit3 frame0 =
    (mkFrame true 2 true
       [Log INFO (Checking (JStr "/web") (JStr "4f2a"));
        Spawn ["docker"; "exec"; "4f2a"; "/bin/sh"; "-c"; "exit 3"];
        Log WARNING (TimeoutExceeded (JStr "/web") (JStr "4f2a"));
        Reaped],
     Raise CancelledError).
Proof. reflexivity. Qed.

(** The probe raises [CancelledError] in no other way. *)
Lemma cancelled_only_with_process env inspect_data :
  snd (_is_healthy env inspect_data frame0) = Raise CancelledError ->
  delivered (fst (_is_healthy env inspect_data frame0)) = true /\
  process (fst (_is_healthy env inspect_data frame0)) = true.
Proof.
  intros E.
  destruct (is_healthy_shape inspect_data) as [(n & i & a & L) | I].
  - destruct (cancel env) as [ | [ | k]] eqn:C.
    + rewrite (launch_resumes env _ _ _ _ L) in * by now rewrite C.
      pose proof (launched_outcome env inspect_data n i a) as (P & _ & O).
      cbv zeta in O, P. rewrite E in O. now destruct O as (_ & O & _).
    + rewrite (launch_cancelled env _ _ _ _ L C) in E. discriminate.
    + rewrite (launch_resumes env _ _ _ _ L) in * by (rewrite C; lia).
      pose proof (launched_outcome env inspect_data n i a) as (P & _ & O).
      cbv zeta in O, P. rewrite E in O. now destruct O as (_ & O & _).
  - pose proof (immediate_frame env inspect_data frame0 I)
      as (_ & _ & _ & _ & H).
    cbv zeta in H. rewrite E in H. destruct H as [[=] | (e & [= <-] & [=])].
Qed.

(** A cancellation that arrives while [create_subprocess_exec] is awaited
    finds [process] unbound in the handler: the probe ends with
    [UnboundLocalError], not with [CancelledError]. *)
Example cancelled_while_spawning :
  _is_healthy (mkPenv hangs (CancelAfter 0)) web_exit3 frame0 =
    (mkFrame false 0 true
       [Log INFO (Checking (JStr "/web") (JStr "4f2a"));
        Spawn ["docker"; "exec"; "4f2a"; "/bin/sh"; "-c"; "exit 3"];
        Kill; Reaped;
        Log WARNING (TimeoutExceeded (JStr "/web") (JStr "4f2a"))],
     Raise (UnboundLocalError "process")).
Proof. reflexivity. Qed.

(** ** The inspector *)

(** C5, as the code has it.  The inspector starts the one process
    [docker inspect] with all the identifiers and returns what the decoder
    makes of its output; it raises, and the run with it, exactly when the
    decoder does.  Neither the exit status nor the identifiers take part
    in the result: the run is the same whatever the exit status.  The
    scheduler makes one probe task of each entry returned. *)
Theorem inspect_returns_decoded_output w container_ids :
  fst (_inspect_containers w container_ids) =
    [Spawn ("docker" :: "inspect" :: container_ids); Reaped] /\
  snd (_inspect_containers w container_ids) =
    match inspect_output (docker_inspect w container_ids) with
    | Some v => Ret v
    | None => Raise ValueError
    end /\
  (forall timeout fuel,
     inspect_output (docker_inspect w container_ids) = None ->
     option_map fst (_check_containers w container_ids timeout fuel) =
       Some (Raised ValueError)) /\
  (forall rc timeout fuel,
     _inspect_containers (with_exit_status rc w) container_ids =
       _inspect_containers w container_ids /\
     _check_containers (with_exit_status rc w) container_ids timeout fuel =
       _check_containers w container_ids timeout fuel) /\
  (forall records,
     List.length (probes 0 records) = List.length records /\
     map coro (probes 0 records) =
       map (fun nd => IsHealthy (fst nd) (snd nd))
         (combine (seq 0 (List.length records)) records)).
Proof.
  split; [reflexivity | ]. split; [reflexivity | ]. split; [ | split].
  - intros timeout fuel E. unfold _check_containers, _inspect_containers.
    now rewrite E.
  - intros rc timeout fuel. split; reflexivity.
  - intros records. generalize 0 as k.
    induction records as [ | d l IH]; intros k; cbn; [now split | ].
    destruct (IH (S k)) as [H1 H2].
    split; [now rewrite H1 | now rewrite H2].
Qed.

(** C5, as stated, fails: the inspection of a name that no container has
    exits with 1 and answers none of the identifiers, and the inspector
    returns the empty list all the same; the whole run then returns
    normally, without a single probe. *)
Lemma inspect_ignores_exit_status :
  inspect_returncode (docker_inspect no_such_container ["ghost"]) = 1%Z /\
  snd (_inspect_containers no_such_container ["ghost"]) = Ret (JList []) /\
  option_map (fun r => (fst r, exit_status (fst r)))
    (_check_containers no_such_container ["ghost"] None 1) =
    Some (Returned, 0%Z).
Proof. repeat split. Qed.

(** ** The timeout *)

Lemma step_timeout_zero w c : step w (Some 0%Z) c = step w None c.
Proof. reflexivity. Qed.

Lemma run_timeout_zero w fuel : forall c,
  run w (Some 0%Z) fuel c = run w None fuel c.
Proof.
  induction fuel as [ | fuel IH]; intros c; cbn [run]; [reflexivity | ].
  rewrite step_timeout_zero. destruct (fst c); try reflexivity;
    destruct (step w None c); auto.
Qed.

Lemma timerless_step w timeout c c' :
  timerless c -> step w timeout c = Some c' -> timerless c'.
Proof.
  destruct c as [[ | [ | f done] | | o] s]; intros (P & D & H);
    cbn [live fst snd] in *; unfold step.
  - destruct (pending s) as [ | t rest] eqn:E.
    + intros [= <-]. repeat split; cbn [live fst snd]; now rewrite ?E.
    + destruct (truthy_timeout timeout && _).
      * intros [= <-]. repeat split; cbn [live fst snd]; now rewrite ?E.
      * rewrite <- E.
        destruct (done_of w (waits s) (pending s)) as [ | f done] eqn:F;
          [discriminate | ].
        intros [= <-]. rewrite <- F. repeat split; cbn [live fst snd pending];
          [ | exact D].
        apply Forall_forall. intros x [Hx | Hx]%in_app_or.
        -- apply pending_of_In in Hx as [Hx _]. rewrite E in Hx.
           rewrite Forall_forall in P. now apply P.
        -- apply done_of_In in Hx as [Hx _]. rewrite E in Hx.
           rewrite Forall_forall in P. now apply P.
  - rewrite app_nil_r in P. rewrite D.
    destruct (pending s) eqn:E; intros [= <-]; repeat split;
      cbn [live fst snd]; now rewrite ?E.
  - assert (Pf : is_probe f = true).
    { rewrite Forall_forall in P. apply P, in_elt. }
    assert (P' : Forall (fun t => is_probe t = true) (pending s ++ done)).
    { eapply incl_Forall; [ | exact P].
      intros x [Hx | Hx]%in_app_or; apply in_or_app;
        [now left | right; now right]. }
    pose proof (result_cases w f) as R.
    destruct (result w f) as [evs [[d v] | e | ]]; cbn [snd] in R.
    + destruct v as [[ | ] | ]; intros [= <-]; repeat split;
        cbn [live fst snd pending timedout]; try assumption.
      rewrite <- app_assoc. cbn [app].
      apply Forall_forall. intros x [Hx | [<- | Hx]]%in_app_or;
        try reflexivity; rewrite Forall_forall in P'; apply P', in_or_app;
        [now left | now right].
    + destruct (exn_eqb_Timeout e) eqn:T; [congruence | ].
      intros [= <-]. repeat split; cbn [live fst snd pending timedout];
        try assumption.
      now apply Forall_app in P' as [P' _].
    + discriminate.
  - destruct H.
  - intros [= <-]. now repeat split.
Qed.

Lemma timerless_run w timeout fuel : forall c o s,
  timerless c -> run w timeout fuel c = Some (o, s) ->
  timerless (Halted o, s).
Proof.
  induction fuel as [ | fuel IH]; intros [p s0] o s I; cbn [run fst snd].
  - destruct p; try discriminate. now intros [= <- <-].
  - destruct p; try (now intros [= <- <-]);
      (destruct (step w timeout _) as [c1 | ] eqn:E; [ | discriminate];
       apply IH; now apply (timerless_step _ _ _ _ I E)).
Qed.

(** C10.  With the timeout 0 the loop is entered with probe tasks only, the
    run is step for step the run without a timeout, and it does not end
    with [TimeoutError]. *)
Theorem timeout_zero_is_no_timeout w containers fuel :
  (forall records,
     first_tasks (Some 0%Z) records = first_tasks None records /\
     Forall (fun t => is_probe t = true) (first_tasks (Some 0%Z) records)) /\
  _check_containers w containers (Some 0%Z) fuel =
    _check_containers w containers None fuel /\
  no_timeout_failure (_check_containers w containers (Some 0%Z) fuel) = true.
Proof.
  assert (F : forall records,
            Forall (fun t => is_probe t = true)
              (first_tasks (Some 0%Z) records)).
  { intros records. unfold first_tasks. cbn. rewrite app_nil_r.
    apply probes_are_probes. }
  split; [intros records; split; [reflexivity | apply F] | ].
  split.
  { unfold _check_containers.
    destruct (_inspect_containers w containers) as [evs [v | e | ]];
      [ | reflexivity | reflexivity].
    destruct (iterate v) as [e | records]; [reflexivity | ].
    apply run_timeout_zero. }
  unfold _check_containers.
  destruct (_inspect_containers w containers) as [evs [v | e | ]] eqn:I;
    try reflexivity.
  - destruct (iterate v) as [e | records] eqn:J.
    + destruct v; cbn in J; try discriminate; now injection J as <-.
    + destruct (run w (Some 0%Z) fuel _) as [[o s] | ] eqn:R; [ | reflexivity].
      apply timerless_run in R.
      * destruct R as (_ & _ & R). cbn [fst] in R. cbn.
        destruct o as [ | e]; [reflexivity | now rewrite R].
      * repeat split. cbn [live fst snd start pending]. apply F.
  - unfold _inspect_containers in I.
    destruct (inspect_output _); [discriminate | ].
    injection I as _ <-. reflexivity.
Qed.

(** ** Runs *)

(** [_check_containers] is the inspection followed by the loop on one probe
    task for each entry. *)
Lemma check_containers_run w containers timeout fuel v records :
  inspect_output (docker_inspect w containers) = Some v ->
  iterate v = inr records ->
  _check_containers w containers timeout fuel =
    run w timeout fuel
      (start timeout records
         [(Main, Spawn ("docker" :: "inspect" :: containers));
          (Main, Reaped)]).
Proof.
  intros I J. unfold _check_containers, _inspect_containers.
  now rewrite I, J.
Qed.

Lemma run_after_steps w timeout n : forall m c c' r,
  steps w timeout n c = Some c' -> run w timeout m c' = Some r ->
  run w timeout (n + m) c = Some r.
Proof.
  induction n as [ | n IH]; intros m c c' r; cbn [steps].
  - now intros [= <-].
  - destruct (step w timeout c) as [c1 | ] eqn:E; [ | discriminate].
    intros S R. cbn [Nat.add run].
    destruct c as [[ | done | | o] s]; cbn [fst snd];
      try (rewrite E; now apply (IH m c1 c')).
    cbn in E. injection E as <-.
    assert (H : forall k, steps w timeout k (Halted o, s) = Some (Halted o, s)).
    { induction k; [reflexivity | exact IHk]. }
    rewrite H in S. injection S as <-.
    destruct m; cbn in R; exact R.
Qed.

Lemma run_halted w timeout fuel o s :
  run w timeout fuel (Halted o, s) = Some (o, s).
Proof. now destruct fuel. Qed.

Lemma run_more w timeout m : forall n c r,
  run w timeout n c = Some r -> n <= m -> run w timeout m c = Some r.
Proof.
  induction m as [ | m IH]; intros n c r R L.
  - now replace n with 0 in R by lia.
  - destruct n as [ | n]; cbn [run] in *.
    + destruct (fst c); try discriminate. exact R.
    + destruct (fst c); try exact R;
        (destruct (step w timeout c) as [c1 | ]; [ | discriminate];
         apply (IH n); [exact R | lia]).
Qed.

Section Runs.

Variable w : world.
Variable timeout : option Z.
Variable records : list json.
Variable tr0 : list (origin * event).

#[local] Abbreviation Start := (start timeout records tr0).





Lemma identifiers_slots l :
  Forall (record_of records) l ->
  identifiers l =
    map (fun slot => match nth_error records slot with
                     | Some d => subscript d "Id"
                     | None => inl IndexError
                     end) (slots l).
Proof.
  induction l as [ | t l IH]; intros R; [reflexivity | ].
  change (t :: l) with ([t] ++ l).
  unfold identifiers, slots in *. rewrite !flat_map_app, map_app.
  rewrite (IH (Forall_inv_tail R)). f_equal.
  apply Forall_inv in R. unfold record_of in R. cbn.
  destruct (coro t) as [z | slot d]; [reflexivity | ]. cbn. now rewrite R.
Qed.

(** When the entries of the inspection output have pairwise
    different identifiers, no two pending probe tasks are for the same
    identifier. *)
Lemma one_probe_per_identifier n p s :
  NoDup (map (fun d => subscript d "Id") records) ->
  steps w timeout n Start = Some (p, s) ->
  NoDup (identifiers (pending s)).
Proof.
  intros D S.
  pose proof (inv_steps w timeout records tr0 n _ _
                (inv_start timeout records tr0) S) as [[_ _ R L _ _] _].
  assert (El : exists done, live (p, s) = pending s ++ done).
  { destruct p; cbn [live fst snd]; eauto; exists []; now rewrite app_nil_r. }
  destruct El as [done El]. rewrite El in *.
  rewrite slots_app in L. apply NoDup_app_remove_r in L.
  apply Forall_app in R as [R _].
  rewrite (identifiers_slots _ R).
  apply NoDup_map_NoDup_ForallPairs; [ | exact L].
  intros x y Hx Hy E.
  assert (V : forall z, In z (slots (pending s)) ->
                exists d, nth_error records z = Some d).
  { intros z (t & d & Ht & C)%slots_In. rewrite Forall_forall in R.
    specialize (R t Ht). unfold record_of in R. rewrite C in R. eauto. }
  destruct (V x Hx) as [dx Ex]. destruct (V y Hy) as [dy Ey].
  rewrite Ex, Ey in E.
  apply (proj1 (NoDup_nth_error _) D).
  - rewrite length_map. apply nth_error_Some. congruence.
  - rewrite !nth_error_map, Ex, Ey. cbn. now rewrite E.
Qed.



End Runs.

(** ** The timer and the last probe in one wait cycle *)

Lemma wait_takes_both w n a b :
  tid a <> tid b ->
  finished w n a = true -> finished w n b = true ->
  pending_of w n [a; b] = [] /\
  (done_of w n [a; b] = [a; b] \/ done_of w n [a; b] = [b; a]).
Proof.
  intros N Fa Fb.
  assert (P : pending_of w n [a; b] = []).
  { unfold pending_of. cbn [filter]. now rewrite Fa, Fb. }
  split; [exact P | ].
  assert (I : NoDup (map tid [a; b])).
  { cbn [map]. constructor; [ | constructor; [ | constructor]];
      cbn [In]; intuition. }
  pose proof (wait_partition w n [a; b] I) as W. rewrite P in W.
  cbn [app] in W. apply Permutation_sym in W.
  destruct (Permutation_length_2_inv W) as [-> | ->]; auto.
Qed.

(** C4, as the code has it.  When the timer and the only pending probe are
    done in the same wait cycle, in either order: an unhealthy verdict
    puts a new probe task in the list, which is cancelled before it has
    run, and the run ends with [TimeoutError]; a healthy or not applicable
    verdict leaves the list empty, and the run returns normally; an
    exception of the probe ends the run.  In every case nothing is left in
    flight, nothing was done but what the done probe did, and that probe
    has waited for the process it started. *)
Theorem timer_and_last_probe_together w timeout s p t slot d z :
  coro p = IsHealthy slot d -> coro t = Timeout z -> tid p <> tid t ->
  pending s = [p; t] \/ pending s = [t; p] ->
  finished w (waits s) p = true -> finished w (waits s) t = true ->
  exists s',
    run w timeout 7 (AtWhile, s) =
      Some (match snd (result w p) with
            | Ret (_, Some false) => Raised TimeoutError
            | Ret (_, _) => Returned
            | Raise e => Raised e
            | Blocked => Returned
            end, s') /\
    pending s' = [] /\
    cancelled s' =
      cancelled s ++
      match snd (result w p) with
      | Ret (_, Some false) => [next_id s]
      | _ => []
      end /\
    trace s' = trace s ++ tagged (tid p) (fst (result w p)) /\
    settled (fst (result w p)).
Proof.
  intros Cp Ct N E Fp Ft.
  assert (Rt : result w t = ([], Raise TimeoutError)).
  { unfold result. now rewrite Ct. }
  pose proof (result_cases w p) as RC.
  assert (NB : snd (result w p) <> Blocked).
  { unfold finished in Fp. unfold result. rewrite Cp in *.
    destruct (probe w (tid p) d NoCancel) as [f [v | e | ]];
      cbn [snd]; discriminate. }
  assert (W : pending_of w (waits s) (pending s) = [] /\
              (done_of w (waits s) (pending s) = [p; t] \/
               done_of w (waits s) (pending s) = [t; p])).
  { destruct E as [-> | ->].
    - now apply wait_takes_both.
    - destruct (wait_takes_both w (waits s) t p) as [P D]; auto.
      split; [exact P | tauto]. }
  destruct W as [P D].
  assert (L : (List.length (pending s) =? 1)%nat = false)
    by (destruct E as [-> | ->]; reflexivity).
  assert (Hstep : exists a b, done_of w (waits s) (pending s) = [a; b] /\
            step w timeout (AtWhile, s) =
              Some (InFor [a; b],
                    mkSession [] (timedout s) (next_id s) (S (waits s))
                      (next_id s) (reports s) (cancelled s) (trace s))).
  { unfold step. rewrite L, andb_false_r, P.
    destruct E as [E | E]; rewrite E; rewrite <- E;
      destruct D as [D | D]; rewrite D; eauto. }
  destruct Hstep as (a & b & D' & St).
  cbn [run fst snd]. rewrite St. clear St.
  pose proof (result_settled w p NB) as Se.
  destruct (result w p) as [evs r] eqn:Rp. cbn [fst snd] in *.
  assert (Fresh : forall slot' d', cancel_await w (next_id s)
            (mkTask (next_id s) (IsHealthy slot' d')) =
            ([], Raise CancelledError)).
  { intros. unfold cancel_await. cbn [coro tid]. now rewrite Nat.leb_refl. }
  destruct D as [D | D]; rewrite D in D'; injection D' as <- <-;
    go; rewrite ?Rp, ?Rt; go.
  - destruct r as [[d' [[ | ] | ]] | e | ]; try (now destruct NB);
      go; rewrite ?Rt; go; rewrite ?Fresh; go.
    1-3: ends.
    destruct (exn_eqb_Timeout e) eqn:T;
      [unfold is_probe in RC; now rewrite Cp in RC | ].
    go. ends.
  - destruct r as [[d' [[ | ] | ]] | e | ]; try (now destruct NB);
      go; rewrite ?Rp; go; rewrite ?Fresh; go.
    1-3: ends.
    destruct (exn_eqb_Timeout e) eqn:T;
      [unfold is_probe in RC; now rewrite Cp in RC | ].
    go. ends.
Qed.

(** ** The kind of check *)

Lemma index0_slice1 v x : index0 v = inr x -> exists y, slice1 v = inr y.
Proof.
  destruct v as [ | | | [ | c r] | [ | a l] | ]; cbn; try discriminate;
    eauto.
Qed.

(** A tag that is neither [CMD-SHELL] nor [CMD]: the probe raises in its
    first step, having logged that it checks the container. *)
Lemma unsupported_kind_raises
    env inspect_data container_id container_name config healthcheck test
    hc_type f :
  subscript inspect_data "Id" = inr container_id ->
  subscript inspect_data "Name" = inr container_name ->
  subscript inspect_data "Config" = inr config ->
  dict_get config "Healthcheck" = inr healthcheck ->
  truthy healthcheck = true ->
  subscript healthcheck "Test" = inr test ->
  index0 test = inr hc_type ->
  str_eq hc_type "CMD-SHELL" = false -> str_eq hc_type "CMD" = false ->
  _is_healthy env inspect_data f =
    (checking container_name container_id f,
     Raise (NotImplementedError hc_type)).
Proof.
  intros HId HName HConfig HGet HTruthy HTest HType N1 N2.
  destruct (index0_slice1 _ _ HType) as [hc_args HArgs].
  rewrite (is_healthy_configured env inspect_data container_id container_name
             config healthcheck test hc_type hc_args f
             HId HName HConfig HGet HTruthy HTest HType HArgs).
  unfold try_statement, try_body, dispatch. rewrite N1, N2. reflexivity.
Qed.

(** C6.  For a record with a health check configured: a [CMD-SHELL] test
    makes the probe start [docker exec <id> /bin/sh -c <command>] with the
    one string after the tag; a [CMD] test makes it start
    [docker exec <id>] followed by the strings after the tag; every other
    tag makes it raise [NotImplementedError] on that tag without starting a
    process, and the scheduler, when it takes the result of such a task,
    leaves the function with that exception, with the pending list, the
    task counter and the verdicts as they were: nothing is tried again. *)
Theorem check_kind_dispatch
    inspect_data container_id container_name config healthcheck test :
  subscript inspect_data "Id" = inr container_id ->
  subscript inspect_data "Name" = inr container_name ->
  subscript inspect_data "Config" = inr config ->
  dict_get config "Healthcheck" = inr healthcheck ->
  truthy healthcheck = true ->
  subscript healthcheck "Test" = inr test ->
  (forall env id command rest,
     container_id = JStr id ->
     test = JList (JStr "CMD-SHELL" :: JStr command :: rest) ->
     spawned (events (fst (_is_healthy env inspect_data frame0))) =
       [["docker"; "exec"; id; "/bin/sh"; "-c"; command]]) /\
  (forall env id args,
     container_id = JStr id ->
     test = JList (JStr "CMD" :: map JStr args) ->
     spawned (events (fst (_is_healthy env inspect_data frame0))) =
       ["docker" :: "exec" :: id :: args]) /\
  (forall hc_type,
     index0 test = inr hc_type ->
     str_eq hc_type "CMD-SHELL" = false -> str_eq hc_type "CMD" = false ->
     (forall env,
        _is_healthy env inspect_data frame0 =
          (checking container_name container_id frame0,
           Raise (NotImplementedError hc_type))) /\
     (forall w timeout f done s fuel slot,
        coro f = IsHealthy slot inspect_data ->
        exists s',
          run w timeout (S fuel) (InFor (f :: done), s) =
            Some (Raised (NotImplementedError hc_type), s') /\
          pending s' = pending s /\ next_id s' = next_id s /\
          reports s' = reports s)).
Proof.
  intros HId HName HConfig HGet HTruthy HTest.
  split; [ | split].
  - intros env id command rest -> ->.
    apply (launchable_spawned env inspect_data container_name (JStr id)).
    eapply runnable_launchable; try eassumption. apply runnable_shell.
  - intros env id args -> ->.
    apply (launchable_spawned env inspect_data container_name (JStr id)).
    eapply runnable_launchable; try eassumption. apply runnable_exec.
  - intros hc_type HType N1 N2.
    assert (R : forall env,
              _is_healthy env inspect_data frame0 =
                (checking container_name container_id frame0,
                 Raise (NotImplementedError hc_type))).
    { intros env. now apply (unsupported_kind_raises env inspect_data
                               container_id container_name config
                               healthcheck test). }
    split; [exact R | ].
    intros w timeout f done s fuel slot Cf.
    cbn [run fst snd]. unfold step, result, probe. rewrite Cf, R.
    cbn [exn_eqb_Timeout]. rewrite run_halted. eexists.
    split; [reflexivity | ]. now repeat split.
Qed.

Lemma check_kind_dispatch_witness :
  (forall env id command rest,
     JStr "77b0" = JStr id ->
     JList [JStr "NONE"] = JList (JStr "CMD-SHELL" :: JStr command :: rest) ->
     spawned (events (fst (_is_healthy env cache_none frame0))) =
       [["docker"; "exec"; id; "/bin/sh"; "-c"; command]]) /\
  (forall env id args,
     JStr "77b0" = JStr id ->
     JList [JStr "NONE"] = JList (JStr "CMD" :: map JStr args) ->
     spawned (events (fst (_is_healthy env cache_none frame0))) =
       ["docker" :: "exec" :: id :: args]) /\
  (forall hc_type,
     index0 (JList [JStr "NONE"]) = inr hc_type ->
     str_eq hc_type "CMD-SHELL" = false -> str_eq hc_type "CMD" = false ->
     (forall env,
        _is_healthy env cache_none frame0 =
          (checking (JStr "/cache") (JStr "77b0") frame0,
           Raise (NotImplementedError hc_type))) /\
     (forall w timeout f done s fuel slot,
        coro f = IsHealthy slot cache_none ->
        exists s',
          run w timeout (S fuel) (InFor (f :: done), s) =
            Some (Raised (NotImplementedError hc_type), s') /\
          pending s' = pending s /\ next_id s' = next_id s /\
          reports s' = reports s)).
Proof.
  apply (check_kind_dispatch cache_none (JStr "77b0") (JStr "/cache")
           (JDict [("Image", JStr "nginx");
                   ("Healthcheck", JDict [("Test", JList [JStr "NONE"])])])
           (JDict [("Test", JList [JStr "NONE"])])
           (JList [JStr "NONE"])); reflexivity.
Defined.

(** The three kinds, evaluated: the shell check, the argument vector, and
    the disabled check, which ends the whole run in its first wait cycle
    while the probe of the other container is still in flight. *)
Example dispatch_shell :
  spawned (events (fst (_is_healthy (mkPenv (exits 0) NoCancel)
                          web_exit3 frame0))) =
    [["docker"; "exec"; "4f2a"; "/bin/sh"; "-c"; "exit 3"]].
Proof. reflexivity. Qed.

Example dispatch_exec :
  spawned (events (fst (_is_healthy (mkPenv (exits 0) NoCancel)
                          db_ready frame0))) =
    [["docker"; "exec"; "9c1e"; "pg_isready"; "-q"]].
Proof. reflexivity. Qed.

Example unsupported_kind_aborts_run :
  option_map (fun r => (fst r, map tid (pending (snd r)), reports (snd r)))
    (_check_containers unsupported_kind ["db"; "cache"] None 3) =
    Some (Raised (NotImplementedError (JStr "NONE")), [0], []).
Proof. reflexivity. Qed.

(** ** Runs of the sample worlds *)


(** The scenario of the specification: A has no check, the check of B
    exits 1 and then 0.  The run returns after one more probe of B: three
    tasks were created and three verdicts taken. *)
Example one_extra_probe :
  option_map (fun r => (fst r, next_id (snd r), reports (snd r)))
    (_check_containers second_try ["a"; "b"] None 12) =
    Some (Returned, 3, [(0, None); (1, Some false); (1, Some true)]).
Proof. reflexivity. Qed.




(** The scenario of the specification: the check never exits 0 and the
    timeout is one second.  The run ends with [TimeoutError]; the probe in
    flight (task 2) was cancelled, and its process killed and waited for. *)
Example never_healthy_times_out :
  option_map (fun r => (fst r, cancelled (snd r),
                        filter (fun oe => match fst oe with
                                          | Task 2 => silent (snd oe)
                                          | _ => false
                                          end) (trace (snd r))))
    (_check_containers never_healthy ["web"] (Some 1%Z) 12) =
    Some (Raised TimeoutError, [2],
          [(Task 2, Log INFO (Checking (JStr "/web") (JStr "4f2a")));
           (Task 2, Log WARNING (TimeoutExceeded (JStr "/web") (JStr "4f2a")));
           (Task 2, Kill); (Task 2, Reaped)]).
Proof. reflexivity. Qed.

(** The case that the hypothesis on [progress] keeps out: the cancellation
    reaches the probe in flight while it creates its process; the probe
    ends with [UnboundLocalError], which the cancellation loop does not
    catch, and the run ends with it instead of [TimeoutError]. *)
Example timeout_while_spawning :
  option_map fst
    (_check_containers caught_spawning ["web"] (Some 1%Z) 12) =
    Some (Raised (UnboundLocalError "process")).
Proof. reflexivity. Qed.

(** C4, as stated, fails: the timer (task 1) and the last pending probe
    (task 0) are done in the same wait cycle, the verdict is healthy, and
    the run returns normally instead of reporting the timeout. *)
Lemma photo_finish_returns :
  ready photo_finish 0 = [0; 1] /\
  option_map (fun r => (fst r, timedout (snd r), reports (snd r)))
    (_check_containers photo_finish ["web"] (Some 5%Z) 12) =
    Some (Returned, true, [(0, Some true)]).
Proof. split; reflexivity. Qed.

Lemma timer_and_last_probe_together_witness :
  exists s',
    run photo_finish (Some 5%Z) 7 (AtWhile, photo_finish_start) =
      Some (Returned, s') /\
    pending s' = [] /\
    cancelled s' = [] /\
    trace s' =
      tagged 0
        (fst (result photo_finish (mkTask 0 (IsHealthy 0 web_exit3)))) /\
    settled (fst (result photo_finish (mkTask 0 (IsHealthy 0 web_exit3)))).
Proof.
  apply (timer_and_last_probe_together photo_finish (Some 5%Z)
           photo_finish_start (mkTask 0 (IsHealthy 0 web_exit3))
           (mkTask 1 (Timeout 5)) 0 web_exit3 5%Z).
  - reflexivity.
  - reflexivity.
  - discriminate.
  - left. reflexivity.
  - reflexivity.
  - reflexivity.
Defined.

(** The other outcome of the same wait cycle: with an unhealthy verdict the
    new probe task (task 2) is cancelled before it has run, and the run
    ends with [TimeoutError]. *)
Example photo_finish_unhealthy :
  option_map (fun r => (fst r, cancelled (snd r), pending (snd r),
                        spawned (map snd (trace (snd r)))))
    (_check_containers
       (mkWorld (docker_inspect photo_finish) (fun _ => exits 1)
          (ready photo_finish) (progress photo_finish))
       ["web"] (Some 5%Z) 12) =
    Some (Raised TimeoutError, [2], [],
          [["docker"; "inspect"; "web"];
           ["docker"; "exec"; "4f2a"; "/bin/sh"; "-c"; "exit 3"]]).
Proof. reflexivity. Qed.

(** * More on the probe *)

(** ** What a probe emits *)

Lemma emits_ret P A (a : A) : emits P (ret a).
Proof. intros f f' r [= <- <-]. exists []. now rewrite app_nil_r. Qed.

Lemma emits_raise P A e : emits P (@raise A e).
Proof. intros f f' r [= <- <-]. exists []. now rewrite app_nil_r. Qed.

Lemma emits_block P A : emits P (@block A).
Proof. intros f f' r [= <- <-]. exists []. now rewrite app_nil_r. Qed.

Lemma emits_lift P A (r : exn + A) : emits P (lift r).
Proof. destruct r; [apply emits_raise | apply emits_ret]. Qed.

Lemma emits_emit (P : event -> bool) e : P e = true -> emits P (emit e).
Proof.
  intros H f f' r [= <- <-]. exists [e]. cbn [events forallb].
  now rewrite H.
Qed.

Lemma emits_set_process P : emits P set_process.
Proof. intros f f' r [= <- <-]. exists []. cbn. now rewrite app_nil_r. Qed.

Lemma emits_suspend P env ready : emits P (suspend env ready).
Proof.
  intros f f' r H. exists []. rewrite app_nil_r. split; [ | reflexivity].
  destruct (suspend_cases env ready f) as [E | [[_ E] | [_ E]]];
    rewrite E in H; now injection H as <- <-.
Qed.

Lemma emits_bind P A B (m : M A) (k : A -> M B) :
  emits P m -> (forall a, emits P (k a)) -> emits P (bind m k).
Proof.
  intros Hm Hk f f' r. unfold bind.
  destruct (m f) as [f1 [a | e | ]] eqn:E;
    destruct (Hm _ _ _ E) as (evs & E1 & P1).
  - intros H. destruct (Hk a _ _ _ H) as (evs' & E2 & P2).
    exists (evs ++ evs'). rewrite E2, E1, app_assoc. split; [reflexivity | ].
    rewrite forallb_app. now rewrite P1, P2.
  - intros [= <- <-]. now exists evs.
  - intros [= <- <-]. now exists evs.
Qed.

(** A [try] statement emits what its body and its handler do; the handler
    counts only where the body can raise what it catches. *)
Lemma emits_try_except P A (body handler : M A) catches :
  emits P body ->
  (forall f f' e, body f = (f', Raise e) -> catches e = false) \/
  emits P handler ->
  emits P (try_except body catches handler).
Proof.
  intros Hb Hh f f' r. unfold try_except.
  destruct (body f) as [f1 [a | e | ]] eqn:E;
    destruct (Hb _ _ _ E) as (evs & E1 & P1).
  - intros [= <- <-]. now exists evs.
  - destruct (catches e) eqn:C.
    + destruct Hh as [Hh | Hh]; [rewrite (Hh _ _ _ E) in C; discriminate | ].
      intros H. destruct (Hh _ _ _ H) as (evs' & E2 & P2).
      exists (evs ++ evs'). rewrite E2, E1, app_assoc.
      split; [reflexivity | ]. rewrite forallb_app. now rewrite P1, P2.
    + intros [= <- <-]. now exists evs.
  - intros [= <- <-]. now exists evs.
Qed.

Lemma emits_drain P env name id rs :
  (forall s line, P (Log DEBUG (Output name id s line)) = true) ->
  forall pending, emits P (drain env name id pending rs).
Proof.
  intros H. induction rs as [ | [s line] rs IH]; intros [ | p pending];
    cbn [drain]; try apply emits_ret.
  - apply emits_bind; [apply emits_suspend | intros _; apply emits_block].
  - destruct (mem_stream s (p :: pending)); [ | apply IH].
    apply emits_bind; [apply emits_suspend | intros _].
    destruct (negb (line =? "")); [ | apply IH].
    apply emits_bind; [now apply emits_emit | intros _; apply IH].
Qed.

Lemma emits_process_wait P env :
  P Reaped = true -> emits P (process_wait env).
Proof.
  intros H. unfold process_wait. destruct (returncode (behaviour env)).
  - apply emits_bind; [apply emits_suspend | intros _].
    apply emits_bind; [now apply emits_emit | intros _; apply emits_ret].
  - apply emits_bind; [apply emits_suspend | intros _; apply emits_block].
Qed.

Lemma emits_process_kill P env :
  P Kill = true -> emits P (process_kill env).
Proof.
  intros H f f' r. unfold process_kill.
  destruct (process f); [destruct (gone (behaviour env)) | ].
  - apply emits_raise.
  - now apply emits_emit.
  - apply emits_raise.
Qed.

(** ** Probes that are not cancelled *)

Lemma placid_ret A (a : A) : placid (ret a).
Proof. intros f f' r [= <- <-]. discriminate. Qed.

Lemma placid_block A : placid (@block A).
Proof. intros f f' r [= <- <-]. discriminate. Qed.

Lemma placid_raise A e : exn_eqb_Cancelled e = false -> placid (@raise A e).
Proof. intros H f f' r [= <- <-] [= ->]. discriminate. Qed.

Lemma placid_lift A (r : exn + A) :
  (forall e, r = inl e -> signal e = false) -> placid (lift r).
Proof.
  destruct r as [e | a]; intros H; [ | apply placid_ret].
  apply placid_raise, signal_cancelled. now apply H.
Qed.

Lemma placid_emit e : placid (emit e).
Proof. intros f f' r [= <- <-]. discriminate. Qed.

Lemma placid_set_process : placid set_process.
Proof. intros f f' r [= <- <-]. discriminate. Qed.

Lemma placid_suspend env ready :
  cancel env = NoCancel -> placid (suspend env ready).
Proof.
  intros C f f' r. unfold suspend. rewrite C.
  destruct ready; intros [= <- <-]; discriminate.
Qed.

Lemma placid_bind A B (m : M A) (k : A -> M B) :
  placid m -> (forall a, placid (k a)) -> placid (bind m k).
Proof.
  intros Hm Hk f f' r. unfold bind.
  destruct (m f) as [f1 [a | e | ]] eqn:E.
  - apply Hk.
  - intros [= <- <-] [= ->]. now apply (Hm _ _ _ E).
  - intros [= <- <-]. discriminate.
Qed.

Lemma placid_uncaught A (m : M A) f f' e :
  placid m -> m f = (f', Raise e) -> exn_eqb_Cancelled e = false.
Proof.
  intros H E. destruct e; try reflexivity. now destruct (H _ _ _ E).
Qed.

(** The handler of [CancelledError] is not reached from a placid body. *)
Lemma placid_try_except A (body handler : M A) :
  placid body -> placid (try_except body exn_eqb_Cancelled handler).
Proof.
  intros H f f' r. unfold try_except.
  destruct (body f) as [f1 [a | e | ]] eqn:E.
  - intros [= <- <-]. discriminate.
  - rewrite (placid_uncaught _ _ _ _ _ H E). intros [= <- <-].
    apply (H _ _ _ E).
  - intros [= <- <-]. discriminate.
Qed.

Lemma placid_drain env name id rs :
  cancel env = NoCancel ->
  forall pending, placid (drain env name id pending rs).
Proof.
  intros C. induction rs as [ | [s line] rs IH]; intros [ | p pending];
    cbn [drain]; try apply placid_ret.
  - apply placid_bind; [now apply placid_suspend | intros _].
    apply placid_block.
  - destruct (mem_stream s (p :: pending)); [ | apply IH].
    apply placid_bind; [now apply placid_suspend | intros _].
    destruct (negb (line =? "")); [ | apply IH].
    apply placid_bind; [apply placid_emit | intros _; apply IH].
Qed.

Lemma placid_process_wait env :
  cancel env = NoCancel -> placid (process_wait env).
Proof.
  intros C. unfold process_wait. destruct (returncode (behaviour env)).
  - apply placid_bind; [now apply placid_suspend | intros _].
    apply placid_bind; [apply placid_emit | intros _; apply placid_ret].
  - apply placid_bind; [now apply placid_suspend | intros _].
    apply placid_block.
Qed.

Lemma placid_create_subprocess_exec env args :
  cancel env = NoCancel -> placid (create_subprocess_exec env args).
Proof.
  intros C. unfold create_subprocess_exec.
  apply placid_bind; [ | intros argv].
  - apply placid_lift. intros e H. now rewrite (as_argv_TypeError _ _ H).
  - apply placid_bind; [apply placid_emit | intros _].
    apply placid_try_except. now apply placid_suspend.
Qed.

Lemma emits_create_subprocess_exec P env args :
  (forall argv, P (Spawn argv) = true) ->
  cancel env = NoCancel \/ (P Kill = true /\ P Reaped = true) ->
  emits P (create_subprocess_exec env args).
Proof.
  intros H1 H2. unfold create_subprocess_exec.
  apply emits_bind; [apply emits_lift | intros argv].
  apply emits_bind; [now apply emits_emit | intros _].
  apply emits_try_except; [apply emits_suspend | ].
  destruct H2 as [C | [K R]]; [left | right].
  - intros f f' e E.
    now apply (placid_uncaught _ _ _ _ _ (placid_suspend env true C) E).
  - apply emits_bind; [now apply emits_emit | intros _].
    apply emits_bind; [now apply emits_emit | intros _; apply emits_raise].
Qed.

(** The body of the [try] statement of a probe that is not cancelled does
    not end with [CancelledError]. *)
Lemma placid_body env container_name container_id hc_type hc_args :
  cancel env = NoCancel ->
  placid
    ((if str_eq hc_type "CMD-SHELL" then
        arg <- lift (index0 hc_args) ;;
        create_subprocess_exec env
          [JStr "docker"; JStr "exec"; container_id;
           JStr "/bin/sh"; JStr "-c"; arg] ;;
        set_process
      else if str_eq hc_type "CMD" then
        args <- lift (unpack hc_args) ;;
        create_subprocess_exec env
          (JStr "docker" :: JStr "exec" :: container_id :: args) ;;
        set_process
      else raise (NotImplementedError hc_type)) ;;
     drain env container_name container_id [stdout; stderr]
       (reads (behaviour env)) ;;
     process_wait env).
Proof.
  intros C. apply placid_bind; [ | intros _].
  - destruct (str_eq hc_type "CMD-SHELL"); [ | destruct (str_eq hc_type "CMD")].
    + apply placid_bind; [ | intros arg].
      * apply placid_lift. intros e. apply index0_no_signal.
      * apply placid_bind; [now apply placid_create_subprocess_exec | ].
        intros _. apply placid_set_process.
    + apply placid_bind; [ | intros args].
      * apply placid_lift. intros e. apply unpack_no_signal.
      * apply placid_bind; [now apply placid_create_subprocess_exec | ].
        intros _. apply placid_set_process.
    + now apply placid_raise.
  - apply placid_bind; [now apply placid_drain | intros _].
    now apply placid_process_wait.
Qed.

Lemma leveled_peaceful_Reaped (P : event -> bool) :
  (forall e, leveled e = true -> peaceful e = true -> P e = true) ->
  P Reaped = true.
Proof. intros H. now apply H. Qed.

(** Every event of a probe is one that [P] accepts, when [P] accepts the
    events of the lines outside the handlers and, unless the probe is not
    cancelled, those of the handlers too. *)
Lemma emits_is_healthy P env inspect_data :
  (forall e, leveled e = true -> peaceful e = true -> P e = true) ->
  cancel env = NoCancel \/ (forall e, leveled e = true -> P e = true) ->
  emits P (_is_healthy env inspect_data).
Proof.
  intros H1 H2. unfold _is_healthy.
  do 4 (apply emits_bind; [apply emits_lift | intros ?]).
  destruct (truthy _).
  - apply emits_bind; [apply emits_emit; now apply H1 | intros _].
    do 3 (apply emits_bind; [apply emits_lift | intros ?]).
    apply emits_bind; [ | intros rc].
    + apply emits_try_except.
      * apply emits_bind; [ | intros _].
        -- assert (Hc : forall args, emits P (create_subprocess_exec env args)).
           { intros args. apply emits_create_subprocess_exec.
             - intros argv. now apply H1.
             - destruct H2 as [C | H2]; [now left | right].
               split; [now apply H2 | now apply H1]. }
           destruct (str_eq _ "CMD-SHELL"); [ | destruct (str_eq _ "CMD")].
           ++ apply emits_bind; [apply emits_lift | intros ?].
              apply emits_bind; [apply Hc | intros _; apply emits_set_process].
           ++ apply emits_bind; [apply emits_lift | intros ?].
              apply emits_bind; [apply Hc | intros _; apply emits_set_process].
           ++ apply emits_raise.
        -- apply emits_bind; [ | intros _].
           ++ apply emits_drain. intros s line. now apply H1.
           ++ apply emits_process_wait. now apply H1.
      * destruct H2 as [C | H2]; [left | right].
        -- intros f f' e E.
           now apply (placid_uncaught _ _ _ _ _
                        (placid_body env _ _ _ _ C) E).
        -- apply emits_bind; [apply emits_emit; now apply H2 | intros _].
           apply emits_bind; [ | intros _].
           ++ apply emits_try_except;
                [apply emits_process_kill; now apply H2 | right].
              apply emits_ret.
           ++ apply emits_bind; [ | intros _; apply emits_raise].
              apply emits_bind; [apply emits_suspend | intros _].
              apply emits_emit. now apply H1.
    + apply emits_bind; [apply emits_emit; now apply H1 | intros _].
      apply emits_ret.
  - apply emits_bind; [apply emits_emit; now apply H1 | intros _].
    apply emits_ret.
Qed.

(** ** The drain loop *)








(** ** Processes, lines and verdicts of a probe *)








(** A check whose process exits with 0 while its output stays open never
    gets its verdict. *)
Example open_stream_blocks_the_probe :
  _is_healthy (mkPenv lingers NoCancel) web_exit3 frame0 =
    (mkFrame true 3 false
       [Log INFO (Checking (JStr "/web") (JStr "4f2a"));
        Spawn ["docker"; "exec"; "4f2a"; "/bin/sh"; "-c"; "exit 3"];
        Log DEBUG (Output (JStr "/web") (JStr "4f2a") stdout "started")],
     Blocked).
Proof. reflexivity. Qed.

(** X4. A probe that is not cancelled kills no process and logs no warning,
    whatever the record and the process, and it does not end with
    [CancelledError]. *)
Theorem uncancelled_probe_is_peaceful env inspect_data :
  cancel env = NoCancel ->
  forallb peaceful (events (fst (_is_healthy env inspect_data frame0))) =
    true /\
  snd (_is_healthy env inspect_data frame0) <> Raise CancelledError.
Proof.
  intros C. split.
  - destruct (emits_is_healthy peaceful env inspect_data
                (fun e _ H => H) (or_introl C) frame0 _ _
                (surjective_pairing _)) as (evs & E & P).
    now rewrite E.
  - pose proof (is_healthy_outcome env inspect_data) as O. cbn zeta in O.
    intros R. rewrite R in O. destruct O as [_ O].
    now destruct (O eq_refl).
Qed.

Lemma uncancelled_probe_is_peaceful_witness :
  forallb peaceful
    (events (fst (_is_healthy (mkPenv hangs NoCancel) web_exit3 frame0))) =
    true /\
  snd (_is_healthy (mkPenv hangs NoCancel) web_exit3 frame0) <>
    Raise CancelledError.
Proof.
  apply (uncancelled_probe_is_peaceful (mkPenv hangs NoCancel) web_exit3).
  reflexivity.
Defined.

(** ** Checks that cannot be run *)

(** X5. A health check that is configured without a [Test], or with an empty
    one: the probe logs that it is checking and raises [KeyError] on [Test],
    or [IndexError], before it enters the [try] statement; no process is
    started and nothing else is logged. *)
Theorem check_without_test_raises
    env inspect_data container_id container_name config kvs f :
  subscript inspect_data "Id" = inr container_id ->
  subscript inspect_data "Name" = inr container_name ->
  subscript inspect_data "Config" = inr config ->
  dict_get config "Healthcheck" = inr (JDict kvs) ->
  kvs <> [] ->
  (assoc "Test" kvs = None ->
   _is_healthy env inspect_data f =
     (checking container_name container_id f,
      Raise (KeyError (JStr "Test")))) /\
  (assoc "Test" kvs = Some (JList []) ->
   _is_healthy env inspect_data f =
     (checking container_name container_id f, Raise IndexError)).
Proof.
  intros HId HName HConfig HGet N.
  assert (HTruthy : truthy (JDict kvs) = true) by now destruct kvs.
  split; intros T; unfold _is_healthy;
    run_lift HId; run_lift HName; run_lift HConfig; run_lift HGet;
    rewrite HTruthy; run_emit; unfold bind at 1; cbn [subscript];
    rewrite T; reflexivity.
Qed.

Lemma check_without_test_raises_witness :
  _is_healthy (mkPenv (exits 0) NoCancel) interval_only frame0 =
    (checking (JStr "/job") (JStr "c0de") frame0,
     Raise (KeyError (JStr "Test"))).
Proof.
  refine (proj1 (check_without_test_raises (mkPenv (exits 0) NoCancel)
                   interval_only (JStr "c0de") (JStr "/job")
                   (JDict [("Healthcheck",
                            JDict [("Interval", JInt 5000000000)])])
                   [("Interval", JInt 5000000000)] frame0
                   eq_refl eq_refl eq_refl eq_refl _)
            eq_refl).
  discriminate.
Defined.

Lemma as_argv_cons s rest :
  as_argv (JStr s :: rest) =
    match as_argv rest with inr l => inr (s :: l) | inl e => inl e end.
Proof. reflexivity. Qed.

(** X6. Exceptions raised in the [try] statement other than the cancellation
    are not handled there. A [CMD-SHELL] check without a command raises
    [IndexError], and a check one of whose arguments is not a string raises
    [TypeError]: the probe has logged that it is checking, starts no
    process, and neither kills nor warns. *)
Theorem check_without_command_raises
    env inspect_data container_id container_name config healthcheck test f :
  subscript inspect_data "Id" = inr container_id ->
  subscript inspect_data "Name" = inr container_name ->
  subscript inspect_data "Config" = inr config ->
  dict_get config "Healthcheck" = inr healthcheck ->
  truthy healthcheck = true ->
  subscript healthcheck "Test" = inr test ->
  (test = JList [JStr "CMD-SHELL"] ->
   _is_healthy env inspect_data f =
     (checking container_name container_id f, Raise IndexError)) /\
  (forall args e,
     test = JList (JStr "CMD" :: args) ->
     as_argv (container_id :: args) = inl e ->
     _is_healthy env inspect_data f =
       (checking container_name container_id f, Raise TypeError)).
Proof.
  intros HId HName HConfig HGet HTruthy HTest. split.
  - intros ->.
    rewrite (is_healthy_configured env inspect_data container_id
               container_name config healthcheck _ (JStr "CMD-SHELL")
               (JList []) f HId HName HConfig HGet HTruthy HTest
               eq_refl eq_refl).
    reflexivity.
  - intros args e -> A.
    rewrite (is_healthy_configured env inspect_data container_id
               container_name config healthcheck _ (JStr "CMD")
               (JList args) f HId HName HConfig HGet HTruthy HTest
               eq_refl eq_refl).
    pose proof (as_argv_TypeError _ _ A) as ->.
    assert (A' : as_argv (JStr "docker" :: JStr "exec" :: container_id :: args)
                 = inl TypeError).
    { rewrite 2 as_argv_cons. now rewrite A. }
    unfold try_statement, try_body, dispatch. cbn [str_eq String.eqb].
    cbn [Ascii.eqb Bool.eqb unpack lift]. unfold bind at 1 2 3 4.
    cbn [ret]. unfold create_subprocess_exec. unfold bind at 1.
    rewrite A'. reflexivity.
Qed.

Lemma check_without_command_raises_witness :
  _is_healthy (mkPenv (exits 0) NoCancel) number_argument frame0 =
    (checking (JStr "/job") (JStr "c0de") frame0, Raise TypeError).
Proof.
  exact (proj2 (check_without_command_raises (mkPenv (exits 0) NoCancel)
                  number_argument (JStr "c0de") (JStr "/job")
                  (JDict [("Image", JStr "nginx");
                          ("Healthcheck",
                           JDict [("Test",
                                   JList [JStr "CMD"; JStr "sleep";
                                          JInt 1])])])
                  (JDict [("Test",
                           JList [JStr "CMD"; JStr "sleep"; JInt 1])])
                  (JList [JStr "CMD"; JStr "sleep"; JInt 1]) frame0
                  eq_refl eq_refl eq_refl eq_refl eq_refl eq_refl)
           [JStr "sleep"; JInt 1] TypeError eq_refl eq_refl).
Defined.

Example shell_without_command_raises :
  _is_healthy (mkPenv (exits 0) (CancelAfter 0)) shell_without_command
    frame0 =
    (checking (JStr "/job") (JStr "c0de") frame0, Raise IndexError).
Proof. reflexivity. Qed.

(** * More on the scheduler *)

Lemma steps_invariant (P : config -> Prop) w timeout :
  (forall c c', P c -> step w timeout c = Some c' -> P c') ->
  forall n c c', P c -> steps w timeout n c = Some c' -> P c'.
Proof.
  intros H. induction n as [ | n IH]; intros c c' I; cbn [steps].
  - now intros [= <-].
  - destruct (step w timeout c) as [c1 | ] eqn:E; [ | discriminate].
    apply IH. now apply (H c).
Qed.

(** A run that ends has taken finitely many steps to its end. *)
Lemma run_steps w timeout fuel : forall c o s,
  run w timeout fuel c = Some (o, s) ->
  exists n, steps w timeout n c = Some (Halted o, s).
Proof.
  induction fuel as [ | fuel IH]; intros [p s0] o s; cbn [run fst snd].
  - destruct p; try discriminate. intros [= <- <-]. now exists 0.
  - destruct p; try (intros [= <- <-]; now exists 0);
      (destruct (step w timeout _) as [c1 | ] eqn:E; [ | discriminate];
       intros R; destruct (IH _ _ _ R) as [n Hn]; exists (S n);
       cbn [steps]; now rewrite E).
Qed.

Lemma map_snd_tagged id evs : map snd (tagged id evs) = evs.
Proof.
  unfold tagged. rewrite map_map. cbn [snd]. apply map_id.
Qed.

Lemma peaceful_tagged tr id evs :
  forallb peaceful (map snd tr) = true -> forallb peaceful evs = true ->
  forallb peaceful (map snd (tr ++ tagged id evs)) = true.
Proof.
  intros H1 H2. rewrite map_app, map_snd_tagged, forallb_app.
  now rewrite H1, H2.
Qed.

(** What a task did when its result is taken holds no kill and no
    warning. *)
Lemma result_peaceful w t : forallb peaceful (fst (result w t)) = true.
Proof.
  unfold result. destruct (coro t) as [z | slot d]; [reflexivity | ].
  unfold probe.
  destruct (_is_healthy _ d frame0) as [f r] eqn:E. cbn [fst].
  destruct (emits_is_healthy peaceful (mkPenv (docker_exec w (tid t)) NoCancel)
              d (fun e _ H => H) (or_introl eq_refl) frame0 _ _ E)
    as (evs & -> & P).
  exact P.
Qed.

Ltac orderly_end P T RP :=
  repeat split; try congruence; try easy;
  try (let H := fresh in
       intros H; try (apply peaceful_tagged; [now apply P | exact RP]);
       try (destruct (T H) as (? & ? & ?));
       repeat split; try congruence; try easy).

Lemma orderly_step w timeout c c' :
  orderly c -> step w timeout c = Some c' -> orderly c'.
Proof.
  destruct c as [[ | [ | f done] | | o] s]; unfold orderly, step;
    cbn [fst snd]; intros (P & T & C).
  - destruct (pending s) as [ | t rest] eqn:E.
    + intros [= <-]. cbn [fst snd]. orderly_end P T I.
    + destruct (truthy_timeout timeout && _).
      * intros [= <-]. cbn [fst snd]. orderly_end P T I.
      * rewrite <- E.
        destruct (done_of w (waits s) (pending s)) as [ | f done];
          [discriminate | ].
        intros [= <-]. cbn [fst snd cancelled timedout trace].
        orderly_end P T I.
  - destruct (pending s) as [ | t rest]; [ | destruct (timedout s) eqn:D];
      intros [= <-]; cbn [fst snd]; orderly_end P T I.
  - pose proof (result_peaceful w f) as RP.
    destruct (result w f) as [evs [[d v] | e | ]]; cbn [fst] in RP.
    + destruct v as [[ | ] | ]; intros [= <-];
        cbn [fst snd cancelled timedout trace]; orderly_end P T RP.
    + destruct (exn_eqb_Timeout e) eqn:X; intros [= <-];
        cbn [fst snd cancelled timedout trace]; orderly_end P T RP.
      match goal with
      | H : Halted _ = Halted _ |- _ => injection H as ->; discriminate
      end.
    + discriminate.
  - destruct (pending s) as [ | p rest].
    + intros [= <-]. cbn [fst snd]. orderly_end P T I.
    + destruct (cancel_await w (started s) p) as [evs [v | e | ]];
        [ | destruct (exn_eqb_Cancelled e) | discriminate];
        intros [= <-]; cbn [fst snd cancelled timedout trace];
        orderly_end P T I;
        match goal with
        | H : _ ++ [_] = [] |- _ =>
            exfalso; revert H; destruct (cancelled s); discriminate
        end.
  - intros [= <-]. cbn [fst snd]. split; [exact P | split; [exact T | exact C]].
Qed.

Lemma orderly_start timeout records tr0 :
  forallb peaceful (map snd tr0) = true ->
  orderly (start timeout records tr0).
Proof. intros H. unfold orderly, start. cbn. now repeat split. Qed.

(** ** Verdicts and tasks *)






(** ** The timer *)

Lemma timers_none l :
  Forall (fun t => is_probe t = true) l -> timers l = [].
Proof.
  induction 1 as [ | t l H _ IH]; [reflexivity | ].
  unfold timers in *. cbn [filter]. now rewrite H.
Qed.

Lemma timers_In t l : In t (timers l) <-> In t l /\ is_probe t = false.
Proof.
  unfold timers. rewrite filter_In. now rewrite negb_true_iff.
Qed.

Lemma timers_unique n l :
  NoDup (map tid l) ->
  Forall (fun t => is_probe t = false -> tid t = n) l ->
  List.length (timers l) <= 1.
Proof.
  induction l as [ | a l IH]; [cbn; lia | ].
  cbn [map]. intros N F. inversion N as [ | ? ? Na Nl]; subst.
  inversion F as [ | ? ? Fa Fl]; subst.
  unfold timers in *. cbn [filter].
  destruct (is_probe a) eqn:A; cbn [negb]; [now apply IH | ].
  cbn [List.length].
  destruct (filter (fun t => negb (is_probe t)) l) as [ | b rest] eqn:E;
    [cbn; lia | exfalso].
  assert (Hb : In b (timers l)) by (unfold timers; rewrite E; now left).
  apply timers_In in Hb as [Hb Pb].
  rewrite Forall_forall in Fl. apply Na.
  rewrite (Fa eq_refl), <- (Fl b Hb Pb). now apply in_map.
Qed.

Lemma timer_task t n :
  is_probe t = false -> tid t = n -> exists z, t = mkTask n (Timeout z).
Proof.
  destruct t as [id [z | slot d]]; cbn; [ | discriminate].
  intros _ <-. now exists z.
Qed.

Section MoreRuns.

Variable w : world.
Variable timeout : option Z.
Variable records : list json.
Variable tr0 : list (origin * event).

#[local] Abbreviation Begin := (start timeout records tr0).

(** The timer among tasks that are told apart by their numbers. *)
Lemma timers_of_core l s :
  core timeout records tr0 l s ->
  (armed timeout s = true -> Exists (fun t => is_probe t = false) l) ->
  only_timer (List.length records) (armed timeout s) (timers l).
Proof.
  intros [I _ _ _ T _] A. unfold only_timer.
  destruct (armed timeout s) eqn:E.
  - pose proof (A eq_refl) as Ex.
    apply Exists_exists in Ex as (t & Ht & Pt).
    assert (U : List.length (timers l) <= 1).
    { apply (timers_unique (List.length records)); [exact I | ].
      eapply Forall_impl; [ | exact T]. cbn. intros a H Pa. now apply H. }
    assert (Hin : In t (timers l)) by now apply timers_In.
    rewrite Forall_forall in T. destruct (T t Ht Pt) as (Hid & _).
    destruct (timer_task t _ Pt Hid) as [z ->]. exists z.
    destruct (timers l) as [ | a [ | b rest]]; cbn in U, Hin.
    + destruct Hin.
    + now destruct Hin as [-> | []].
    + lia.
  - apply timers_none. rewrite Forall_forall in *. intros t Ht.
    destruct (is_probe t) eqn:Pt; [reflexivity | ].
    destruct (T t Ht Pt) as (_ & D & Tr).
    unfold armed in E. now rewrite D, Tr in E.
Qed.

(** What is left pending when the function returns. *)
Lemma timer_left_step c c' :
  inv timeout records tr0 c /\
  (fst c = Halted Returned ->
   only_timer (List.length records) (armed timeout (snd c))
     (pending (snd c))) ->
  step w timeout c = Some c' ->
  inv timeout records tr0 c' /\
  (fst c' = Halted Returned ->
   only_timer (List.length records) (armed timeout (snd c'))
     (pending (snd c'))).
Proof.
  intros [I H] E. split; [now apply (inv_step w _ _ _ _ _ I E) | ].
  destruct c as [[ | [ | f done] | | o] s]; unfold step in E;
    cbn [fst snd] in *.
  - destruct I as [C (_ & A & D)]. cbn [live fst snd] in *.
    assert (O : only_timer (List.length records) (armed timeout s)
                  (timers (pending s))).
    { apply timers_of_core; [exact C | ]. unfold armed.
      intros [Tr Td%negb_true_iff]%andb_true_iff. now apply A. }
    destruct (pending s) as [ | t rest] eqn:P.
    + injection E as <-. intros _. cbn [snd]. now rewrite P.
    + destruct (truthy_timeout timeout) eqn:Tr; cbn [andb] in E.
      * destruct rest as [ | t' rest]; cbn [List.length Nat.eqb] in E.
        -- injection E as <-. intros _. cbn [snd]. rewrite P.
           assert (Td : timedout s = false).
           { destruct (timedout s); [now discriminate D | reflexivity]. }
           unfold armed in *. rewrite Tr, Td in *. cbn [andb negb] in *.
           unfold only_timer in *. destruct O as [z O]. exists z.
           unfold timers in O. cbn [filter] in O.
           destruct (negb (is_probe t)); [exact O | discriminate].
        -- rewrite <- P in E.
           destruct (done_of w (waits s) (pending s));
             [discriminate | injection E as <-; discriminate].
      * rewrite <- P in E.
        destruct (done_of w (waits s) (pending s));
          [discriminate | injection E as <-; discriminate].
  - destruct (pending s); [ | destruct (timedout s)];
      injection E as <-; discriminate.
  - destruct (result w f) as [evs [[d [[ | ] | ]] | e | ]];
      try destruct (exn_eqb_Timeout e);
      try discriminate; injection E as <-; discriminate.
  - destruct (pending s) as [ | p rest]; [injection E as <-; discriminate | ].
    destruct (cancel_await w (started s) p) as [evs [v | e | ]];
      try destruct (exn_eqb_Cancelled e);
      try discriminate; injection E as <-; discriminate.
  - injection E as <-. exact H.
Qed.

Lemma timer_left_start :
  inv timeout records tr0 Begin /\
  (fst Begin = Halted Returned ->
   only_timer (List.length records) (armed timeout (snd Begin))
     (pending (snd Begin))).
Proof. split; [apply inv_start | discriminate]. Qed.

(** ** The probes of one container *)



End MoreRuns.

(** ** Probes that raise *)




Lemma run_after_step w timeout m c c' r :
  step w timeout c = Some c' -> run w timeout m c' = Some r ->
  run w timeout (S m) c = Some r.
Proof.
  intros E R. apply (run_after_steps w timeout 1 m c c' r); [ | exact R].
  cbn [steps]. now rewrite E.
Qed.


(** ** Containers without a check *)

Lemma unchecked_result w t slot d :
  coro t = IsHealthy slot d ->
  snd (probe w (tid t) d NoCancel) = Ret (d, None) ->
  finished w 0 t = true /\ snd (result w t) = Ret (d, None).
Proof.
  intros C R. unfold finished, result. rewrite C.
  pose proof (is_healthy_outcome (mkPenv (docker_exec w (tid t)) NoCancel) d)
    as O. cbn zeta in O. unfold probe in *.
  destruct (_is_healthy _ d frame0) as [f r] eqn:E. cbn [fst snd] in *.
  subst r. destruct O as [_ I].
  pose proof (immediate_frame (mkPenv (docker_exec w (tid t)) NoCancel) d
                frame0 I) as (_ & A & _).
  rewrite E in A. cbn [fst awaited frame0] in A. rewrite A. now split.
Qed.

(** The [for] over done tasks each of which is the timer or a probe that
    reports no health check. *)
Lemma for_unchecked w timeout : forall done s,
  Forall (fun t => is_probe t = false \/
                   exists d, snd (result w t) = Ret (d, None)) done ->
  exists s',
    steps w timeout (List.length done) (InFor done, s) =
      Some (InFor [], s') /\
    pending s' = pending s /\ next_id s' = next_id s /\
    waits s' = waits s /\ cancelled s' = cancelled s /\
    timedout s' = timedout s || existsb (fun t => negb (is_probe t)) done.
Proof.
  induction done as [ | f done IH]; intros s F.
  - exists s. cbn. now rewrite orb_false_r.
  - inversion F as [ | ? ? Hf F']; subst.
    assert (Hstep : exists s1,
      step w timeout (InFor (f :: done), s) = Some (InFor done, s1) /\
      pending s1 = pending s /\ next_id s1 = next_id s /\
      waits s1 = waits s /\ cancelled s1 = cancelled s /\
      timedout s1 = timedout s || negb (is_probe f)).
    { unfold step. destruct Hf as [Hf | [d Hf]].
      - unfold result, is_probe in *.
        destruct (coro f) as [z | slot d]; [ | discriminate].
        cbn [exn_eqb_Timeout negb]. eexists. split; [reflexivity | ].
        cbn. now rewrite orb_true_r.
      - pose proof (result_cases w f) as RC. rewrite Hf in RC.
        destruct RC as [Cf _].
        destruct (result w f) as [evs r]. cbn [snd] in Hf. subst r.
        eexists. split; [reflexivity | ]. cbn.
        unfold is_probe. rewrite Cf. cbn. now rewrite orb_false_r. }
    destruct Hstep as (s1 & E & P1 & N1 & W1 & C1 & T1).
    destruct (IH s1 F') as (s' & S' & P' & N' & W' & C' & T').
    exists s'. cbn [List.length steps]. rewrite E.
    repeat split; try congruence.
    rewrite T', T1. cbn [existsb]. now rewrite orb_assoc.
Qed.

Lemma pending_of_none w n l :
  Forall (fun t => finished w n t = true) l -> pending_of w n l = [].
Proof.
  induction 1 as [ | t l H _ IH]; [reflexivity | ].
  unfold pending_of in *. cbn [filter]. now rewrite H.
Qed.

Lemma pending_of_app w n l l' :
  pending_of w n (l ++ l') = pending_of w n l ++ pending_of w n l'.
Proof. unfold pending_of. apply filter_app. Qed.

Section MoreOnRuns.

Variable w : world.
Variable timeout : option Z.
Variable records : list json.
Variable tr0 : list (origin * event).

#[local] Abbreviation Begin := (start timeout records tr0).

(** ** Cancellation *)

(** X7. As long as the timeout has not fired, no task has been cancelled, no
    process has been killed and no warning has been logged, the control is
    not in the cancellation loop, and the function has not been left with
    [TimeoutError]. *)
Theorem no_cancellation_before_the_timeout n p s :
  forallb peaceful (map snd tr0) = true ->
  steps w timeout n Begin = Some (p, s) ->
  timedout s = false ->
  undisturbed s /\ p <> InCancel /\ p <> Halted (Raised TimeoutError).
Proof.
  intros H0 S D.
  pose proof (steps_invariant orderly w timeout (orderly_step w timeout)
                n _ _ (orderly_start timeout records tr0 H0) S)
    as (P & T & _).
  cbn [fst snd] in *. destruct (T D) as (C & N1 & N2).
  repeat split; try assumption. now apply P.
Qed.

(** X8. A run that returns normally has cancelled no task, killed no process
    and logged no warning, whether the timeout has fired or not. *)
Theorem normal_return_is_undisturbed fuel s :
  forallb peaceful (map snd tr0) = true ->
  run w timeout fuel Begin = Some (Returned, s) ->
  undisturbed s.
Proof.
  intros H0 R. destruct (run_steps w timeout fuel _ _ _ R) as [n S].
  pose proof (steps_invariant orderly w timeout (orderly_step w timeout)
                n _ _ (orderly_start timeout records tr0 H0) S)
    as (P & _ & C).
  cbn [fst snd] in *. split; [exact C | now apply P].
Qed.

(** ** The probes of one container *)



(** ** The timer *)

(** X11. At the test of the [while] and in the [for] over the done tasks:
    with a timeout configured that has not fired, exactly one timer task is
    among the tasks whose result has not been taken; once it has fired, or
    without a timeout, there is none. *)
Theorem timer_in_flight_until_it_fires n p s :
  steps w timeout n Begin = Some (p, s) ->
  p = AtWhile \/ (exists done, p = InFor done) ->
  only_timer (List.length records) (armed timeout s) (timers (live (p, s))).
Proof.
  intros S Hp.
  pose proof (inv_steps w timeout records tr0 n _ _
                (inv_start timeout records tr0) S) as [C St].
  apply (timers_of_core timeout records tr0); [exact C | ].
  unfold armed. intros [Tr Td%negb_true_iff]%andb_true_iff.
  destruct Hp as [-> | [done ->]]; cbn [stage fst] in St;
    destruct St as (_ & A & _); now apply A.
Qed.

(** X12. When the function returns normally no probe is left in flight: what
    is still pending is the timer alone, where a timeout is configured and
    has not fired, and nothing otherwise. The timer is left as it is,
    neither cancelled nor awaited. *)
Theorem only_the_timer_is_left_on_return fuel s :
  run w timeout fuel Begin = Some (Returned, s) ->
  only_timer (List.length records) (armed timeout s) (pending s).
Proof.
  intros R. destruct (run_steps w timeout fuel _ _ _ R) as [n S].
  pose proof (steps_invariant _ w timeout
                (timer_left_step w timeout records tr0)
                n _ _ (timer_left_start timeout records tr0) S) as [_ H].
  now apply H.
Qed.

(** ** Probes that raise *)


(** ** Containers without a check *)

(** X19. Containers without a health check do not hold the run. When
    every record is one on which the probe reports that there is no health
    check, the run returns normally after its first wait cycle, with or
    without a timeout and whatever the timer does: no probe is started
    again and no task is cancelled. *)
Theorem unchecked_containers_return_at_once :
  records <> [] ->
  (forall i d, nth_error records i = Some d ->
               snd (probe w i d NoCancel) = Ret (d, None)) ->
  exists s,
    run w timeout (4 + List.length records) Begin = Some (Returned, s) /\
    waits s = 1 /\ cancelled s = [] /\
    next_id s = List.length (first_tasks timeout records).
Proof.
  intros Hne H.
  set (l := first_tasks timeout records).
  pose proof (inv_start timeout records tr0) as [[I _ _ _ _ _] _].
  cbn [live start fst snd pending] in I. fold l in I.
  assert (Hp : forall t, In t (probes 0 records) ->
             finished w 0 t = true /\
             exists d, snd (result w t) = Ret (d, None)).
  { intros t Ht. apply probes_In in Ht as (i & d & Hd & ->).
    cbn [Nat.add].
    destruct (unchecked_result w (mkTask i (IsHealthy i d)) i d eq_refl
                (H i d Hd)) as [F R].
    split; [exact F | now exists d]. }
  assert (Hprobes : pending_of w 0 (probes 0 records) = []).
  { apply pending_of_none, Forall_forall. intros t Ht. now apply Hp. }
  assert (Hhead : exists t0, In t0 (probes 0 records)).
  { destruct records as [ | d0 rest]; [now destruct Hne | ].
    eexists. cbn [probes]. now left. }
  destruct Hhead as [t0 Ht0].
  assert (Hl : In t0 l) by (unfold l, first_tasks; apply in_or_app; now left).
  assert (Hdone0 : In t0 (done_of w 0 l)).
  { apply done_of_In. split; [exact Hl | now apply Hp]. }
  assert (Hlen : List.length (done_of w 0 l) <= S (List.length records)).
  { transitivity (List.length l).
    - apply NoDup_incl_length; [now apply done_of_NoDup | ].
      intros x Hx. now apply done_of_In in Hx as [Hx _].
    - unfold l, first_tasks. rewrite length_app.
      rewrite <- (length_map tid (probes 0 records)), probes_tid, length_seq.
      destruct timeout as [z | ]; [destruct (truthy_timeout _) | ];
        cbn [List.length]; lia. }
  assert (Hshape :
    pending_of w 0 l = [] \/
    truthy_timeout timeout = true /\
    (exists t, pending_of w 0 l = [t]) /\
    Forall (fun t => is_probe t = true) (done_of w 0 l)).
  { destruct (first_tasks_cases timeout records) as [[_ E] | [Tr [z E]]];
      fold l in E; rewrite E in *.
    - now left.
    - rewrite pending_of_app, Hprobes. cbn [app].
      unfold pending_of at 1 2. cbn [filter].
      set (timer := mkTask (List.length records) (Timeout z)) in *.
      destruct (finished w 0 timer) eqn:Ft; cbn [negb]; [now left | right].
      split; [exact Tr | split; [now exists timer | ]].
      apply Forall_forall. intros x Hx.
      apply done_of_In in Hx as [Hx Fx].
      apply in_app_or in Hx as [Hx | [<- | []]]; [ | congruence].
      now apply (Forall_forall _ _) with (1 := probes_are_probes records 0). }
  assert (Hlong : (truthy_timeout timeout && (List.length l =? 1)%nat) =
                  false).
  { destruct (first_tasks_cases timeout records) as [[-> _] | [_ [z E]]];
      [reflexivity | ].
    fold l in E. rewrite E, length_app.
    rewrite <- (length_map tid (probes 0 records)), probes_tid, length_seq.
    destruct records; [now destruct Hne | ].
    cbn [List.length]. rewrite Nat.add_comm. cbn. apply andb_false_r. }
  destruct (done_of w 0 l) as [ | f done] eqn:D; [destruct Hdone0 | ].
  set (s1 := mkSession (pending_of w 0 l) false (List.length l) 1
               (List.length l) [] [] tr0).
  assert (E1 : step w timeout Begin = Some (InFor (f :: done), s1)).
  { unfold step, start. cbn [pending waits]. fold l.
    destruct l as [ | a l'] eqn:El; [destruct Hl | ].
    rewrite Hlong, D. reflexivity. }
  destruct (for_unchecked w timeout (f :: done) s1)
    as (s' & S' & P' & N' & W' & C' & T').
  { apply Forall_forall. intros x Hx. rewrite <- D in Hx.
    apply done_of_In in Hx as [Hx _]. unfold l, first_tasks in Hx.
    apply in_app_or in Hx as [Hx | Hx]; [right; now apply Hp | left].
    destruct timeout as [z | ]; [destruct (truthy_timeout _) | ];
      try destruct Hx as [<- | []]; try destruct Hx; reflexivity. }
  cbn [pending next_id waits cancelled timedout s1 orb] in *.
  assert (E2 : exists c2,
    step w timeout (InFor [], s') = Some (AtWhile, s') /\
    step w timeout (AtWhile, s') = Some (Halted Returned, s') /\ c2 = s').
  { exists s'. unfold step. rewrite P'.
    destruct Hshape as [-> | (Tr & [t ->] & Fd)]; [now repeat split | ].
    assert (Td : timedout s' = false).
    { rewrite T'. apply not_true_is_false. intros X.
      apply existsb_exists in X as (x & Hx & Px).
      rewrite Forall_forall in Fd. now rewrite (Fd x Hx) in Px. }
    rewrite Td, Tr. now repeat split. }
  destruct E2 as (_ & E2 & E3 & _).
  exists s'. repeat split; try assumption.
  apply (run_more w timeout _ (S (List.length (f :: done) + 2))).
  - apply (run_after_step w timeout _ _ _ _ E1).
    apply (run_after_steps w timeout _ _ _ _ _ S').
    apply (run_after_step w timeout _ _ _ _ E2).
    apply (run_after_step w timeout _ _ _ _ E3).
    apply (run_halted w timeout 0).
  - cbn [Nat.add]. lia.
Qed.

End MoreOnRuns.

Lemma no_cancellation_before_the_timeout_witness :
  undisturbed (snd never_healthy_early) /\
  fst never_healthy_early <> InCancel /\
  fst never_healthy_early <> Halted (Raised TimeoutError).
Proof.
  apply (no_cancellation_before_the_timeout never_healthy (Some 1%Z)
           [web_exit3] [] 3 (fst never_healthy_early)
           (snd never_healthy_early));
    reflexivity.
Defined.

Lemma normal_return_is_undisturbed_witness : undisturbed second_try_end.
Proof.
  apply (normal_return_is_undisturbed second_try None [web_plain; db_ready]
           [] 12 second_try_end);
    reflexivity.
Defined.



Lemma timer_in_flight_until_it_fires_witness :
  only_timer 1 (armed (Some 1%Z) (snd never_healthy_early))
    (timers (live (fst never_healthy_early, snd never_healthy_early))).
Proof.
  apply (timer_in_flight_until_it_fires never_healthy (Some 1%Z)
           [web_exit3] [] 3 (fst never_healthy_early)
           (snd never_healthy_early));
    [reflexivity | now left].
Defined.

Lemma only_the_timer_is_left_on_return_witness :
  only_timer 1 (armed (Some 5%Z) healthy_in_time_end)
    (pending healthy_in_time_end).
Proof.
  apply (only_the_timer_is_left_on_return healthy_in_time (Some 5%Z)
           [web_exit3] [] 12 healthy_in_time_end).
  reflexivity.
Defined.

(** The timer is what is left: task 1, still pending. *)
Example timer_left_pending :
  pending healthy_in_time_end = [mkTask 1 (Timeout 5)] /\
  timedout healthy_in_time_end = false /\
  cancelled healthy_in_time_end = [].
Proof. now repeat split. Qed.


(** The run with the nameless record: [KeyError] on [Name], with the probe
    of the other container, task 0, left pending. *)
Example nameless_record_fails_the_run :
  option_map (fun r => (fst r, map tid (pending (snd r))))
    (_check_containers nameless_beside ["db"; "job"] None 5) =
    Some (Raised (KeyError (JStr "Name")), [0]).
Proof. reflexivity. Qed.

Lemma unchecked_containers_return_at_once_witness :
  exists s,
    run unchecked (Some 5%Z) (4 + 2)
      (start (Some 5%Z) [web_plain; web_plain] []) = Some (Returned, s) /\
    waits s = 1 /\ cancelled s = [] /\
    next_id s =
      List.length (first_tasks (Some 5%Z) [web_plain; web_plain]).
Proof.
  apply (unchecked_containers_return_at_once unchecked (Some 5%Z)
           [web_plain; web_plain] []).
  - discriminate.
  - intros [ | [ | i]] d; cbn [nth_error];
      [intros [= <-]; reflexivity .. | destruct i; discriminate].
Defined.

(** ** A probe cancelled while it starts its process *)

(** X20. A probe that the cancellation reaches while it is still creating
    its process ends the cancellation loop. The handler of the probe finds
    the local [process] unbound, so that awaiting the task raises
    [UnboundLocalError]; the scheduler catches [CancelledError] only, and
    leaves the function with that exception instead of [TimeoutError],
    with the tasks after it in the list neither cancelled nor awaited. The
    process of the probe has been killed and waited for all the same. *)
Theorem cancelled_while_spawning_ends_the_loop
    w timeout s p rest slot d fuel :
  pending s = p :: rest ->
  coro p = IsHealthy slot d ->
  spawned (fst (result w p)) <> [] ->
  tid p < started s ->
  progress w (tid p) = 0 ->
  exists s',
    run w timeout (S fuel) (InCancel, s) =
      Some (Raised (UnboundLocalError "process"), s') /\
    pending s' = rest /\
    cancelled s' = cancelled s ++ [tid p] /\
    settled (fst (cancel_await w (started s) p)).
Proof.
  intros P C Sp St Pr.
  assert (L : exists name id argv, launchable d name id argv).
  { destruct (is_healthy_shape d) as [L | I]; [exact L | exfalso].
    apply Sp. unfold result. rewrite C. unfold probe.
    pose proof (immediate_frame (mkPenv (docker_exec w (tid p)) NoCancel) d
                  frame0 I) as (_ & _ & _ & S0 & _).
    destruct (_is_healthy _ d frame0) as [f r]. exact S0. }
  destruct L as (name & id & argv & L).
  assert (Ca : cancel_await w (started s) p =
               ([Log INFO (Checking name id); Spawn argv; Kill; Reaped;
                 Log WARNING (TimeoutExceeded name id)],
                Raise (UnboundLocalError "process"))).
  { unfold cancel_await. rewrite C.
    replace (started s <=? tid p)%nat with false
      by (symmetry; apply Nat.leb_gt; exact St).
    unfold probe. rewrite Pr.
    now rewrite (launch_cancelled
                   (mkPenv (docker_exec w (tid p)) (CancelAfter 0))
                   _ _ _ _ L eq_refl). }
  exists (mkSession rest (timedout s) (next_id s) (waits s) (next_id s)
            (reports s) (cancelled s ++ [tid p])
            (trace s ++
             tagged (tid p)
               [Log INFO (Checking name id); Spawn argv; Kill; Reaped;
                Log WARNING (TimeoutExceeded name id)])).
  split; [ | split; [reflexivity | split; [reflexivity | ]]].
  - eapply (run_after_step w timeout fuel (InCancel, s)).
    + unfold step. rewrite P, Ca. reflexivity.
    + apply run_halted.
  - rewrite Ca. reflexivity.
Qed.

Lemma cancelled_while_spawning_ends_the_loop_witness :
  exists s',
    run caught_spawning (Some 1%Z) 1
      (InCancel, snd caught_spawning_cancel) =
      Some (Raised (UnboundLocalError "process"), s') /\
    pending s' = [] /\
    cancelled s' = cancelled (snd caught_spawning_cancel) ++ [2] /\
    settled
      (fst (cancel_await caught_spawning
              (started (snd caught_spawning_cancel))
              (mkTask 2 (IsHealthy 0 web_exit3)))).
Proof.
  apply (cancelled_while_spawning_ends_the_loop caught_spawning (Some 1%Z)
           (snd caught_spawning_cancel) (mkTask 2 (IsHealthy 0 web_exit3))
           [] 0 web_exit3 0);
    try reflexivity.
  - discriminate.
  - cbn. lia.
Defined.

(** * The command line *)

(** ** The run behind [main] *)

Lemma main_cases t w args fuel x s :
  main t w args fuel = Some (x, s) ->
  collected t args = [] /\ x = Exit 2 /\ s = no_session \/
  collected t args <> [] /\
  exists o,
    _check_containers w (iteration t (collected t args))
      (args_timeout args) fuel = Some (o, s) /\
    x = match o with
        | Returned => Exit 0
        | Raised e => if exn_eqb_Timeout e then Exit 1 else Uncaught e
        end.
Proof.
  unfold main. destruct (collected t args) as [ | c l] eqn:E.
  - intros [= <- <-]. now left.
  - rewrite <- E.
    destruct (_check_containers _ _ _ _) as [[[ | e] s'] | ];
      [ | | discriminate]; intros [= <- <-]; right;
      (split; [rewrite E; discriminate | ]); eexists; now split.
Qed.

(** [_check_containers] fails at the inspection, or runs the loop over
    the records of the inspection. *)
Lemma check_containers_cases w containers timeout fuel o s :
  _check_containers w containers timeout fuel = Some (o, s) ->
  (exists e,
     o = Raised e /\ exn_eqb_Timeout e = false /\
     s = snd (halt o (inspection_events containers)) /\
     (inspect_output (docker_inspect w containers) = None \/
      exists v, inspect_output (docker_inspect w containers) = Some v /\
                iterate v = inl e)) \/
  (exists v records,
     inspect_output (docker_inspect w containers) = Some v /\
     iterate v = inr records /\
     run w timeout fuel (start timeout records (inspection_events containers))
       = Some (o, s)).
Proof.
  unfold _check_containers, _inspect_containers. cbn [map].
  fold (inspection_events containers).
  destruct (inspect_output (docker_inspect w containers)) as [v | ] eqn:O.
  - destruct (iterate v) as [e | records] eqn:I.
    + intros [= <- <-]. left. exists e. repeat split.
      * destruct v; cbn in I; try discriminate; now injection I as <-.
      * right. now exists v.
    + intros R. right. now exists v, records.
  - intros [= <- <-]. left. exists ValueError. repeat split. now left.
Qed.

(** ** The levels of the lines *)







(** ** What the handlers let through *)

Lemma printed_app args evs evs' :
  printed args (evs ++ evs') = printed args evs ++ printed args evs'.
Proof. unfold printed. apply flat_map_app. Qed.







(** ** The identifiers *)


(** X15. One inspection with every identifier once. When [main] gets as far
    as the run, the main coroutine starts one process in all, [docker
    inspect] with the identifiers found on the standard input, unless that
    is a terminal, and on the command line, each of them once, in the order
    in which the set is iterated. *)
Theorem every_identifier_is_inspected_once t w args fuel x s :
  Permutation (iteration t (collected t args)) (collected t args) ->
  main t w args fuel = Some (x, s) ->
  x <> Exit 2 ->
  main_events (trace s) =
    [Spawn ("docker" :: "inspect" :: iteration t (collected t args));
     Reaped] /\
  NoDup (iteration t (collected t args)) /\
  forall id,
    In id (iteration t (collected t args)) <->
    isatty t = false /\ In id (stdin_lines t) \/ In id (args_container args).
Proof.
  intros P H N.
  destruct (main_cases _ _ _ _ _ _ H) as [(_ & -> & _) | (_ & o & C & _)];
    [now destruct N | ].
  split; [ | split].
  - destruct (check_containers_cases _ _ _ _ _ _ C)
      as [(e & _ & _ & -> & _) | (v & records & _ & _ & R)];
      [reflexivity | ].
    pose proof (inv_run w _ records _ fuel _ _ _ (inv_start _ _ _) R)
      as [Co _].
    cbn [snd] in Co. now rewrite (core_main _ _ _ _ _ Co).
  - apply (Permutation_NoDup (Permutation_sym P)). apply NoDup_nodup.
  - intros id. split.
    + intros Hi. apply (Permutation_in _ P) in Hi. unfold collected in Hi.
      apply nodup_In, in_app_or in Hi as [Hi | Hi]; [left | now right].
      destruct (isatty t); [destruct Hi | now split].
    + intros Hi. apply (Permutation_in _ (Permutation_sym P)).
      unfold collected. apply nodup_In, in_or_app.
      destruct Hi as [[-> Hi] | Hi]; [now left | now right].
Qed.

Lemma every_identifier_is_inspected_once_witness :
  main_events (trace (snd piped_main)) =
    [Spawn ["docker"; "inspect"; "db"; "web"]; Reaped] /\
  NoDup (iteration piped (collected piped (plainly ["db"] None))) /\
  forall id,
    In id (iteration piped (collected piped (plainly ["db"] None))) <->
    isatty piped = false /\ In id (stdin_lines piped) \/
    In id (args_container (plainly ["db"] None)).
Proof.
  apply (every_identifier_is_inspected_once piped second_try
           (plainly ["db"] None) 12 (fst piped_main) (snd piped_main)).
  - apply Permutation_rev.
  - reflexivity.
  - discriminate.
Defined.

(** ** The exit status *)



(** ** What is printed *)





(** A run that times out under [--quiet]: status 1, and the warning of the
    cancelled probe on the standard error. *)
Example quiet_timeout_still_warns :
  fst never_healthy_quietly = Exit 1 /\
  printed (quietly ["web"] (Some 1%Z))
    (map snd (trace (snd never_healthy_quietly))) =
    [(sys_stderr, TimeoutExceeded (JStr "/web") (JStr "4f2a"))].
Proof. now split. Qed.

(** The same run without [--quiet] and without [--verbose]. *)
Example plain_timeout_prints :
  option_map
    (fun r => printed (plainly ["web"] (Some 1%Z)) (map snd (trace (snd r))))
    (main desk never_healthy (plainly ["web"] (Some 1%Z)) 12) =
    Some
      [(sys_stdout, Checking (JStr "/web") (JStr "4f2a"));
       (sys_stdout, Returncode (JStr "/web") (JStr "4f2a") 1 false);
       (sys_stdout, Checking (JStr "/web") (JStr "4f2a"));
       (sys_stdout, TimeoutExceeded (JStr "/web") (JStr "4f2a"))].
Proof. reflexivity. Qed.
